(** * CDP support agent: retrieval, ranking, chunking and response assembly

    A shallow embedding of the retrieval-and-ranking pipeline of the CDP
    documentation chatbot:

    - [src/scraper/processors.py]   (chunk splitter, metadata extraction),
    - [src/retriever/retriever.py]  (query classification, retrievers),
    - [src/retriever/ranker.py]     (scoring, filtering, comparison processor),
    - [src/chatbot/response_generator.py] (response assembly),
    - [src/chatbot/query_processor.py], [src/api/routes.py] (the chat
      request from the message to the reply),
    - [src/indexer/vectorstore.py]  (what is handed to the collection).

    Modelling conventions.
    - Python [str] is [string]; the character predicates ([lower],
      [isspace], the classes of [re]) are those of Python on code points
      below 128.
    - Python [float] is IEEE 754 binary64, as [spec_float] with precision
      53 and maximal exponent 1024; every operation rounds as CPython does.
    - Python [int] is [Z]; [len] and [enumerate] indices are [nat].
    - A [dict] used as a record is a record whose fields are [option]s:
      [None] is a missing key.  Where the code itself tests the value
      against [None] (the distance of a result, the feature of a
      comparison, the conversation id of a request), [None] is also a key
      that holds Python's [None].  A key that holds [None] where the code
      goes on to use a string, a list or a dict is outside the model: the
      code raises there.  A [dict] that is iterated is an association
      list in insertion order.
    - The vector index and the sentence tokenizer are collaborators outside
      the repository's logic: they are Section variables, and every call to
      the index is recorded in a trace. *)

From Stdlib Require Import ZArith List Bool Ascii String Lia Arith.
From Stdlib Require Import Floats.SpecFloat.
From Stdlib Require Import Sorting.Sorted.
Import ListNotations.

Open Scope string_scope.

(* ================================================================== *)
(** * Python strings *)
(* ================================================================== *)

Module PyStr.

(** The line feed, ["\n"]. *)
Definition nl_char : ascii := ascii_of_nat 10.
Definition nl : string := String nl_char "".

Definition code (c : ascii) : nat := nat_of_ascii c.

Definition in_range (lo hi : nat) (c : ascii) : bool :=
  (lo <=? code c)%nat && (code c <=? hi)%nat.

Definition is_upper (c : ascii) : bool := in_range 65 90 c.
Definition is_lower (c : ascii) : bool := in_range 97 122 c.
Definition is_digit (c : ascii) : bool := in_range 48 57 c.

(** [str.isspace] on one character: TAB, LF, VT, FF, CR, the four
    separators 0x1C..0x1F and the space. *)
Definition is_space (c : ascii) : bool :=
  in_range 9 13 c || in_range 28 31 c || (code c =? 32)%nat.

(** [\w] of [re]: letters, digits and the underscore. *)
Definition is_word (c : ascii) : bool :=
  is_upper c || is_lower c || is_digit c || (code c =? 95)%nat.

Definition lower_char (c : ascii) : ascii :=
  if is_upper c then ascii_of_nat (code c + 32) else c.

Definition upper_char (c : ascii) : ascii :=
  if is_lower c then ascii_of_nat (code c - 32) else c.

(** [s.lower()] *)
Fixpoint lower (s : string) : string :=
  match s with
  | EmptyString => EmptyString
  | String c s' => String (lower_char c) (lower s')
  end.

(** [s.capitalize()]: first character upper-cased, the rest lower-cased. *)
Definition capitalize (s : string) : string :=
  match s with
  | EmptyString => EmptyString
  | String c s' => String (upper_char c) (lower s')
  end.

(** [needle in hay] *)
Fixpoint contains (needle hay : string) : bool :=
  if prefix needle hay then true
  else match hay with
       | EmptyString => false
       | String _ hay' => contains needle hay'
       end.

(** [hay.count(needle)]: occurrences that do not overlap, left to right;
    [skip] is the number of characters of the last occurrence still to be
    stepped over. *)
Fixpoint count_aux (needle hay : string) (skip : nat) {struct hay} : nat :=
  match skip with
  | S k =>
      match hay with
      | EmptyString => 0
      | String _ hay' => count_aux needle hay' k
      end
  | O =>
      if prefix needle hay
      then S (match hay with
              | EmptyString => 0
              | String _ hay' => count_aux needle hay' (String.length needle - 1)
              end)
      else match hay with
           | EmptyString => 0
           | String _ hay' => count_aux needle hay' 0
           end
  end.

Definition count (hay needle : string) : nat := count_aux needle hay 0.

(** [s[:n]] for [n >= 0]. *)
Fixpoint take (n : nat) (s : string) : string :=
  match n, s with
  | S k, String c s' => String c (take k s')
  | _, _ => EmptyString
  end.

Fixpoint lstrip (s : string) : string :=
  match s with
  | String c s' => if is_space c then lstrip s' else s
  | EmptyString => EmptyString
  end.

Fixpoint rev_string (acc s : string) : string :=
  match s with
  | EmptyString => acc
  | String c s' => rev_string (String c acc) s'
  end.

Definition rstrip (s : string) : string :=
  rev_string "" (lstrip (rev_string "" s)).

(** [s.strip()] *)
Definition strip (s : string) : string := rstrip (lstrip s).

(** [sep.join(xs)] *)
Fixpoint join (sep : string) (xs : list string) : string :=
  match xs with
  | [] => ""
  | [x] => x
  | x :: xs' => x ++ sep ++ join sep xs'
  end.

(** [len(s)] as a Python integer. *)
Definition len (s : string) : Z := Z.of_nat (String.length s).

(** Decimal digits of a natural number, most significant first: [str(n)]. *)
Fixpoint digits_aux (fuel n : nat) (acc : string) : string :=
  match fuel with
  | O => acc
  | S f =>
      let acc' := String (ascii_of_nat (48 + n mod 10)) acc in
      if (n <? 10)%nat then acc' else digits_aux f (n / 10) acc'
  end.

Definition str_of_nat (n : nat) : string := digits_aux (S n) n "".

(** [xs[:k]] on a list, for any Python integer [k]: a negative [k] counts
    from the end. *)
Definition slice_to {A : Type} (k : Z) (xs : list A) : list A :=
  if (0 <=? k)%Z then firstn (Z.to_nat k) xs
  else firstn (Z.to_nat (Z.of_nat (List.length xs) + k)) xs.

(** [d.get(key, default)] on an optional field. *)
Definition get {A : Type} (field : option A) (default : A) : A :=
  match field with
  | Some v => v
  | None => default
  end.

End PyStr.

(* ================================================================== *)
(** * Python floats: IEEE 754 binary64 *)
(* ================================================================== *)

Module PyFloat.

Definition float : Type := spec_float.

Definition prec : Z := 53.
Definition emax : Z := 1024.

Definition fadd : float -> float -> float := SFadd prec emax.
Definition fsub : float -> float -> float := SFsub prec emax.
Definition fmul : float -> float -> float := SFmul prec emax.
Definition fdiv : float -> float -> float := SFdiv prec emax.

(** [a < b], [a <= b]; [a >= b] is [fle b a]. *)
Definition flt : float -> float -> bool := SFltb.
Definition fle : float -> float -> bool := SFleb.

(** [float(z)] for a Python integer (exact below 2^53). *)
Definition of_Z (z : Z) : float := binary_normalize prec emax z 0 false.

(** The decimal literal [n/d], correctly rounded, as the parser reads it. *)
Definition lit (n d : Z) : float := fdiv (of_Z n) (of_Z d).

Definition f0_0 : float := Eval vm_compute in of_Z 0.
Definition f1_0 : float := Eval vm_compute in of_Z 1.
Definition f0_2 : float := Eval vm_compute in lit 2 10.
Definition f0_3 : float := Eval vm_compute in lit 3 10.
Definition f0_4 : float := Eval vm_compute in lit 4 10.
Definition f0_5 : float := Eval vm_compute in lit 5 10.
Definition f0_6 : float := Eval vm_compute in lit 6 10.
Definition f0_7 : float := Eval vm_compute in lit 7 10.
Definition f0_8 : float := Eval vm_compute in lit 8 10.

(** Python's [min(a, b)]: [b] when [b < a], else [a]. *)
Definition fmin (a b : float) : float := if flt b a then b else a.

(** Python's true division [a / b] of two non-negative integers below
    2^53, [b] positive. *)
Definition int_div (a b : Z) : float := fdiv (of_Z a) (of_Z b).

End PyFloat.

(* ================================================================== *)
(** * The fragment of Python's [re] the program uses *)
(* ================================================================== *)

Module Re.
Import PyStr.

(** Pattern syntax.  [Star] and [LazyStar] are the greedy [*] and the
    lazy [*?]; [Ahead] is [(?=...)]; [Behind p] is a one-character
    look-behind [(?<=[...])]; [Eos] is [$] without [re.MULTILINE];
    [WordB] is [\b].  Groups are numbered by hand, as [re] numbers them by
    their opening parenthesis.  A group inside a look-ahead is not
    recorded; no pattern of the program has one. *)
Inductive regex : Type :=
| Eps
| Chr (c : ascii)
| Cls (p : ascii -> bool)
| Cat (r s : regex)
| Alt (r s : regex)
| Star (r : regex)
| LazyStar (r : regex)
| Group (n : nat) (r : regex)
| Ahead (r : regex)
| Behind (p : ascii -> bool)
| Eos
| WordB.

(** [r+] *)
Definition Plus (r : regex) : regex := Cat r (Star r).

(** [.] without [re.DOTALL]: any character but the line feed. *)
Definition Dot : regex := Cls (fun c => negb (Ascii.eqb c nl_char)).

(** A literal string. *)
Fixpoint Str (s : string) : regex :=
  match s with
  | EmptyString => Eps
  | String c EmptyString => Chr c
  | String c s' => Cat (Chr c) (Str s')
  end.

(** [\d], [\s], [\w] *)
Definition Digit : regex := Cls is_digit.
Definition Space : regex := Cls is_space.
Definition Word : regex := Cls is_word.

(** A position of the matcher in the subject: the character before it,
    the text from it on, and the groups captured so far. *)
Record mstate : Type := MState {
  prev : option ascii;
  rest : string;
  caps : list (nat * string)
}.

Definition step (st : mstate) : option (ascii * mstate) :=
  match rest st with
  | EmptyString => None
  | String c s' => Some (c, MState (Some c) s' (caps st))
  end.

(** The text between two positions of one subject. *)
Definition consumed (st st' : mstate) : string :=
  take (String.length (rest st) - String.length (rest st')) (rest st).

Definition progress (st st' : mstate) : bool :=
  (String.length (rest st') <? String.length (rest st))%nat.

(** [$]: at the end, or just before a line feed that ends the subject. *)
Definition at_eos (s : string) : bool :=
  match s with
  | EmptyString => true
  | String c EmptyString => Ascii.eqb c nl_char
  | _ => false
  end.

Definition word_before (st : mstate) : bool :=
  match prev st with
  | Some c => is_word c
  | None => false
  end.

Definition word_after (st : mstate) : bool :=
  match rest st with
  | String c _ => is_word c
  | EmptyString => false
  end.

(** The backtracking matcher, in continuation-passing style: [run r st k]
    tries the ways [r] matches at [st] in the order of Python's engine and
    returns the first one the continuation [k] accepts.  An iteration of a
    star must consume a character, so the subject's length bounds the
    number of iterations. *)
Fixpoint run {R : Type} (r : regex) {struct r}
  : mstate -> (mstate -> option R) -> option R :=
  match r with
  | Eps => fun st k => k st
  | Chr c => fun st k =>
      match step st with
      | Some (d, st') => if Ascii.eqb c d then k st' else None
      | None => None
      end
  | Cls p => fun st k =>
      match step st with
      | Some (d, st') => if p d then k st' else None
      | None => None
      end
  | Cat r1 r2 => fun st k => run r1 st (fun st' => run r2 st' k)
  | Alt r1 r2 => fun st k =>
      match run r1 st k with
      | Some x => Some x
      | None => run r2 st k
      end
  | Star r1 => fun st k =>
      (fix loop (fuel : nat) (st : mstate) {struct fuel} : option R :=
         match fuel with
         | O => k st
         | S fuel' =>
             match run r1 st (fun st' => if progress st st' then loop fuel' st' else None) with
             | Some x => Some x
             | None => k st
             end
         end) (String.length (rest st)) st
  | LazyStar r1 => fun st k =>
      (fix loop (fuel : nat) (st : mstate) {struct fuel} : option R :=
         match fuel with
         | O => k st
         | S fuel' =>
             match k st with
             | Some x => Some x
             | None => run r1 st (fun st' => if progress st st' then loop fuel' st' else None)
             end
         end) (String.length (rest st)) st
  | Group n r1 => fun st k =>
      run r1 st (fun st' => k (MState (prev st') (rest st') ((n, consumed st st') :: caps st')))
  | Ahead r1 => fun st k =>
      match run r1 st (fun st' => Some st') with
      | Some _ => k st
      | None => None
      end
  | Behind p => fun st k =>
      match prev st with
      | Some c => if p c then k st else None
      | None => None
      end
  | Eos => fun st k => if at_eos (rest st) then k st else None
  | WordB => fun st k =>
      if xorb (word_before st) (word_after st) then k st else None
  end.

(** A match object: the matched text, the groups, and the position the
    match ends at. *)
Record rmatch : Type := RMatch {
  m_text : string;
  m_caps : list (nat * string);
  m_end : mstate
}.

(** [m.group(n)] for [n >= 1]; [None] when the pattern has no such
    group (CPython raises [IndexError]). *)
Fixpoint group (n : nat) (cs : list (nat * string)) : option string :=
  match cs with
  | [] => None
  | (i, s) :: cs' => if (i =? n)%nat then Some s else group n cs'
  end.

(** [pattern.match] at one position. *)
Definition match_at (r : regex) (st : mstate) : option rmatch :=
  match run r (MState (prev st) (rest st) []) (fun st' => Some st') with
  | Some st' => Some (RMatch (consumed st st') (caps st') (MState (prev st') (rest st') []))
  | None => None
  end.

(** The leftmost match at or after a position. *)
Fixpoint search_from (r : regex) (p : option ascii) (s : string) {struct s}
  : option (string * rmatch) :=
  match match_at r (MState p s []) with
  | Some m => Some ("", m)
  | None =>
      match s with
      | EmptyString => None
      | String c s' =>
          match search_from r (Some c) s' with
          | Some (skipped, m) => Some (String c skipped, m)
          | None => None
          end
      end
  end.

(** [re.search(r, s)]; the first component is the text before the match. *)
Definition search (r : regex) (s : string) : option (string * rmatch) :=
  search_from r None s.

Definition matches (r : regex) (s : string) : bool :=
  match search r s with
  | Some _ => true
  | None => false
  end.

(** [re.finditer]: the matches of [r] from left to right, each with the
    text skipped since the previous one, and the text after the last.
    After an empty match the scan moves one character on. *)
Fixpoint finditer_from (fuel : nat) (r : regex) (p : option ascii) (s : string)
  : list (string * rmatch) * string :=
  match fuel with
  | O => ([], s)
  | S fuel' =>
      match search_from r p s with
      | None => ([], s)
      | Some (skipped, m) =>
          let st' := m_end m in
          match m_text m, rest st' with
          | EmptyString, EmptyString => ([(skipped, m)], "")
          | EmptyString, String c s' =>
              let (ms, tl) := finditer_from fuel' r (Some c) s' in
              match ms with
              | [] => ([(skipped, m)], String c tl)
              | (sk, m') :: ms' => ((skipped, m) :: (String c sk, m') :: ms', tl)
              end
          | _, _ =>
              let (ms, tl) := finditer_from fuel' r (prev st') (rest st') in
              ((skipped, m) :: ms, tl)
          end
      end
  end.

Definition finditer (r : regex) (s : string) : list (string * rmatch) * string :=
  finditer_from (S (String.length s)) r None s.

(** [re.findall(r, s)] for a pattern without groups: the matched texts. *)
Definition findall (r : regex) (s : string) : list string :=
  map (fun sm => m_text (snd sm)) (fst (finditer r s)).

(** [re.findall(r, s)] for a pattern with one group: the group's texts. *)
Definition findall_group1 (r : regex) (s : string) : list string :=
  map (fun sm => get (group 1 (m_caps (snd sm))) "") (fst (finditer r s)).

(** [re.split(r, s)] for a pattern without groups whose matches are not
    empty: the texts between the matches. *)
Definition split (r : regex) (s : string) : list string :=
  let (ms, tl) := finditer r s in
  map fst ms ++ [tl].

End Re.

(* ================================================================== *)
(** * Shared records *)
(* ================================================================== *)

Module Data.
Import PyFloat.

(** The metadata attached to a chunk and returned with a result. *)
Record Metadata : Type := Build_Metadata {
  platform : option string;
  title : option string;
  url : option string;
  heading_hierarchy : option (list string);
  doc_type : option string
}.

(** A retrieval result: the four keys the index sets, and the three the
    ranker adds.  [content] and [metadata] are [None] when the key is
    missing, which the code reads as [""] and [{}]; [distance] is [None]
    also when the key holds [None], which the code tests for. *)
Record Result : Type := Build_Result {
  content : option string;
  metadata : option Metadata;
  id : option string;
  distance : option float;
  content_score : option float;
  metadata_score : option float;
  final_score : option float
}.

(** A [dict] with string keys, in insertion order. *)
Definition dict (V : Type) : Type := list (string * V).

(** [d[k] = v]: an existing key keeps its place. *)
Fixpoint dict_set {V : Type} (k : string) (v : V) (d : dict V) : dict V :=
  match d with
  | [] => [(k, v)]
  | (k', v') :: d' =>
      if String.eqb k' k then (k, v) :: d' else (k', v') :: dict_set k v d'
  end.

(** An exception, or a value. *)
Inductive exc (A : Type) : Type :=
| Ok (a : A)
| IndexError.

Arguments Ok {A} a.
Arguments IndexError {A}.

End Data.

(* ================================================================== *)
(** * src/config.py *)
(* ================================================================== *)

Module Config.
Import PyFloat.

Definition CHUNK_SIZE : Z := 1000.
Definition CHUNK_OVERLAP : Z := 200.
Definition TOP_K_RESULTS : Z := 5.
Definition SIMILARITY_THRESHOLD : float := f0_7.

End Config.

(* ================================================================== *)
(** * src/scraper/processors.py *)
(* ================================================================== *)

Module Processors.
Import PyStr Data.

Open Scope Z_scope.

(** The variables of the loop of [split_text_into_chunks]. *)
Record split_state : Type := SplitState {
  chunks : list string;
  current_chunk : list string;
  current_size : Z
}.

(** The inner loop: walk the closed chunk from its last sentence and keep
    sentences while their lengths fit in [chunk_overlap]. *)
Fixpoint overlap_loop (chunk_overlap : Z) (reversed_chunk : list string)
    (overlap_sentences : list string) (overlap_size : Z) : list string * Z :=
  match reversed_chunk with
  | [] => (overlap_sentences, overlap_size)
  | s :: more =>
      if overlap_size + len s <=? chunk_overlap
      then overlap_loop chunk_overlap more (s :: overlap_sentences) (overlap_size + len s)
      else (overlap_sentences, overlap_size)
  end.

Definition nonempty {A : Type} (xs : list A) : bool :=
  match xs with
  | [] => false
  | _ :: _ => true
  end.

(** One iteration of the loop over the sentences. *)
Definition split_step (chunk_size chunk_overlap : Z) (st : split_state)
    (sentence : string) : split_state :=
  let sentence_size := len sentence in
  let st1 :=
    if (current_size st + sentence_size >? chunk_size) && nonempty (current_chunk st)
    then
      let (overlap_sentences, overlap_size) :=
        overlap_loop chunk_overlap (rev (current_chunk st)) [] 0 in
      SplitState (chunks st ++ [join " " (current_chunk st)])
                 overlap_sentences overlap_size
    else st in
  SplitState (chunks st1) (current_chunk st1 ++ [sentence])
             (current_size st1 + sentence_size).

(** The loop, and the last chunk. *)
Definition split_sentences (sentences : list string) (chunk_size chunk_overlap : Z)
  : list string :=
  let st := fold_left (split_step chunk_size chunk_overlap) sentences
                      (SplitState [] [] 0) in
  if nonempty (current_chunk st)
  then chunks st ++ [join " " (current_chunk st)]
  else chunks st.

(** A heading of a scraped document. *)
Record Heading : Type := Build_Heading {
  level : option Z;
  text : option string
}.

(** A scraped document.  A field is [None] when the key is missing; the
    scrapers of the repository write the platform, the title and the url
    as strings. *)
Record Document : Type := Build_Document {
  doc_url : option string;
  doc_title : option string;
  doc_content : option string;
  doc_headings : option (list Heading);
  doc_platform : option string
}.

(** The variables of the heading loop of [extract_metadata]. *)
Record heading_state : Type := HeadingState {
  hierarchy_out : list string;
  current_level : Z;
  current_hierarchy : list string
}.

Definition heading_step (st : heading_state) (heading : Heading) : heading_state :=
  let lvl := get (level heading) 0 in
  let txt := get (text heading) "" in
  let hierarchy :=
    if lvl <=? current_level st
    then slice_to (lvl - 1) (current_hierarchy st)
    else current_hierarchy st in
  let hierarchy' : list string := (hierarchy ++ [txt])%list in
  HeadingState (hierarchy_out st ++ [join " > " hierarchy']) lvl hierarchy'.

Definition build_heading_hierarchy (headings : list Heading) : list string :=
  hierarchy_out (fold_left heading_step headings (HeadingState [] 0 [])).

Definition guess_doc_type (title : string) : string :=
  if contains "how to" (lower title) || contains "guide" (lower title) then "how-to"
  else if contains "api" (lower title) || contains "reference" (lower title) then "reference"
  else if contains "overview" (lower title) || contains "introduction" (lower title) then "overview"
  else "unknown".

Definition extract_metadata (data : Document) : Metadata :=
  let platform := get (doc_platform data) "unknown" in
  let title := get (doc_title data) "" in
  let url := get (doc_url data) "" in
  let headings := get (doc_headings data) [] in
  Build_Metadata (Some platform) (Some title) (Some url)
                 (Some (build_heading_hierarchy headings))
                 (Some (guess_doc_type title)).

(** A chunk prepared for the index.  The source stores the same
    [metadata] object in every chunk and never updates it. *)
Record Chunk : Type := Build_Chunk {
  chunk_content : string;
  chunk_id : string;
  chunk_metadata : Metadata
}.

(** [enumerate(chunks)], numbering from [i]. *)
Fixpoint enumerate_from {A : Type} (i : nat) (xs : list A) : list (nat * A) :=
  match xs with
  | [] => []
  | x :: xs' => (i, x) :: enumerate_from (S i) xs'
  end.

Section Tokenizer.

(** [nltk.sent_tokenize] *)
Variable sent_tokenize : string -> list string.

Definition split_text_into_chunks (text : string) (chunk_size chunk_overlap : Z)
  : list string :=
  split_sentences (sent_tokenize text) chunk_size chunk_overlap.

Definition prepare_document_chunks (data : Document) (chunk_size chunk_overlap : Z)
  : list Chunk :=
  let content := get (doc_content data) "" in
  let metadata := extract_metadata data in
  let chunks := split_text_into_chunks content chunk_size chunk_overlap in
  map (fun ic : nat * string =>
         let (i, chunk) := ic in
         Build_Chunk chunk
                     (get (platform metadata) "" ++ "_" ++ str_of_nat i)
                     metadata)
      (enumerate_from 0 chunks).

End Tokenizer.

End Processors.

(* ================================================================== *)
(** * src/retriever/retriever.py *)
(* ================================================================== *)

Module Retriever.
Import PyStr PyFloat Re Data Config.

(** One call of [VectorStore.query]. *)
Record IndexCall : Type := Build_IndexCall {
  query_text : string;
  n_results : Z;
  filter_dict : option (dict string)
}.

(** Computations that call the index: the calls made so far are threaded
    through, oldest first. *)
Definition Traced (A : Type) : Type := list IndexCall -> A * list IndexCall.

Definition ret {A : Type} (a : A) : Traced A := fun tr => (a, tr).

Definition bind {A B : Type} (m : Traced A) (f : A -> Traced B) : Traced B :=
  fun tr => let (a, tr') := m tr in f a tr'.

Notation "x <- m ;; k" := (bind m (fun x => k))
  (at level 61, m at next level, right associativity).

(** The value and the calls of a computation started with no call made. *)
Definition value {A : Type} (m : Traced A) : A := fst (m []).
Definition calls {A : Type} (m : Traced A) : list IndexCall := snd (m []).

Definition cdp_names : list string := ["segment"; "mparticle"; "lytics"; "zeotap"].

(** [for x in xs: if test(x): return x] and [return None] after it. *)
Definition first_such {A : Type} (test : A -> bool) (xs : list A) : option A :=
  find test xs.

Definition _extract_cdp_from_query (query : string) : option string :=
  let query_lower := lower query in
  first_such (fun cdp => contains cdp query_lower) cdp_names.

Definition comparison_patterns : list regex :=
  [ Str "compare"; Str "difference between"; Str "vs"; Str "versus";
    Cat (Str "how does ") (Cat (Plus Dot) (Str " compare"));
    Str "which is better"; Str "pros and cons" ].

Definition how_to_patterns : list regex :=
  [ Cat (Str "how ")
        (Group 1 (Alt (Str "to") (Alt (Str "do") (Alt (Str "can") (Str "should")))));
    Str "steps to"; Str "guide for"; Str "tutorial";
    Str "instructions for"; Str "process of" ].

(** [for pattern in patterns: if re.search(pattern, s): return ...] *)
Definition any_pattern (patterns : list regex) (s : string) : bool :=
  existsb (fun pattern => matches pattern s) patterns.

Definition _classify_query_type (query : string) : string :=
  let query_lower := lower query in
  if any_pattern comparison_patterns query_lower then "comparison"
  else if any_pattern how_to_patterns query_lower then "how-to"
  else "general".

Definition relevant_terms : list string :=
  [ "segment"; "mparticle"; "lytics"; "zeotap"; "cdp";
    "customer data platform"; "data"; "analytics"; "integration";
    "tracking"; "source"; "destination"; "audience"; "profile";
    "event"; "user"; "identity"; "segment"; "campaign" ].

Definition _is_relevant_query (query : string) : bool :=
  let query_lower := lower query in
  existsb (fun term => contains term query_lower) relevant_terms.

(** The analysis of a single query.  The fields are optional because the
    response generator reads them with [.get]. *)
Record QueryAnalysis : Type := Build_QueryAnalysis {
  cdp : option string;
  query_type : option string;
  is_relevant : option bool
}.

(** The test of the list comprehension that drops distant results. *)
Definition within_threshold (result : Result) : bool :=
  match distance result with
  | None => true
  | Some d => flt d SIMILARITY_THRESHOLD
  end.

(** The analysis of a comparison query; [feature] is [None] for Python's
    [None].  The three keys are always set. *)
Record ComparisonAnalysis : Type := Build_ComparisonAnalysis {
  cdps : list string;
  feature : option string;
  comparison_query_type : string
}.

Definition _extract_cdps_for_comparison (query : string) : list string :=
  let query_lower := lower query in
  filter (fun cdp => contains cdp query_lower) cdp_names.

Definition feature_patterns : list regex :=
  [ Cat (Str "how does ") (Cat (Plus Dot) (Cat (Chr " ")
      (Cat (Group 1 (Alt (Str "handle") (Alt (Str "manage") (Alt (Str "support")
                         (Alt (Str "implement") (Str "provide"))))))
           (Cat (Chr " ") (Group 2 (Plus Dot))))));
    Cat (Str "compare ") (Cat (Plus Dot) (Cat (Chr " ")
      (Cat (Group 1 (Alt (Str "in terms of") (Alt (Str "regarding") (Str "for"))))
           (Cat (Chr " ") (Group 2 (Plus Dot))))));
    Cat (Str "difference between ") (Cat (Plus Dot)
      (Cat (Str " for ") (Group 1 (Plus Dot))));
    Cat (Str "which is better for ") (Group 1 (Plus Dot));
    Cat (Str "how do ") (Cat (Plus Dot)
      (Cat (Str " compare for ") (Group 1 (Plus Dot)))) ].

(** The loop over the feature patterns: the first pattern that matches
    decides, and [match.group(2)] raises when the pattern has one group. *)
Fixpoint feature_loop (patterns : list regex) (query_lower : string)
  : exc (option string) :=
  match patterns with
  | [] => Ok None
  | pattern :: more =>
      match search pattern query_lower with
      | Some (_, m) =>
          match group 2 (m_caps m) with
          | Some g => Ok (Some (strip g))
          | None => IndexError
          end
      | None => feature_loop more query_lower
      end
  end.

Definition _extract_feature_for_comparison (query : string) : exc (option string) :=
  feature_loop feature_patterns (lower query).

(** Truth value of an optional string: [None] and [""] are false. *)
Definition truthy (s : option string) : bool :=
  match s with
  | Some (String _ _) => true
  | _ => false
  end.

Section Index.

(** [VectorStore.query(query_text, n_results, filter_dict)] *)
Variable vector_store_query : string -> Z -> option (dict string) -> list Result.

(** A call of the index, recorded. *)
Definition query_index (q : string) (n : Z) (f : option (dict string))
  : Traced (list Result) :=
  fun tr => (vector_store_query q n f, (tr ++ [Build_IndexCall q n f])%list).

Definition retrieve (query : string) (top_k : Z)
  : Traced (list Result * QueryAnalysis) :=
  let cdp := _extract_cdp_from_query query in
  let query_type := _classify_query_type query in
  let is_relevant := _is_relevant_query query in
  let query_analysis :=
    Build_QueryAnalysis cdp (Some query_type) (Some is_relevant) in
  if negb is_relevant then ret ([], query_analysis)
  else
    let filter_dict : dict string :=
      if truthy cdp then dict_set "platform" (get cdp "") [] else [] in
    results <- query_index query top_k
                 (if Processors.nonempty filter_dict then Some filter_dict else None) ;;
    let relevant_results := filter within_threshold results in
    ret (relevant_results, query_analysis).

(** The loop over the platforms of [retrieve_for_comparison]. *)
Fixpoint comparison_loop (cdps : list string) (comparison_query : string)
    (top_k_per_cdp : Z) (results : dict (list Result))
  : Traced (dict (list Result)) :=
  match cdps with
  | [] => ret results
  | cdp :: more =>
      let filter_dict := dict_set "platform" cdp [] in
      cdp_results <- query_index comparison_query top_k_per_cdp (Some filter_dict) ;;
      let relevant_results := filter within_threshold cdp_results in
      comparison_loop more comparison_query top_k_per_cdp
                      (dict_set cdp relevant_results results)
  end.

Definition retrieve_for_comparison (query : string) (top_k_per_cdp : Z)
  : Traced (exc (dict (list Result) * ComparisonAnalysis)) :=
  let cdps := _extract_cdps_for_comparison query in
  match _extract_feature_for_comparison query with
  | IndexError => ret IndexError
  | Ok feature =>
      let cdps := if Processors.nonempty cdps then cdps
                  else ["segment"; "mparticle"; "lytics"; "zeotap"] in
      let comparison_query := if truthy feature then get feature "" else query in
      let query_analysis :=
        Build_ComparisonAnalysis cdps feature "comparison" in
      results <- comparison_loop cdps comparison_query top_k_per_cdp [] ;;
      ret (Ok (results, query_analysis))
  end.

End Index.

End Retriever.

(* ================================================================== *)
(** * src/retriever/ranker.py *)
(* ================================================================== *)

Module Ranker.
Import PyStr PyFloat Re Data Config.

(** [\b\w+\b] *)
Definition word_pattern : regex := Cat WordB (Cat (Plus Word) WordB).

(** The query's words longer than three characters. *)
Definition keywords_of (query_lower : string) : list string :=
  filter (fun kw => (3 <? String.length kw)%nat) (findall word_pattern query_lower).

(** [sum(text.count(kw) for kw in keywords)] *)
Definition count_keywords (text_lower : string) (keywords : list string) : nat :=
  fold_left (fun acc kw => (acc + count text_lower kw)%nat) keywords 0%nat.

(** The score is the integer [0] for a content without words; as a
    number, and in every product it enters, that is the float [0.0]. *)
Definition _calculate_content_relevance_score (content query : string) : float :=
  let content_lower := lower content in
  let query_lower := lower query in
  let keywords := keywords_of query_lower in
  let keyword_count := count_keywords content_lower keywords in
  let content_word_count := List.length (findall word_pattern content_lower) in
  if (content_word_count =? 0)%nat then f0_0
  else
    let keyword_density :=
      fmul (int_div (Z.of_nat keyword_count) (Z.of_nat content_word_count)) (of_Z 100) in
    fmin f1_0 (fdiv keyword_density (of_Z 5)).

(** [how (to|do|can|should)] *)
Definition how_to_pattern : regex :=
  Cat (Str "how ")
      (Group 1 (Alt (Str "to") (Alt (Str "do") (Alt (Str "can") (Str "should"))))).

Definition _calculate_metadata_relevance_score (metadata : Metadata) (query : string)
  : float :=
  let query_lower := lower query in
  let is_how_to := matches how_to_pattern query_lower in
  let doc_type := get (doc_type metadata) "unknown" in
  let type_match_score :=
    if is_how_to && String.eqb doc_type "how-to" then f1_0
    else if negb is_how_to && String.eqb doc_type "reference" then f0_8
    else if String.eqb doc_type "overview" then f0_6
    else f0_0 in
  let title := get (title metadata) "" in
  let title_lower := lower title in
  let keywords := keywords_of query_lower in
  let title_match_count := count_keywords title_lower keywords in
  let title_match_score :=
    fmin f1_0 (int_div (Z.of_nat title_match_count)
                       (Z.max 1 (Z.of_nat (List.length keywords)))) in
  let heading_hierarchy := get (heading_hierarchy metadata) [] in
  let heading_match_count :=
    fold_left (fun acc heading => (acc + count_keywords (lower heading) keywords)%nat)
              heading_hierarchy 0%nat in
  let heading_match_score :=
    fmin f1_0 (int_div (Z.of_nat heading_match_count)
                       (Z.max 1 (Z.of_nat (List.length keywords) * 2))) in
  fadd (fadd (fmul f0_4 type_match_score) (fmul f0_3 title_match_score))
       (fmul f0_3 heading_match_score).

Definition distance_score (distance : option float) : float :=
  match distance with
  | None => f1_0
  | Some d => fsub f1_0 (fmin f1_0 d)
  end.

Definition _calculate_final_score (distance : option float)
    (content_score metadata_score : float) : float :=
  fadd (fadd (fmul f0_5 (distance_score distance)) (fmul f0_3 content_score))
       (fmul f0_2 metadata_score).

(** The body of the scoring loop: [{**result, "content_score": ...}]. *)
Definition score_result (query : string) (result : Result) : Result :=
  let content := get (content result) "" in
  let metadata := get (metadata result) (Build_Metadata None None None None None) in
  let cs := _calculate_content_relevance_score content query in
  let ms := _calculate_metadata_relevance_score metadata query in
  let fs := _calculate_final_score (distance result) cs ms in
  Build_Result (Data.content result) (Data.metadata result) (id result)
               (distance result) (Some cs) (Some ms) (Some fs).

(** The sort key, [x.get("final_score", 0)]. *)
Definition sort_key (result : Result) : float := get (final_score result) f0_0.

(** [sorted(..., key=..., reverse=True)]: descending, and stable.  On keys
    that [<] orders totally there is one such list; it is computed here by
    insertion. *)
Fixpoint insert_desc (x : Result) (sorted : list Result) : list Result :=
  match sorted with
  | [] => [x]
  | y :: sorted' =>
      if flt (sort_key x) (sort_key y) then y :: insert_desc x sorted'
      else x :: sorted
  end.

Definition sorted_desc (xs : list Result) : list Result :=
  fold_right insert_desc [] xs.

Definition rank_results (results : list Result) (query : string) : list Result :=
  match results with
  | [] => []
  | _ => sorted_desc (map (score_result query) results)
  end.

Section Hash.

(** Python's [hash] on strings. *)
Variable hash : string -> Z.

(** The deduplication loop: [content_hashes] is the set of hashes seen. *)
Fixpoint unique_loop (filtered_results : list Result) (content_hashes : list Z)
  : list Result :=
  match filtered_results with
  | [] => []
  | result :: more =>
      let content := get (content result) "" in
      let content_hash := hash (take 100 content) in
      if existsb (Z.eqb content_hash) content_hashes
      then unique_loop more content_hashes
      else result :: unique_loop more (content_hash :: content_hashes)
  end.

(** [result.get("final_score", 0) >= threshold] *)
Definition above_threshold (result : Result) : bool :=
  fle f0_3 (get (final_score result) f0_0).

Definition filter_results (results : list Result) : list Result :=
  match results with
  | [] => []
  | _ =>
      let filtered_results := filter above_threshold results in
      unique_loop filtered_results []
  end.

(** The loop of [process_comparison_results] over [items()]. *)
Fixpoint process_loop (items : list (string * list Result)) (ranking_query : string)
    (processed_results : dict (list Result)) : dict (list Result) :=
  match items with
  | [] => processed_results
  | (cdp, results) :: more =>
      let ranked_results := rank_results results ranking_query in
      let filtered_results := filter_results ranked_results in
      process_loop more ranking_query (dict_set cdp filtered_results processed_results)
  end.

Definition process_comparison_results (comparison_results : dict (list Result))
    (query : string) (feature : option string) : dict (list Result) :=
  let ranking_query := if Retriever.truthy feature then get feature "" else query in
  process_loop comparison_results ranking_query [].

End Hash.

End Ranker.

(* ================================================================== *)
(** * src/chatbot/response_generator.py *)
(* ================================================================== *)

Module ResponseGenerator.
Import PyStr Re Data.

(** [\d+\.\s+(.*?)(?=\d+\.\s+|$)] *)
Definition numbered_pattern : regex :=
  Cat (Plus Digit) (Cat (Chr ".") (Cat (Plus Space)
    (Cat (Group 1 (LazyStar Dot))
         (Ahead (Alt (Cat (Plus Digit) (Cat (Chr ".") (Plus Space))) Eos))))).

(** [[\*\-]] *)
Definition is_bullet (c : ascii) : bool := Ascii.eqb c "*" || Ascii.eqb c "-".

(** [[\*\-]\s+(.*?)(?=[\*\-]\s+|$)] *)
Definition bullet_pattern : regex :=
  Cat (Cls is_bullet) (Cat (Plus Space)
    (Cat (Group 1 (LazyStar Dot))
         (Ahead (Alt (Cat (Cls is_bullet) (Plus Space)) Eos)))).

(** [[.!?]] *)
Definition is_terminator (c : ascii) : bool :=
  Ascii.eqb c "." || Ascii.eqb c "!" || Ascii.eqb c "?".

(** [(?<=[.!?])\s+] *)
Definition sentence_break : regex := Cat (Behind is_terminator) (Plus Space).

Definition _extract_steps (content : string) : list string :=
  let numbered_steps := findall_group1 numbered_pattern content in
  if Processors.nonempty numbered_steps then map strip numbered_steps
  else
    let bullet_steps := findall_group1 bullet_pattern content in
    if Processors.nonempty bullet_steps then map strip bullet_steps
    else
      let sentences := split sentence_break content in
      filter (fun s => (20 <? String.length s)%nat) (map strip sentences).

Definition no_metadata : Metadata := Build_Metadata None None None None None.

Definition _format_source_reference (metadata : Metadata) : string :=
  let platform := capitalize (get (platform metadata) "") in
  let title := get (title metadata) "Documentation" in
  let url := get (url metadata) "" in
  if (0 <? String.length url)%nat
  then "Source: " ++ platform ++ " - [" ++ title ++ "](" ++ url ++ ")"
  else "Source: " ++ platform ++ " - " ++ title.

(** What the generators return: [{"type": ..., "content": ...}]. *)
Record Response : Type := Build_Response {
  response_type : string;
  response_content : string
}.

Definition text_response (content : string) : Response :=
  Build_Response "text" content.

(** The response data of a regular query. *)
Record QueryResponse : Type := Build_QueryResponse {
  qr_type : option string;
  qr_message : option string;
  qr_results : option (list Result);
  qr_analysis : option Retriever.QueryAnalysis
}.

Definition type_is (t : option string) (name : string) : bool :=
  match t with
  | Some s => String.eqb s name
  | None => false
  end.

(** [[f"{i+1}. {step}" for i, step in enumerate(steps)]] *)
Definition numbered_lines (steps : list string) : list string :=
  map (fun istep : nat * string =>
         let (i, step) := istep in str_of_nat (i + 1) ++ ". " ++ step)
      (Processors.enumerate_from 0 steps).

(** [s[:n] + "..."] when [len(s) > n]. *)
Definition truncate (n : nat) (s : string) : string :=
  if (n <? String.length s)%nat then take n s ++ "..." else s.

(** The loop over [enumerate(results[1:3])]. *)
Definition additional_entry (additional_info : string) (ir : nat * Result) : string :=
  let (i, result) := ir in
  let result_content := truncate 200 (get (content result) "") in
  let result_metadata := get (metadata result) no_metadata in
  additional_info
    ++ "**Additional Information " ++ str_of_nat (i + 1) ++ "**:" ++ nl
    ++ result_content ++ nl ++ nl
    ++ _format_source_reference result_metadata ++ nl ++ nl.

Definition generate_regular_response (query_response : QueryResponse) : Response :=
  if type_is (qr_type query_response) "error" then
    text_response (get (qr_message query_response)
                       "I'm sorry, I couldn't process your question.")
  else if type_is (qr_type query_response) "irrelevant" then
    text_response (get (qr_message query_response)
                       "I'm sorry, but your question doesn't seem to be related to the CDP platforms I support.")
  else if type_is (qr_type query_response) "no_results" then
    text_response (get (qr_message query_response)
                       "I couldn't find information related to your question.")
  else
    let results := get (qr_results query_response) [] in
    let analysis := get (qr_analysis query_response)
                        (Retriever.Build_QueryAnalysis None None None) in
    match results with
    | [] =>
        text_response "I couldn't find specific information to answer your question. Could you try rephrasing or asking a different question?"
    | top_result :: others =>
        let cdp := Retriever.cdp analysis in
        let cdp_name := if Retriever.truthy cdp then capitalize (get cdp "") else "the CDP" in
        let content := get (content top_result) "" in
        let metadata := get (metadata top_result) no_metadata in
        let query_type := get (Retriever.query_type analysis) "general" in
        let response_text :=
          if String.eqb query_type "how-to" then
            let steps := _extract_steps content in
            if (2 <=? List.length steps)%nat then
              let steps_text := join nl (numbered_lines steps) in
              "Here's how to do that in " ++ cdp_name ++ ":" ++ nl ++ nl ++ steps_text
            else
              "Here's information on how to do that in " ++ cdp_name ++ ":" ++ nl ++ nl ++ content
          else
            "Here's information about that from " ++ cdp_name ++ ":" ++ nl ++ nl ++ content in
        let source_reference := _format_source_reference metadata in
        let response_text := response_text ++ nl ++ nl ++ source_reference in
        let response_text :=
          if (1 <? List.length results)%nat then
            let additional_info :=
              fold_left additional_entry
                (Processors.enumerate_from 0 (firstn 2 others))
                ("I found some additional information that might be helpful:" ++ nl ++ nl) in
            response_text ++ nl ++ nl ++ additional_info
          else response_text in
        text_response response_text
    end.

(** The response data of a comparison query. *)
Record ComparisonResponse : Type := Build_ComparisonResponse {
  cr_type : option string;
  cr_message : option string;
  cr_results : option (dict (list Result));
  cr_analysis : option Retriever.ComparisonAnalysis
}.

(** [f"{feature}"] for [feature = analysis.get("feature", "this feature")]:
    the key's value when the analysis has the key, [None] printed as
    such. *)
Definition feature_text (analysis : option Retriever.ComparisonAnalysis) : string :=
  match analysis with
  | None => "this feature"
  | Some a => get (Retriever.feature a) "None"
  end.

(** The body of the loop over [results.items()]. *)
Definition comparison_entry (response_text : string) (item : string * list Result)
  : string :=
  let (cdp, cdp_results) := item in
  match cdp_results with
  | [] => response_text
  | top_result :: _ =>
      let content := truncate 300 (get (content top_result) "") in
      let metadata := get (metadata top_result) no_metadata in
      response_text
        ++ "**" ++ capitalize cdp ++ "**:" ++ nl ++ content ++ nl ++ nl
        ++ _format_source_reference metadata ++ nl ++ nl
  end.

(** [len([cdp for cdp, cdp_results in results.items() if cdp_results])] *)
Definition platforms_with_results (results : dict (list Result)) : nat :=
  List.length (filter (fun item : string * list Result => Processors.nonempty (snd item))
                      results).

Definition generate_comparison_response (query_response : ComparisonResponse)
  : Response :=
  if type_is (cr_type query_response) "no_results" then
    text_response (get (cr_message query_response)
                       "I couldn't find enough information to compare the CDP platforms based on your question.")
  else
    let results := get (cr_results query_response) [] in
    if negb (Processors.nonempty results)
       || negb (existsb (fun item : string * list Result => Processors.nonempty (snd item))
                        results)
    then
      text_response "I couldn't find specific information to compare the CDP platforms based on your question. Could you try asking a more specific comparison question?"
    else
      let feature := feature_text (cr_analysis query_response) in
      let response_text :=
        "Here's a comparison of how different CDPs handle " ++ feature ++ ":" ++ nl ++ nl in
      let response_text := fold_left comparison_entry results response_text in
      let response_text := response_text ++ nl ++ "**Summary**:" ++ nl in
      let response_text :=
        response_text ++ "Each CDP platform has its own approach to " ++ feature ++ ". " in
      let response_text :=
        if (2 <=? platforms_with_results results)%nat
        then response_text ++ "Consider your specific requirements when choosing between them."
        else response_text ++ "I could only find detailed information for some of the platforms. Consider checking the official documentation for more details." in
      text_response response_text.

End ResponseGenerator.

(* ================================================================== *)
(** * Vocabulary of the statements, and sample inputs *)
(* ================================================================== *)

Module Vocabulary.
Import PyStr PyFloat Re Data Config.

Definition sample_metadata : Metadata :=
  Build_Metadata (Some "segment") (Some "Sources guide") (Some "https://segment.com/docs")
                 (Some ["Sources"; "Sources > Add a source"]) (Some "how-to").

Definition sample_result : Result :=
  Build_Result (Some "Add a source in Segment. Sources collect data.") (Some sample_metadata)
               (Some "segment_0") (Some f0_0) None None None.

(** The deduplication key of a result: the first 100 characters of its
    content. *)
Definition content_prefix (r : Result) : string := take 100 (get (content r) "").

(** A list of scored results in descending order of [final_score]: each
    result's score is [>=] the score of the next one. *)
Definition sorted_by_final_score (results : list Result) : Prop :=
  Sorted (fun a b => fle (Ranker.sort_key b) (Ranker.sort_key a) = true) results.

(** A stand-in for [hash] in the examples. *)
Definition length_hash (s : string) : Z := Z.of_nat (String.length s).

Definition scored (c : string) (score : float) : Result :=
  Build_Result (Some c) None None None None None (Some score).

(** The relevance vocabulary: the four platform names, "cdp", "customer
    data platform", and the domain terms. *)
Definition relevance_vocabulary : list string :=
  [ "segment"; "mparticle"; "lytics"; "zeotap"; "cdp"; "customer data platform";
    "data"; "analytics"; "integration"; "tracking"; "source"; "destination";
    "audience"; "profile"; "event"; "user"; "identity"; "campaign" ].

(** The filter [retrieve] passes to the index: the platform the query
    names, if any. *)
Definition platform_filter (query : string) : option (dict string) :=
  match Retriever._extract_cdp_from_query query with
  | Some cdp => Some [("platform", cdp)]
  | None => None
  end.

(** The platforms a comparison covers: those the query names, or all
    four. *)
Definition compared_platforms (query : string) : list string :=
  match Retriever._extract_cdps_for_comparison query with
  | [] => ["segment"; "mparticle"; "lytics"; "zeotap"]
  | mentioned => mentioned
  end.

(** A result at the threshold distance, and an index that returns it. *)
Definition boundary_result : Result :=
  Build_Result (Some "Segment collects events.") (Some sample_metadata)
               (Some "segment_0") (Some f0_7) None None None.

Definition boundary_index (q : string) (n : Z) (f : option (dict string)) : list Result :=
  [boundary_result].

(** An index with one near result, one far result and one without
    distance. *)
Definition sample_index (q : string) (n : Z) (f : option (dict string)) : list Result :=
  [ sample_result;
    Build_Result (Some "Far away.") None (Some "x_1") (Some f0_8) None None None;
    Build_Result (Some "No distance.") None (Some "x_2") None None None None ].

Definition scored_sample : list Result :=
  [ scored "Segment sources collect data." f0_8;
    scored "Segment sources collect data." f0_5;
    scored "Destinations receive data." f0_4;
    scored "Unrelated text." f0_2 ].

(** The literal comparison patterns. *)
Definition comparison_words : list string :=
  [ "compare"; "difference between"; "vs"; "versus"; "which is better"; "pros and cons" ].

(** ** The sentence structure of a chunk sequence *)

(** A chunk seen as sentences: the block carried over from the previous
    chunk, then the sentences that are new in this chunk. *)
Definition block : Type := (list string * list string)%type.

Definition block_sentences (b : block) : list string := (fst b ++ snd b)%list.

(** The chunk's content, as [split_text_into_chunks] builds it. *)
Definition chunk_text (b : block) : string := join " " (block_sentences b).

(** The characters of a list of sentences, as the splitter counts them:
    the sum of the sentences' lengths. *)
Definition total_length (sentences : list string) : Z :=
  fold_right (fun s acc => (len s + acc)%Z) 0%Z sentences.

(** A sequence of chunks that follows a chunk with the sentences
    [previous]: each chunk starts with a block that ends the chunk before
    it, whose sentences' lengths sum to at most [chunk_overlap] (to at
    most 0 when [chunk_overlap] is negative), and then has at least one
    new sentence. *)
Fixpoint chained (chunk_overlap : Z) (previous : list string) (bs : list block) : Prop :=
  match bs with
  | [] => True
  | b :: bs' =>
      (exists before, previous = before ++ fst b)%list
      /\ (total_length (fst b) <= Z.max 0 chunk_overlap)%Z
      /\ snd b <> []
      /\ chained chunk_overlap (block_sentences b) bs'
  end.

(** The sentences of the last chunk of a sequence that follows
    [previous]. *)
Fixpoint last_from (previous : list string) (bs : list block) : list string :=
  match bs with
  | [] => previous
  | b :: bs' => last_from (block_sentences b) bs'
  end.

(** What the loop of the splitter maintains, after the sentences
    [processed]: the closed chunks and the running chunk, as blocks. *)
Record split_inv (chunk_overlap : Z) (processed : list string)
    (st : Processors.split_state) (closed : list block) (ov fr : list string) : Prop :=
  Build_split_inv {
    inv_chunks : Processors.chunks st = map chunk_text closed;
    inv_current : Processors.current_chunk st = (ov ++ fr)%list;
    inv_size : Processors.current_size st = total_length (ov ++ fr);
    inv_chain : chained chunk_overlap [] closed;
    inv_suffix : exists before, last_from [] closed = (before ++ ov)%list;
    inv_overlap : (total_length ov <= Z.max 0 chunk_overlap)%Z;
    inv_fresh : (List.concat (map snd closed) ++ fr)%list = processed;
    inv_started : fr = [] -> ov = [] /\ closed = []
  }.

(** A tokenizer for the examples: it knows one text. *)
Definition sample_tokenize (text : string) : list string :=
  if String.eqb text "Open it. Save it." then ["Open it."; "Save it."] else [text].

Definition sample_document : Processors.Document :=
  Processors.Build_Document
    (Some "https://segment.com/docs/sources") (Some "Sources guide")
    (Some "Open it. Save it.")
    (Some [ Processors.Build_Heading (Some 1%Z) (Some "Sources");
            Processors.Build_Heading (Some 2%Z) (Some "Add a source") ])
    (Some "segment").

(** The same document with another content. *)
Definition with_content (content : option string) (data : Processors.Document)
  : Processors.Document :=
  Processors.Build_Document (Processors.doc_url data) (Processors.doc_title data)
    content (Processors.doc_headings data) (Processors.doc_platform data).

(** ** Response assembly *)

(** Three numbered steps, one on each line. *)
Definition steps_on_lines : string :=
  "1. Open the app" ++ nl ++ "2. Click settings" ++ nl ++ "3. Save".

(** The same steps on one line. *)
Definition steps_on_one_line : string := "1. Open the app 2. Click settings 3. Save".

(** The response data of a how-to query about Segment whose top result
    has the given content. *)
Definition how_to_response (content : string) : ResponseGenerator.QueryResponse :=
  ResponseGenerator.Build_QueryResponse
    (Some "answer") None
    (Some [Build_Result (Some content) (Some sample_metadata) (Some "segment_0")
                        (Some f0_2) (Some f0_5) (Some f0_5) (Some f0_6)])
    (Some (Retriever.Build_QueryAnalysis (Some "segment") (Some "how-to") (Some true))).

(** The texts of a list, one after the other. *)
Definition concat_text (texts : list string) : string := fold_right append "" texts.

(** The section of one platform in a comparison: nothing for a platform
    without results; else the platform's name, the top result's content
    (its first 300 characters and an ellipsis when it is longer) and the
    source line. *)
Definition platform_section (item : string * list Result) : string :=
  match snd item with
  | [] => ""
  | top_result :: _ =>
      let content := get (content top_result) "" in
      "**" ++ capitalize (fst item) ++ "**:" ++ nl
        ++ (if (300 <? String.length content)%nat then take 300 content ++ "..." else content)
        ++ nl ++ nl
        ++ ResponseGenerator._format_source_reference
             (get (metadata top_result) ResponseGenerator.no_metadata)
        ++ nl ++ nl
  end.

Definition has_results (item : string * list Result) : bool :=
  Processors.nonempty (snd item).

(** Comparison results with one platform that has a result and one that
    has none. *)
Definition one_empty_platform : dict (list Result) :=
  [ ("segment", [sample_result]); ("lytics", []) ].

Definition one_empty_response : ResponseGenerator.ComparisonResponse :=
  ResponseGenerator.Build_ComparisonResponse
    (Some "comparison") None (Some one_empty_platform)
    (Some (Retriever.Build_ComparisonAnalysis ["segment"; "lytics"]
             (Some "audiences") "comparison")).

(** The hash of a result's deduplication key, and the membership test of
    the set of hashes. *)
Definition prefix_hash (hash : string -> Z) (r : Result) : Z := hash (content_prefix r).

Definition seen_in (h : Z) (seen : list Z) : bool := existsb (Z.eqb h) seen.

(** What one platform contributes to a comparison, and the call that
    fetches it. *)
Definition platform_entry
    (vector_store_query : string -> Z -> option (dict string) -> list Result)
    (q : string) (n : Z) (cdp : string) : string * list Result :=
  (cdp, filter Retriever.within_threshold
               (vector_store_query q n (Some [("platform", cdp)]))).

Definition platform_call (q : string) (n : Z) (cdp : string) : Retriever.IndexCall :=
  Retriever.Build_IndexCall q n (Some [("platform", cdp)]).

End Vocabulary.

From Stdlib Require Import Sorting.Permutation.

(* ================================================================== *)
(** * The splitter, sentence by sentence *)
(* ================================================================== *)

Module SplitterBlocks.
Import PyStr Data Processors Vocabulary.
Open Scope list_scope.
Open Scope Z_scope.

(** The loop of [split_text_into_chunks] with every chunk kept as its
    sentences: the closed chunks, and the running chunk as the block it
    started with and the sentences added since. *)
Definition block_step (chunk_size chunk_overlap : Z)
    (st : list block * block) (sentence : string) : list block * block :=
  let '(closed, (ov, fr)) := st in
  if (total_length (ov ++ fr) + len sentence >? chunk_size) && nonempty (ov ++ fr)
  then (closed ++ [(ov, fr)],
        (fst (overlap_loop chunk_overlap (rev (ov ++ fr)) [] 0), [sentence]))
  else (closed, (ov, fr ++ [sentence])).

Definition split_blocks (sentences : list string) (chunk_size chunk_overlap : Z)
  : list block :=
  let '(closed, (ov, fr)) :=
    fold_left (block_step chunk_size chunk_overlap) sentences ([], ([], [])) in
  if nonempty (ov ++ fr) then closed ++ [(ov, fr)] else closed.

(** The state of the source's loop that a state of blocks stands for. *)
Definition state_of (st : list block * block) : split_state :=
  SplitState (map chunk_text (fst st))
             (block_sentences (snd st))
             (total_length (block_sentences (snd st))).

(** A chunk within the size the splitter counts, or one that took a
    single new sentence after the block it carried over. *)
Definition within_size (chunk_size chunk_overlap : Z) (b : block) : Prop :=
  total_length (block_sentences b) <= chunk_size
  \/ (exists s, snd b = [s]) /\ total_length (fst b) <= Z.max 0 chunk_overlap.

(** What the loop over the sentences maintains, after the sentences
    [processed]. *)
Definition blocks_inv (chunk_size chunk_overlap : Z) (processed : list string)
    (st : list block * block) : Prop :=
  let '(closed, (ov, fr)) := st in
  List.concat (map snd closed) ++ fr = processed
  /\ Forall (fun b : block => snd b <> []) closed
  /\ (fr = [] -> ov = [] /\ closed = [])
  /\ Forall (within_size chunk_size chunk_overlap) closed
  /\ (fr = [] \/ within_size chunk_size chunk_overlap (ov, fr))
  /\ total_length ov <= Z.max 0 chunk_overlap
  /\ ((forall s, In s processed -> chunk_overlap < len s) ->
      ov = [] /\ Forall (fun b : block => fst b = []) closed).

End SplitterBlocks.

(* ================================================================== *)
(** * The groups of a pattern *)
(* ================================================================== *)

Module ReGroups.
Import PyStr Re.
Open Scope list_scope.

(** The numbers of the groups a match of the pattern can record. *)
Fixpoint groups (r : regex) : list nat :=
  match r with
  | Cat r1 r2 => groups r1 ++ groups r2
  | Alt r1 r2 => groups r1 ++ groups r2
  | Star r1 => groups r1
  | LazyStar r1 => groups r1
  | Group n r1 => n :: groups r1
  | _ => []
  end.

(** The positions of a subject: before each character, and at the
    end. *)
Fixpoint positions (p : option ascii) (s : string) : list mstate :=
  MState p s [] ::
  match s with
  | EmptyString => []
  | String c s' => positions (Some c) s'
  end.

(** The groups a state has beyond those of an earlier state are groups
    of the pattern. *)
Definition extends (r : regex) (st st' : mstate) : Prop :=
  exists new, caps st' = new ++ caps st /\ forall g, In g (map fst new) -> In g (groups r).

(** The pattern is a sequence whose last item is group [n] around [.+]:
    the group takes the rest of the line. *)
Fixpoint ends_with_line_group (n : nat) (r : regex) : Prop :=
  match r with
  | Group m r1 => m = n /\ r1 = Plus Dot
  | Cat _ r2 => ends_with_line_group n r2
  | _ => False
  end.

End ReGroups.

(* ================================================================== *)
(** * Reading a decimal number *)
(* ================================================================== *)

Module Decimal.
Import PyStr.

(** The number a string of decimal digits writes, read after the digits
    of [v]. *)
Fixpoint parse_from (v : nat) (s : string) : nat :=
  match s with
  | EmptyString => v
  | String c s' => parse_from (10 * v + (code c - 48)) s'
  end.

Definition parse_nat (s : string) : nat := parse_from 0 s.

End Decimal.

(* ================================================================== *)
(** * src/chatbot/query_processor.py, the dispatch of
      src/chatbot/response_generator.py, and the chat route of
      src/api/routes.py *)
(* ================================================================== *)

Module QueryProcessor.
Import PyStr PyFloat Re Data Config Retriever Ranker ResponseGenerator.
Open Scope list_scope.

(** [re.sub(pattern, repl, s)] for a pattern whose matches are not empty
    and a replacement without group references. *)
Definition sub (r : regex) (repl s : string) : string :=
  let (ms, tl) := finditer r s in
  fold_right (fun sm acc => (fst sm ++ repl ++ acc)%string) tl ms.

(** [[^\w\s\?\.]] *)
Definition is_special (c : ascii) : bool :=
  negb (is_word c || is_space c || Ascii.eqb c "?" || Ascii.eqb c ".").

(** The character classes are those of Python on code points below
    128. *)
Definition _preprocess_query (query : string) : string :=
  let query := lower query in
  let query := strip (sub (Plus Space) " " query) in
  sub (Cls is_special) "" query.

(** The response data [process_query] returns, with its ["query"] key:
    the data of a regular query, or the data of a comparison. *)
Inductive response_data : Type :=
| RegularData (query : string) (data : QueryResponse)
| ComparisonData (query : string) (data : ComparisonResponse).

Definition routing_words : list string :=
  ["compare"; "vs"; "versus"; "difference between"].

Definition irrelevant_message : string :=
  "I'm sorry, but your question doesn't seem to be related to the CDP platforms I support. I can answer questions about Segment, mParticle, Lytics, and Zeotap.".

Definition no_results_message : string :=
  "I couldn't find information related to your question. Could you try rephrasing or asking a different question about one of the CDP platforms?".

Definition no_comparison_message : string :=
  "I couldn't find enough information to compare the CDP platforms based on your question. Could you try asking a more specific comparison question?".

Section Pipeline.

Variable vector_store_query : string -> Z -> option (dict string) -> list Result.
Variable hash : string -> Z.

Definition _process_regular_query (query : string) : Traced response_data :=
  ra <- retrieve vector_store_query query TOP_K_RESULTS ;;
  let (results, query_analysis) := ra in
  if negb (get (is_relevant query_analysis) false) then
    ret (RegularData query
           (Build_QueryResponse (Some "irrelevant") (Some irrelevant_message)
                                None (Some query_analysis)))
  else if negb (Processors.nonempty results) then
    ret (RegularData query
           (Build_QueryResponse (Some "no_results") (Some no_results_message)
                                None (Some query_analysis)))
  else
    let ranked_results := rank_results results query in
    let filtered_results := filter_results hash ranked_results in
    ret (RegularData query
           (Build_QueryResponse (Some "answer") None
                                (Some filtered_results) (Some query_analysis))).

Definition _process_comparison_query (query : string) : Traced (exc response_data) :=
  rc <- retrieve_for_comparison vector_store_query query 3 ;;
  match rc with
  | IndexError => ret IndexError
  | Ok (comparison_results, query_analysis) =>
      if negb (existsb (fun item : string * list Result => Processors.nonempty (snd item))
                       comparison_results)
      then
        ret (Ok (ComparisonData query
                   (Build_ComparisonResponse (Some "no_results")
                      (Some no_comparison_message) None (Some query_analysis))))
      else
        let processed_results :=
          process_comparison_results hash comparison_results query
                                     (feature query_analysis) in
        ret (Ok (ComparisonData query
                   (Build_ComparisonResponse (Some "comparison") None
                      (Some processed_results) (Some query_analysis))))
  end.

Definition process_query (query : string) : Traced (exc response_data) :=
  let processed_query := _preprocess_query query in
  if (String.length processed_query =? 0)%nat then
    ret (Ok (RegularData query
               (Build_QueryResponse (Some "error")
                  (Some "Please provide a valid question.") None
                  (Some (Build_QueryAnalysis None None (Some false))))))
  else if existsb (fun pattern => contains pattern processed_query) routing_words then
    _process_comparison_query processed_query
  else
    data <- _process_regular_query processed_query ;;
    ret (Ok data).

End Pipeline.

(** What can go wrong in the request. *)
Inductive failure : Type :=
| RaisedIndexError
| RaisedKeyError
| RaisedAttributeError.

(** [generate_response] dispatches on the type alone.  Data of a
    comparison whose type is not "comparison" goes to the generator of
    regular responses, which reads its type and message, finds no
    platform in its analysis, and fails with [KeyError] on [results[0]]
    when it has results; regular data of type "comparison" goes to the
    generator of comparisons, which fails with [AttributeError] on
    [results.items()] when it has results. *)
Definition generate_response (query_response : response_data) : Response + failure :=
  match query_response with
  | RegularData _ data =>
      if type_is (qr_type data) "comparison" then
        match get (qr_results data) [] with
        | [] => inl (generate_comparison_response
                       (Build_ComparisonResponse (qr_type data) (qr_message data) None None))
        | _ :: _ => inr RaisedAttributeError
        end
      else inl (generate_regular_response data)
  | ComparisonData _ data =>
      if type_is (cr_type data) "comparison" then inl (generate_comparison_response data)
      else if type_is (cr_type data) "error" || type_is (cr_type data) "irrelevant"
              || type_is (cr_type data) "no_results"
      then inl (generate_regular_response
                  (Build_QueryResponse (cr_type data) (cr_message data) None None))
      else
        match get (cr_results data) [] with
        | [] => inl (generate_regular_response
                       (Build_QueryResponse (cr_type data) (cr_message data) None None))
        | _ :: _ => inr RaisedKeyError
        end
  end.

(** The JSON body of a chat request.  [message] is [None] when the body
    has no such key; a message that is not a string is outside the
    model (the code raises on it and replies 500). *)
Record ChatRequest : Type := Build_ChatRequest {
  message : option string;
  conversation_id : option string
}.

(** The replies of the chat route. *)
Inductive chat_reply : Type :=
| Reply (status : Z) (response : Response) (conversation : option string) (message_id : Z)
| Refused (status : Z) (error : string).

Section Route.

Variable vector_store_query : string -> Z -> option (dict string) -> list Result.
Variable hash : string -> Z.

(** The body of the [try] block of [chat], and its [except] clause. *)
Definition chat (data : option ChatRequest) : Traced chat_reply :=
  match data with
  | None => ret (Refused 400 "Invalid request. 'message' field is required.")
  | Some request =>
      match message request with
      | None => ret (Refused 400 "Invalid request. 'message' field is required.")
      | Some user_message =>
          processed <- process_query vector_store_query hash user_message ;;
          match processed with
          | IndexError =>
              ret (Refused 500 "An error occurred while processing your message.")
          | Ok query_response =>
              match generate_response query_response with
              | inr _ =>
                  ret (Refused 500 "An error occurred while processing your message.")
              | inl response =>
                  ret (Reply 200 response (conversation_id request)
                             (hash (get (conversation_id request) "None" ++ "_"
                                      ++ user_message)%string))
              end
          end
      end
  end.

End Route.

(** Every character of the string passes the test. *)
Fixpoint all_chars (p : ascii -> bool) (s : string) : bool :=
  match s with
  | EmptyString => true
  | String c s' => p c && all_chars p s'
  end.

(** The same response data with other results. *)
Definition with_results (results : option (list Result)) (data : QueryResponse)
  : QueryResponse :=
  Build_QueryResponse (qr_type data) (qr_message data) results (qr_analysis data).

(** A platform's entry cut down to its first result. *)
Definition top_only (item : string * list Result) : string * list Result :=
  (fst item, firstn 1 (snd item)).

End QueryProcessor.

(* ================================================================== *)
(** * The preprocessing of a query, without its patterns *)
(* ================================================================== *)

Module Sanitize.
Import PyStr Re QueryProcessor.
Open Scope string_scope.

(** The text without the characters of a class. *)
Fixpoint remove_chars (p : ascii -> bool) (s : string) : string :=
  match s with
  | EmptyString => EmptyString
  | String c s' => if p c then remove_chars p s' else String c (remove_chars p s')
  end.

(** The text after its leading characters of a class. *)
Fixpoint drop_while (p : ascii -> bool) (s : string) : string :=
  match s with
  | EmptyString => EmptyString
  | String c s' => if p c then drop_while p s' else s
  end.

(** The text with every run of characters of a class replaced by [repl];
    [in_run] tells that the character before was of the class. *)
Fixpoint collapse_runs (p : ascii -> bool) (repl : string) (in_run : bool) (s : string)
  : string :=
  match s with
  | EmptyString => EmptyString
  | String c s' =>
      if p c then
        if in_run then collapse_runs p repl true s'
        else repl ++ collapse_runs p repl true s'
      else String c (collapse_runs p repl false s')
  end.

(** [re.sub] from a position on, with the scan's fuel. *)
Definition sub_from (fuel : nat) (r : regex) (repl : string) (p : option ascii) (s : string)
  : string :=
  let (ms, tl) := finditer_from fuel r p s in
  fold_right (fun sm acc => (fst sm ++ repl ++ acc)%string) tl ms.

(** Code points below 128. *)
Definition is_ascii (c : ascii) : bool := (code c <? 128)%nat.

(** A lower-case letter, a digit, the underscore, the space, [?] or [.]. *)
Definition is_plain (c : ascii) : bool :=
  is_lower c || is_digit c || Ascii.eqb c "_" || Ascii.eqb c " "
  || Ascii.eqb c "?" || Ascii.eqb c ".".

End Sanitize.

(* ================================================================== *)
(** * src/indexer/vectorstore.py: what is handed to the collection *)
(* ================================================================== *)

Module VectorStore.
Import PyStr Data Processors.
Open Scope string_scope.
Open Scope list_scope.

(** A document handed to [add_documents]; its keys are read with
    [.get]. *)
Record StoreDocument : Type := Build_StoreDocument {
  sd_chunk_id : option string;
  sd_content : option string;
  sd_metadata : option Metadata
}.

(** [{}] read as metadata. *)
Definition empty_metadata : Metadata := Build_Metadata None None None None None.

(** The three lists the first loop of [add_documents] fills. *)
Record Columns : Type := Build_Columns {
  ids : list string;
  texts : list string;
  metadatas : list Metadata
}.

Definition column_step (cols : Columns) (doc : StoreDocument) : Columns :=
  let doc_id := get (sd_chunk_id doc) ("doc_" ++ str_of_nat (List.length (ids cols)))%string in
  let content := get (sd_content doc) "" in
  let metadata := get (sd_metadata doc) empty_metadata in
  Build_Columns (ids cols ++ [doc_id]) (texts cols ++ [content])
                (metadatas cols ++ [metadata]).

(** [range(start, stop, step)] for a positive step. *)
Fixpoint range_from (fuel start stop step : nat) : list nat :=
  match fuel with
  | O => []
  | S fuel' =>
      if (start <? stop)%nat then start :: range_from fuel' (start + step) stop step
      else []
  end.

Definition range (start stop step : nat) : list nat :=
  range_from stop start stop step.

(** [l[i:j]] *)
Definition slice {A : Type} (i j : nat) (l : list A) : list A :=
  firstn (j - i) (skipn i l).

(** One call of [collection.add]. *)
Record AddCall : Type := Build_AddCall {
  batch_ids : list string;
  batch_texts : list string;
  batch_metadatas : list Metadata
}.

Definition batch_size : nat := 100.

(** The calls of [collection.add] that [add_documents] makes, in order.
    A call that raises is logged and the loop goes on, so the calls do
    not depend on what the collection answers. *)
Definition add_documents (documents : list StoreDocument) : list AddCall :=
  let cols := fold_left column_step documents (Build_Columns [] [] []) in
  map (fun i =>
         Build_AddCall (slice i (i + batch_size) (ids cols))
                       (slice i (i + batch_size) (texts cols))
                       (slice i (i + batch_size) (metadatas cols)))
      (range 0 (List.length (ids cols)) batch_size).

(** A prepared chunk as the dictionary it is. *)
Definition of_chunk (c : Chunk) : StoreDocument :=
  Build_StoreDocument (Some (chunk_id c)) (Some (chunk_content c))
                      (Some (chunk_metadata c)).

Section Indexing.

Variable sent_tokenize : string -> list string.

(** [process_and_index_documents] after the files are read: [loaded] are
    the documents of the JSON files, in the order the directories and
    their files are visited.  A file whose reading or preparation raises
    is logged and left out, so it is not among them. *)
Definition process_and_index_documents (loaded : list Document)
    (chunk_size chunk_overlap : Z) : list AddCall :=
  let all_document_chunks :=
    flat_map (fun data => prepare_document_chunks sent_tokenize data chunk_size chunk_overlap)
             loaded in
  add_documents (map of_chunk all_document_chunks).

End Indexing.

(** The id [add_documents] gives the document at position [i]. *)
Definition stored_id (idoc : nat * StoreDocument) : string :=
  get (sd_chunk_id (snd idoc)) ("doc_" ++ str_of_nat (fst idoc))%string.

End VectorStore.
(* ================================================================== *)
(** * Proof steps *)
(* ================================================================== *)

(** Case analysis on every comparison of integers and of positive numbers
    in the goal and the hypotheses. *)
Ltac cmp_cases :=
  repeat match goal with
  | H : context [Pos.compare_cont Eq ?a ?b] |- _ =>
      change (Pos.compare_cont Eq a b) with (Pos.compare a b) in H
  | |- context [Pos.compare_cont Eq ?a ?b] =>
      change (Pos.compare_cont Eq a b) with (Pos.compare a b)
  end;
  repeat match goal with
  | H : context [Z.compare ?a ?b] |- _ => destruct (Z.compare_spec a b)
  | |- context [Z.compare ?a ?b] => destruct (Z.compare_spec a b)
  | H : context [Pos.compare ?a ?b] |- _ => destruct (Pos.compare_spec a b)
  | |- context [Pos.compare ?a ?b] => destruct (Pos.compare_spec a b)
  end.


(* ================================================================== *)
(** * Facts about the order of floats *)
(* ================================================================== *)

Module FloatFacts.
Import PyFloat.

Lemma fle_trans (a b c : float) :
  fle a b = true -> fle b c = true -> fle a c = true.
Proof.
  unfold fle, SFleb, SFcompare.
  destruct a as [sa|sa| |sa ma ea], b as [sb|sb| |sb mb eb], c as [sc|sc| |sc mc ec];
    try destruct sa; try destruct sb; try destruct sc;
    try reflexivity; try discriminate;
    intros Hab Hbc; cmp_cases; simpl in *; subst;
      try reflexivity; try discriminate; try lia.
Qed.

Lemma flt_irrefl (a : float) : flt a a = false.
Proof.
  unfold flt, SFltb, SFcompare.
  destruct a as [s|s| |s m e]; try destruct s; try reflexivity;
    cmp_cases; try reflexivity; lia.
Qed.

(** A float that is above some float is not a NaN, so it is [<=] itself. *)
Lemma fle_refl_of (a x : float) : fle a x = true -> fle x x = true.
Proof.
  unfold fle, SFleb, SFcompare.
  destruct a as [sa|sa| |sa ma ea], x as [s|s| |s m e];
    try destruct s; try destruct sa;
    try reflexivity; try discriminate; intros _;
    cmp_cases; try reflexivity; lia.
Qed.

Lemma flt_fle (a b : float) : flt a b = true -> fle a b = true.
Proof.
  unfold flt, fle, SFltb, SFleb. destruct (SFcompare a b) as [[| |]|]; congruence.
Qed.

(** Two floats that are not NaN are comparable. *)
Lemma fle_total (a b : float) :
  fle a a = true -> fle b b = true -> flt a b = false -> fle b a = true.
Proof.
  unfold flt, fle, SFltb, SFleb, SFcompare.
  destruct a as [sa|sa| |sa ma ea], b as [sb|sb| |sb mb eb];
    try destruct sa; try destruct sb;
    try reflexivity; try discriminate;
    intros Ha Hb Hab; cmp_cases; simpl in *; subst;
      try reflexivity; try discriminate; try lia.
Qed.

End FloatFacts.

(* ================================================================== *)
(** * The ranker: final score *)
(* ================================================================== *)

Module RankerScore.
Import PyStr PyFloat Data Ranker FloatFacts Vocabulary.
Open Scope list_scope.

Lemma In_insert_desc (x r : Result) (l : list Result) :
  In r (insert_desc x l) <-> r = x \/ In r l.
Proof.
  induction l as [|y l IH]; simpl.
  - intuition.
  - destruct (flt (sort_key x) (sort_key y)); simpl; rewrite ?IH; intuition.
Qed.

Lemma In_sorted_desc (r : Result) (l : list Result) :
  In r (sorted_desc l) <-> In r l.
Proof.
  induction l as [|x l IH]; simpl.
  - reflexivity.
  - rewrite In_insert_desc, IH. intuition.
Qed.

(** The ranked list holds exactly the scored results. *)
Lemma In_rank_results (r : Result) (results : list Result) (query : string) :
  In r (rank_results results query) <-> exists r0, In r0 results /\ r = score_result query r0.
Proof.
  unfold rank_results. destruct results as [|a results].
  - simpl. split; [tauto | intros (r0 & [] & _)].
  - rewrite In_sorted_desc, in_map_iff. split; intros (r0 & H1 & H2); exists r0; auto.
Qed.

(** C2. Every result the ranker scores carries
    [final_score = 0.5 * distance_score + 0.3 * content_score + 0.2 * metadata_score],
    computed from the scores stored on the same result, where
    [distance_score] is [1.0] for a null distance and [1.0 - min(1.0, distance)]
    otherwise.  A result with distance [0.0] and both scores [1.0] gets
    [1.0]; a null distance and the distance [0.0] give the same distance
    term, so the result with the null distance never scores below. *)
Theorem final_score_weighted_sum :
  (forall (results : list Result) (query : string) (r : Result),
      In r (rank_results results query) ->
      exists cs ms : float,
        content_score r = Some cs /\ metadata_score r = Some ms /\
        final_score r =
          Some (fadd (fadd (fmul f0_5 (distance_score (distance r))) (fmul f0_3 cs))
                     (fmul f0_2 ms)))
  /\ (f0_5 = lit 5 10 /\ f0_3 = lit 3 10 /\ f0_2 = lit 2 10 /\ f1_0 = of_Z 1 /\ f0_0 = of_Z 0)
  /\ distance_score None = f1_0
  /\ (forall d : float,
        distance_score (Some d) = fsub f1_0 (if flt d f1_0 then d else f1_0))
  /\ _calculate_final_score (Some f0_0) f1_0 f1_0 = f1_0
  /\ (forall cs ms : float,
        distance_score (Some f0_0) = distance_score None /\
        flt (_calculate_final_score None cs ms)
            (_calculate_final_score (Some f0_0) cs ms) = false).
Proof.
  split; [|split; [|split; [|split; [|split]]]].
  - intros results query r Hin.
    apply In_rank_results in Hin. destruct Hin as (r0 & _ & ->).
    eexists. eexists. simpl. repeat split.
  - repeat split; vm_compute; reflexivity.
  - reflexivity.
  - intros d. reflexivity.
  - vm_compute. reflexivity.
  - intros cs ms.
    assert (E : distance_score (Some f0_0) = distance_score None) by (vm_compute; reflexivity).
    split; [exact E|].
    unfold _calculate_final_score. rewrite E. apply flt_irrefl.
Qed.

Lemma final_score_weighted_sum_witness :
  exists cs ms : float,
    content_score (score_result "how to add a source" sample_result) = Some cs /\
    metadata_score (score_result "how to add a source" sample_result) = Some ms /\
    final_score (score_result "how to add a source" sample_result) =
      Some (fadd (fadd (fmul f0_5 (distance_score (Some f0_0))) (fmul f0_3 cs))
                 (fmul f0_2 ms)).
Proof.
  apply (proj1 final_score_weighted_sum [sample_result] "how to add a source"
               (score_result "how to add a source" sample_result)).
  simpl. left. reflexivity.
Defined.

End RankerScore.

(* ================================================================== *)
(** * The ranker: threshold and deduplication *)
(* ================================================================== *)

Module RankerFilter.
Import PyStr PyFloat Data Ranker FloatFacts Vocabulary.
Open Scope list_scope.

Section WithHash.

Variable hash : string -> Z.

Lemma seen_in_iff (h : Z) (seen : list Z) : seen_in h seen = true <-> In h seen.
Proof.
  unfold seen_in. rewrite existsb_exists. split.
  - intros (x & Hx & E). apply Z.eqb_eq in E. now subst.
  - intros H. exists h. split; [assumption | apply Z.eqb_refl].
Qed.

Lemma unique_loop_cons (a : Result) (l : list Result) (seen : list Z) :
  unique_loop hash (a :: l) seen =
    if seen_in (prefix_hash hash a) seen then unique_loop hash l seen
    else a :: unique_loop hash l (prefix_hash hash a :: seen).
Proof. reflexivity. Qed.

Lemma filter_results_unfold (results : list Result) :
  filter_results hash results = unique_loop hash (filter above_threshold results) [].
Proof. destruct results; reflexivity. Qed.

(** Where a kept result stands in the list the loop walks: nothing before
    it, and nothing seen earlier, has its hash. *)
Lemma unique_loop_split (l : list Result) (seen : list Z) (r : Result) :
  In r (unique_loop hash l seen) ->
  exists l1 l2, l = l1 ++ r :: l2
    /\ (forall x, In x l1 -> prefix_hash hash x <> prefix_hash hash r)
    /\ ~ In (prefix_hash hash r) seen.
Proof.
  revert seen. induction l as [|a l IH]; intros seen Hin.
  - contradiction.
  - rewrite unique_loop_cons in Hin.
    destruct (seen_in (prefix_hash hash a) seen) eqn:Hs.
    + destruct (IH _ Hin) as (l1 & l2 & -> & H1 & H2).
      exists (a :: l1), l2. split; [reflexivity|]. split; [|assumption].
      intros x [<-|Hx]; [|auto].
      intros E. apply H2. rewrite <- E. now apply seen_in_iff.
    + destruct Hin as [<-|Hin].
      * exists [], l. split; [reflexivity|]. split; [intros x []|].
        intros Hc. apply seen_in_iff in Hc. congruence.
      * destruct (IH _ Hin) as (l1 & l2 & -> & H1 & H2).
        exists (a :: l1), l2. split; [reflexivity|]. split.
        -- intros x [<-|Hx]; [|auto]. intros E. apply H2. left. exact E.
        -- intros Hc. apply H2. right. exact Hc.
Qed.

Lemma unique_loop_NoDup (l : list Result) (seen : list Z) :
  NoDup (map (prefix_hash hash) (unique_loop hash l seen)).
Proof.
  revert seen. induction l as [|a l IH]; intros seen.
  - constructor.
  - rewrite unique_loop_cons.
    destruct (seen_in (prefix_hash hash a) seen); [apply IH|].
    rewrite map_cons. constructor; [|apply IH].
    rewrite in_map_iff. intros (x & E & Hx).
    apply unique_loop_split in Hx. destruct Hx as (_ & _ & _ & _ & H2).
    apply H2. left. symmetry. exact E.
Qed.

(** Every hash met by the loop is seen before or is the hash of a kept
    result. *)
Lemma unique_loop_covers (l : list Result) (seen : list Z) (x : Result) :
  In x l ->
  In (prefix_hash hash x) seen \/ exists r, In r (unique_loop hash l seen) /\ prefix_hash hash r = prefix_hash hash x.
Proof.
  revert seen. induction l as [|a l IH]; intros seen Hin.
  - contradiction.
  - rewrite unique_loop_cons.
    destruct (seen_in (prefix_hash hash a) seen) eqn:Hs.
    + destruct Hin as [<-|Hin].
      * left. now apply seen_in_iff.
      * apply IH. exact Hin.
    + destruct Hin as [<-|Hin].
      * right. exists a. split; [left; reflexivity | reflexivity].
      * destruct (IH (prefix_hash hash a :: seen) Hin) as [[E|Hs']|(r & Hr & E)].
        -- right. exists a. split; [left; reflexivity | exact E].
        -- left. exact Hs'.
        -- right. exists r. split; [right; exact Hr | exact E].
Qed.

End WithHash.

Section Order.

Variable A : Type.
Variable R : A -> A -> Prop.

Lemma StronglySorted_filter (f : A -> bool) (l : list A) :
  StronglySorted R l -> StronglySorted R (filter f l).
Proof.
  induction 1 as [|a l Hs IH Hall]; simpl.
  - constructor.
  - destruct (f a); [|exact IH].
    constructor; [exact IH|].
    rewrite Forall_forall in *. intros x Hx. apply filter_In in Hx. apply Hall, Hx.
Qed.

Lemma StronglySorted_after (l1 l2 : list A) (a : A) :
  StronglySorted R (l1 ++ a :: l2) -> forall x, In x l2 -> R a x.
Proof.
  induction l1 as [|b l1 IH]; simpl; intros Hs x Hx.
  - inversion Hs as [|? ? _ Hall]; subst. rewrite Forall_forall in Hall. auto.
  - inversion Hs; subst. eapply IH; eauto.
Qed.

Lemma StronglySorted_related (l : list A) (a b : A) :
  StronglySorted R l -> In a l -> In b l -> a = b \/ R a b \/ R b a.
Proof.
  induction 1 as [|c l Hs IH Hall]; intros Ha Hb.
  - contradiction.
  - rewrite Forall_forall in Hall.
    destruct Ha as [<-|Ha], Hb as [<-|Hb]; auto.
Qed.

End Order.

(** The ranker's sort puts scores that are not NaN in descending order,
    so its result is a list [filter_results] is specified on. *)
Lemma insert_desc_sorted (x : Result) (l : list Result) :
  fle (sort_key x) (sort_key x) = true ->
  (forall y, In y l -> fle (sort_key y) (sort_key y) = true) ->
  sorted_by_final_score l -> sorted_by_final_score (insert_desc x l).
Proof.
  unfold sorted_by_final_score. intros Hx Hl Hs.
  induction l as [|y l IH]; cbn [insert_desc].
  - repeat constructor.
  - destruct (flt (sort_key x) (sort_key y)) eqn:Hxy.
    + inversion Hs as [|? ? Hs' Hhd]; subst.
      assert (Hins : Sorted (fun a b => fle (sort_key b) (sort_key a) = true)
                            (insert_desc x l)).
      { apply IH; [intros z Hz; apply Hl; right; exact Hz | exact Hs']. }
      constructor; [exact Hins|].
      destruct l as [|z l]; cbn [insert_desc].
      * constructor. apply flt_fle. exact Hxy.
      * destruct (flt (sort_key x) (sort_key z)).
        -- inversion Hhd; subst. constructor. assumption.
        -- constructor. apply flt_fle. exact Hxy.
    + constructor; [exact Hs|]. constructor.
      apply fle_total; [exact Hx | apply Hl; left; reflexivity | exact Hxy].
Qed.

Lemma rank_results_sorted (results : list Result) (query : string) :
  (forall r, In r (rank_results results query) ->
     fle (sort_key r) (sort_key r) = true) ->
  sorted_by_final_score (rank_results results query).
Proof.
  unfold rank_results. destruct results as [|r0 results]; [intros _; constructor|].
  generalize (map (score_result query) (r0 :: results)). intros l.
  induction l as [|x l IH]; intros Hall.
  - constructor.
  - cbn [sorted_desc fold_right] in *. fold (sorted_desc l) in *.
    assert (Hin : forall y, In y (sorted_desc l) -> fle (sort_key y) (sort_key y) = true).
    { intros y Hy. apply Hall. apply RankerScore.In_insert_desc. right. exact Hy. }
    apply insert_desc_sorted.
    + apply Hall. apply RankerScore.In_insert_desc. left. reflexivity.
    + exact Hin.
    + apply IH. exact Hin.
Qed.

Lemma descending_strongly (results : list Result) :
  sorted_by_final_score results ->
  StronglySorted (fun a b => fle (sort_key b) (sort_key a) = true) results.
Proof.
  apply Sorted_StronglySorted.
  intros a b c Hab Hbc. eapply fle_trans; eassumption.
Qed.

(** C3. On a list sorted in descending order of [final_score],
    [filter_results] returns only results of the list whose [final_score]
    is at least [0.3]; no two returned results have the same first 100
    characters of content; a returned result scores at least as high as
    every result of the input with the same first 100 characters; and,
    when [hash] tells the inputs' prefixes apart, every input result that
    reaches the threshold has a returned result with its prefix. *)
Theorem filter_results_threshold_and_dedup
    (hash : string -> Z) (results : list Result) :
  sorted_by_final_score results ->
  (forall r, In r (filter_results hash results) ->
     In r results /\ fle f0_3 (get (final_score r) f0_0) = true)
  /\ NoDup (map content_prefix (filter_results hash results))
  /\ (forall r r', In r (filter_results hash results) -> In r' results ->
        content_prefix r' = content_prefix r ->
        fle (get (final_score r') f0_0) (get (final_score r) f0_0) = true)
  /\ ((forall a b, In a results -> In b results ->
         hash (content_prefix a) = hash (content_prefix b) ->
         content_prefix a = content_prefix b) ->
      forall r', In r' results -> fle f0_3 (get (final_score r') f0_0) = true ->
        exists r, In r (filter_results hash results)
                  /\ content_prefix r = content_prefix r').
Proof.
  intros Hsorted. apply descending_strongly in Hsorted.
  rewrite filter_results_unfold.
  assert (Hin : forall r, In r (unique_loop hash (filter above_threshold results) []) ->
                  In r results /\ above_threshold r = true).
  { intros r Hr. apply unique_loop_split in Hr.
    destruct Hr as (l1 & l2 & E & _ & _).
    apply filter_In. rewrite E. apply in_or_app. right. left. reflexivity. }
  split; [|split; [|split]].
  - intros r Hr. apply Hin in Hr. exact Hr.
  - pose proof (unique_loop_NoDup hash (filter above_threshold results) []) as Hnd.
    change (prefix_hash hash) with (fun r => hash (content_prefix r)) in Hnd.
    rewrite <- (map_map content_prefix hash) in Hnd.
    eapply NoDup_map_inv. exact Hnd.
  - intros r r' Hr Hr' Epre.
    destruct (Hin r Hr) as [Hrin Habove]. unfold above_threshold in Habove.
    apply unique_loop_split in Hr. destruct Hr as (l1 & l2 & E & Hbefore & _).
    destruct (above_threshold r') eqn:Habove'.
    + assert (Hf : In r' (l1 ++ r :: l2)).
      { rewrite <- E. apply filter_In. auto. }
      apply in_app_or in Hf. destruct Hf as [Hf|[<-|Hf]].
      * exfalso. apply (Hbefore r' Hf). unfold prefix_hash. now rewrite Epre.
      * eapply fle_refl_of. exact Habove.
      * apply (StronglySorted_filter _ _ above_threshold) in Hsorted.
        rewrite E in Hsorted.
        exact (StronglySorted_after _ _ _ _ _ Hsorted r' Hf).
    + destruct (StronglySorted_related _ _ _ r r' Hsorted Hrin Hr') as [<-|[H|H]].
      * eapply fle_refl_of. exact Habove.
      * exact H.
      * exfalso. unfold above_threshold in Habove'.
        pose proof (fle_trans _ _ _ Habove H) as T. unfold sort_key in T. congruence.
  - intros Hinj r' Hr' Habove'.
    assert (Hf : In r' (filter above_threshold results)) by (apply filter_In; auto).
    destruct (unique_loop_covers hash _ [] r' Hf) as [[]|(r & Hr & E)].
    exists r. split; [exact Hr|].
    apply Hinj; [apply Hin; exact Hr | exact Hr' | exact E].
Qed.

Lemma filter_results_threshold_and_dedup_witness :
  sorted_by_final_score scored_sample
  /\ NoDup (map content_prefix (filter_results length_hash scored_sample)).
Proof.
  assert (Hs : sorted_by_final_score scored_sample).
  { unfold sorted_by_final_score, scored_sample.
    repeat (constructor; try (vm_compute; reflexivity)). }
  split; [exact Hs|].
  exact (proj1 (proj2 (filter_results_threshold_and_dedup length_hash scored_sample Hs))).
Defined.

End RankerFilter.

(* ================================================================== *)
(** * The retrievers *)
(* ================================================================== *)

Module RetrieverSpec.
Import PyStr PyFloat Re Data Config Retriever Vocabulary.
Open Scope list_scope.

Lemma dict_set_fresh {V : Type} (k : string) (v : V) (d : dict V) :
  ~ In k (map fst d) -> dict_set k v d = d ++ [(k, v)].
Proof.
  induction d as [|[k' v'] d IH]; simpl; intros Hk.
  - reflexivity.
  - destruct (String.eqb_spec k' k) as [->|Hne].
    + exfalso. apply Hk. left. reflexivity.
    + rewrite IH; [reflexivity|]. intros H. apply Hk. right. exact H.
Qed.

Lemma existsb_false_iff {A : Type} (f : A -> bool) (l : list A) :
  existsb f l = false <-> forall x, In x l -> f x = false.
Proof.
  induction l as [|a l IH]; simpl.
  - split; [intros _ x [] | reflexivity].
  - rewrite orb_false_iff, IH. split.
    + intros [Ha Hl] x [<-|Hx]; auto.
    + intros H. split; [apply H; left; reflexivity | intros x Hx; apply H; right; exact Hx].
Qed.

Lemma relevant_terms_vocabulary (t : string) :
  In t relevant_terms <-> In t relevance_vocabulary.
Proof.
  unfold relevant_terms, relevance_vocabulary. simpl. intuition.
Qed.

Lemma cdp_names_vocabulary (t : string) : In t cdp_names -> In t relevance_vocabulary.
Proof.
  unfold cdp_names, relevance_vocabulary. simpl. intuition.
Qed.

Lemma is_relevant_iff (query : string) :
  _is_relevant_query query = true <->
  exists term, In term relevance_vocabulary /\ contains term (lower query) = true.
Proof.
  unfold _is_relevant_query. rewrite existsb_exists.
  split; intros (t & Ht & Hc); exists t; split; try exact Hc;
    apply relevant_terms_vocabulary; exact Ht.
Qed.

Lemma not_relevant_iff (query : string) :
  _is_relevant_query query = false <->
  forall term, In term relevance_vocabulary -> contains term (lower query) = false.
Proof.
  unfold _is_relevant_query. rewrite existsb_false_iff.
  split; intros H t Ht; apply H; apply relevant_terms_vocabulary; exact Ht.
Qed.

(** C4. A query whose lower-cased text contains no term of the relevance
    vocabulary gets the empty result list and an analysis marked not
    relevant, and [retrieve] makes no call to the index (the trace of
    calls is returned as it was); a query that contains at least one
    vocabulary term is marked relevant. *)
Theorem irrelevant_query_never_queries_index
    (vector_store_query : string -> Z -> option (dict string) -> list Result)
    (query : string) (top_k : Z) :
  ((forall term, In term relevance_vocabulary -> contains term (lower query) = false) ->
   forall tr : list IndexCall,
     retrieve vector_store_query query top_k tr =
       (([], Build_QueryAnalysis None (Some (_classify_query_type query)) (Some false)), tr))
  /\ ((exists term, In term relevance_vocabulary /\ contains term (lower query) = true) ->
      is_relevant (snd (value (retrieve vector_store_query query top_k))) = Some true).
Proof.
  split.
  - intros Hnone tr.
    assert (Hrel : _is_relevant_query query = false) by (apply not_relevant_iff; exact Hnone).
    assert (Hcdp : _extract_cdp_from_query query = None).
    { unfold _extract_cdp_from_query, first_such.
      destruct (find _ cdp_names) as [c|] eqn:Hf; [|reflexivity].
      apply find_some in Hf. destruct Hf as [Hin Hc].
      rewrite (Hnone c (cdp_names_vocabulary c Hin)) in Hc. discriminate. }
    unfold retrieve. rewrite Hrel, Hcdp. reflexivity.
  - intros Hsome. apply is_relevant_iff in Hsome.
    unfold retrieve, value. rewrite Hsome. reflexivity.
Qed.

Lemma irrelevant_query_never_queries_index_witness :
  retrieve sample_index "what's the weather today" 5 [] =
    (([], Build_QueryAnalysis None (Some "general") (Some false)), []).
Proof.
  apply (proj1 (irrelevant_query_never_queries_index sample_index
                  "what's the weather today" 5)).
  intros term Hin. unfold relevance_vocabulary in Hin. simpl in Hin.
  repeat (destruct Hin as [<-|Hin]; [vm_compute; reflexivity|]). contradiction.
Defined.

Lemma compared_platforms_NoDup (query : string) : NoDup (compared_platforms query).
Proof.
  assert (H4 : NoDup cdp_names).
  { unfold cdp_names. repeat constructor; simpl; intuition discriminate. }
  unfold compared_platforms, _extract_cdps_for_comparison.
  pose proof (NoDup_filter (fun cdp => contains cdp (lower query)) H4) as Hf.
  destruct (filter _ cdp_names); [exact H4 | exact Hf].
Qed.

Section Cutoff.

Variable vector_store_query : string -> Z -> option (dict string) -> list Result.

Lemma comparison_loop_entries (cdps : list string) (q : string) (n : Z)
    (acc : dict (list Result)) (tr : list IndexCall) :
  NoDup cdps -> (forall c, In c cdps -> ~ In c (map fst acc)) ->
  comparison_loop vector_store_query cdps q n acc tr =
    (acc ++ map (platform_entry vector_store_query q n) cdps,
     tr ++ map (platform_call q n) cdps).
Proof.
  revert acc tr. induction cdps as [|c cdps IH]; intros acc tr Hnd Hfresh.
  - simpl. unfold ret. now rewrite !app_nil_r.
  - inversion Hnd as [|? ? Hc Hnd']; subst.
    cbn [comparison_loop]. unfold bind, query_index.
    cbn [dict_set].
    rewrite dict_set_fresh by (apply Hfresh; left; reflexivity).
    rewrite IH.
    + cbn [map]. rewrite <- !app_assoc. reflexivity.
    + exact Hnd'.
    + intros c' Hc' Hin. rewrite map_app in Hin. apply in_app_or in Hin.
      destruct Hin as [Hin|[E|[]]].
      * apply (Hfresh c'); [right; exact Hc' | exact Hin].
      * simpl in E. subst c'. contradiction.
Qed.

End Cutoff.

(** C1, as the code has it.  For every relevant query [retrieve] keeps
    exactly the index results whose distance is null or strictly below
    [SIMILARITY_THRESHOLD] (0.7), in the index's order: a result at or
    above the threshold is dropped, a result without distance is kept.
    [retrieve_for_comparison] applies the same test to the results of
    each platform on its own: unless the feature extraction raises, the
    result maps every compared platform to the index results for that
    platform that pass the test. *)
Theorem retrieve_keeps_strictly_below_threshold
    (vector_store_query : string -> Z -> option (dict string) -> list Result)
    (query : string) (top_k : Z) :
  SIMILARITY_THRESHOLD = lit 7 10
  /\ (_is_relevant_query query = true ->
      fst (value (retrieve vector_store_query query top_k)) =
        filter (fun r => match distance r with
                         | None => true
                         | Some d => flt d SIMILARITY_THRESHOLD
                         end)
               (vector_store_query query top_k (platform_filter query)))
  /\ match _extract_feature_for_comparison query with
     | IndexError =>
         value (retrieve_for_comparison vector_store_query query top_k) = IndexError
     | Ok feature =>
         let comparison_query :=
           match feature with
           | Some (String c f) => String c f
           | _ => query
           end in
         value (retrieve_for_comparison vector_store_query query top_k) =
           Ok (map (fun cdp =>
                      (cdp,
                       filter (fun r => match distance r with
                                        | None => true
                                        | Some d => flt d SIMILARITY_THRESHOLD
                                        end)
                              (vector_store_query comparison_query top_k
                                                  (Some [("platform", cdp)]))))
                   (compared_platforms query),
               Build_ComparisonAnalysis (compared_platforms query) feature "comparison")
     end.
Proof.
  split; [vm_compute; reflexivity|]. split.
  - intros Hrel. unfold retrieve, value, platform_filter. rewrite Hrel.
    destruct (_extract_cdp_from_query query) as [c|] eqn:Hc.
    + assert (Hne : truthy (Some c) = true).
      { unfold _extract_cdp_from_query, first_such in Hc. apply find_some in Hc.
        destruct Hc as [Hin _]. unfold cdp_names in Hin. simpl in Hin.
        repeat (destruct Hin as [<-|Hin]; [reflexivity|]). contradiction. }
      cbn [negb]. rewrite Hne. reflexivity.
    + reflexivity.
  - unfold retrieve_for_comparison, value.
    destruct (_extract_feature_for_comparison query) as [feature|]; [|reflexivity].
    unfold bind.
    assert (Hc : (if Processors.nonempty (_extract_cdps_for_comparison query)
                  then _extract_cdps_for_comparison query
                  else ["segment"; "mparticle"; "lytics"; "zeotap"])
                 = compared_platforms query).
    { unfold compared_platforms. destruct (_extract_cdps_for_comparison query); reflexivity. }
    rewrite Hc.
    rewrite comparison_loop_entries.
    + cbn [app fst ret]. f_equal. f_equal.
      destruct feature as [[|c f]|]; reflexivity.
    + apply compared_platforms_NoDup.
    + intros c _ [].
Qed.

(** C1, as stated, fails at the threshold itself: a result whose distance
    is exactly [SIMILARITY_THRESHOLD] does not exceed the threshold, and
    [retrieve] drops it. *)
Lemma threshold_distance_is_dropped :
  _is_relevant_query "what is segment" = true
  /\ boundary_index "what is segment" 5 (platform_filter "what is segment") = [boundary_result]
  /\ distance boundary_result = Some SIMILARITY_THRESHOLD
  /\ flt SIMILARITY_THRESHOLD SIMILARITY_THRESHOLD = false
  /\ fst (value (retrieve boundary_index "what is segment" 5)) = [].
Proof. vm_compute. repeat split. Qed.

Lemma retrieve_keeps_strictly_below_threshold_witness :
  fst (value (retrieve sample_index "what is segment" 5)) =
    [ sample_result;
      Build_Result (Some "No distance.") None (Some "x_2") None None None None ].
Proof.
  rewrite (proj1 (proj2 (retrieve_keeps_strictly_below_threshold sample_index
                           "what is segment" 5)));
    vm_compute; reflexivity.
Defined.

End RetrieverSpec.

(* ================================================================== *)
(** * Literal patterns *)
(* ================================================================== *)

Module ReFacts.
Import PyStr Re.

(** Matching a literal at a position whose text starts with it succeeds
    with whatever the continuation answers at the position after it. *)
Lemma run_Str_prefix {R : Type} (w : string) :
  forall (st : mstate) (k : mstate -> option R),
    prefix w (rest st) = true ->
    exists st', run (Str w) st k = k st'.
Proof.
  induction w as [|c w IH]; intros st k Hp.
  - exists st. reflexivity.
  - destruct st as [p s cs]. cbn [rest] in Hp.
    destruct s as [|d s]; [discriminate|]. cbn [prefix] in Hp.
    destruct (Ascii.ascii_dec c d) as [<-|Hne]; [|discriminate].
    destruct w as [|c' w'].
    + eexists. cbn. rewrite Ascii.eqb_refl. reflexivity.
    + change (Str (String c (String c' w'))) with (Cat (Chr c) (Str (String c' w'))).
      cbn [run]. unfold step. cbn [rest caps]. rewrite Ascii.eqb_refl.
      apply IH. exact Hp.
Qed.

Lemma match_at_Str (w : string) (st : mstate) :
  prefix w (rest st) = true -> match_at (Str w) st <> None.
Proof.
  intros Hp. unfold match_at.
  destruct (run_Str_prefix w (MState (prev st) (rest st) []) (fun st' => Some st') Hp)
    as [st' ->].
  discriminate.
Qed.

Lemma search_from_Str (w : string) (s : string) :
  forall p, contains w s = true -> search_from (Str w) p s <> None.
Proof.
  induction s as [|c s IH]; intros p Hc.
  - cbn [contains] in Hc.
    assert (Hp : prefix w "" = true) by (destruct (prefix w ""); [reflexivity | discriminate]).
    cbn [search_from].
    destruct (match_at (Str w) (MState p "" [])) eqn:Hm; [discriminate|].
    exfalso. revert Hm. apply match_at_Str. exact Hp.
  - cbn [search_from].
    destruct (match_at (Str w) (MState p (String c s) [])) eqn:Hm; [discriminate|].
    cbn [contains] in Hc.
    destruct (prefix w (String c s)) eqn:Hp.
    + exfalso. revert Hm. apply match_at_Str. exact Hp.
    + specialize (IH (Some c) Hc).
      destruct (search_from (Str w) (Some c) s) as [[sk m]|]; [discriminate | congruence].
Qed.

(** [re.search] finds a literal wherever the subject contains it. *)
Lemma matches_Str (w s : string) : contains w s = true -> matches (Str w) s = true.
Proof.
  intros Hc. unfold matches, search.
  pose proof (search_from_Str w s None Hc) as H.
  destruct (search_from (Str w) None s); [reflexivity | congruence].
Qed.

End ReFacts.

(* ================================================================== *)
(** * Query type classification *)
(* ================================================================== *)

Module ClassifySpec.
Import PyStr PyFloat Re Data Config Retriever Vocabulary ReFacts.
Open Scope list_scope.

Lemma comparison_word_pattern (w : string) :
  In w comparison_words -> In (Str w) comparison_patterns.
Proof.
  unfold comparison_words, comparison_patterns. intros Hin. simpl in Hin.
  repeat (destruct Hin as [<-|Hin]; [simpl; tauto|]). contradiction.
Qed.

(** C9. The comparison patterns are checked first: a query that matches
    one of them is a comparison, whether or not it also matches a how-to
    pattern; a query that matches no comparison pattern and some how-to
    pattern is a how-to; a query that matches neither is general.  In
    particular a query containing one of the literal comparison words is
    a comparison.  "compare segment and mparticle" is a comparison of the
    platforms segment and mparticle, and "how do I set up a source in
    segment" is a how-to for the platform segment. *)
Theorem comparison_patterns_win_over_how_to :
  (forall query,
      any_pattern comparison_patterns (lower query) = true ->
      _classify_query_type query = "comparison")
  /\ (forall query,
        any_pattern comparison_patterns (lower query) = false ->
        any_pattern how_to_patterns (lower query) = true ->
        _classify_query_type query = "how-to")
  /\ (forall query,
        any_pattern comparison_patterns (lower query) = false ->
        any_pattern how_to_patterns (lower query) = false ->
        _classify_query_type query = "general")
  /\ (forall query w,
        In w comparison_words -> contains w (lower query) = true ->
        _classify_query_type query = "comparison")
  /\ (any_pattern comparison_patterns "how to compare segment vs lytics" = true
      /\ any_pattern how_to_patterns "how to compare segment vs lytics" = true
      /\ _classify_query_type "how to compare segment vs lytics" = "comparison")
  /\ (_classify_query_type "compare segment and mparticle" = "comparison"
      /\ _extract_cdps_for_comparison "compare segment and mparticle"
         = ["segment"; "mparticle"]
      /\ forall vector_store_query top_k,
           exists results,
             value (retrieve_for_comparison vector_store_query
                      "compare segment and mparticle" top_k)
             = Ok (results,
                   Build_ComparisonAnalysis ["segment"; "mparticle"] None "comparison")
             /\ map fst results = ["segment"; "mparticle"])
  /\ (_classify_query_type "how do I set up a source in segment" = "how-to"
      /\ _extract_cdp_from_query "how do I set up a source in segment" = Some "segment"
      /\ forall vector_store_query top_k,
           snd (value (retrieve vector_store_query
                         "how do I set up a source in segment" top_k))
           = Build_QueryAnalysis (Some "segment") (Some "how-to") (Some true)).
Proof.
  assert (Hfirst : forall query,
             any_pattern comparison_patterns (lower query) = true ->
             _classify_query_type query = "comparison").
  { intros query H. unfold _classify_query_type. rewrite H. reflexivity. }
  split; [exact Hfirst|].
  split; [intros query H1 H2; unfold _classify_query_type; rewrite H1, H2; reflexivity|].
  split; [intros query H1 H2; unfold _classify_query_type; rewrite H1, H2; reflexivity|].
  split.
  { intros query w Hw Hc. apply Hfirst. unfold any_pattern.
    apply existsb_exists. exists (Str w). split.
    - apply comparison_word_pattern. exact Hw.
    - apply matches_Str. exact Hc. }
  split; [vm_compute; repeat split|].
  split.
  - split; [vm_compute; reflexivity|]. split; [vm_compute; reflexivity|].
    intros vector_store_query top_k.
    exists (map (fun cdp =>
                   (cdp, filter within_threshold
                           (vector_store_query "compare segment and mparticle" top_k
                                               (Some [("platform", cdp)]))))
                ["segment"; "mparticle"]).
    split; [|reflexivity].
    unfold retrieve_for_comparison, value.
    replace (_extract_feature_for_comparison "compare segment and mparticle")
      with (@Ok (option string) None) by (vm_compute; reflexivity).
    replace (_extract_cdps_for_comparison "compare segment and mparticle")
      with ["segment"; "mparticle"] by (vm_compute; reflexivity).
    reflexivity.
  - split; [vm_compute; reflexivity|]. split; [vm_compute; reflexivity|].
    intros vector_store_query top_k.
    unfold retrieve, value.
    replace (_extract_cdp_from_query "how do I set up a source in segment")
      with (Some "segment") by (vm_compute; reflexivity).
    replace (_classify_query_type "how do I set up a source in segment")
      with "how-to" by (vm_compute; reflexivity).
    replace (_is_relevant_query "how do I set up a source in segment")
      with true by (vm_compute; reflexivity).
    reflexivity.
Qed.

Lemma comparison_patterns_win_over_how_to_witness :
  _classify_query_type "How do Segment and Lytics compare" = "comparison".
Proof.
  apply (proj1 comparison_patterns_win_over_how_to).
  vm_compute. reflexivity.
Defined.

End ClassifySpec.

(* ================================================================== *)
(** * The chunk splitter *)
(* ================================================================== *)

Module ChunkSpec.
Import PyStr Data Processors Vocabulary.
Open Scope list_scope.
Open Scope Z_scope.

Lemma total_length_app (a b : list string) :
  total_length (a ++ b) = total_length a + total_length b.
Proof.
  induction a as [|s a IH]; simpl.
  - reflexivity.
  - fold (total_length (a ++ b)). fold (total_length a). rewrite IH. lia.
Qed.

Lemma total_length_cons (s : string) (a : list string) :
  total_length (s :: a) = len s + total_length a.
Proof. reflexivity. Qed.

Lemma total_length_rev (a : list string) : total_length (rev a) = total_length a.
Proof.
  induction a as [|s a IH].
  - reflexivity.
  - cbn [rev]. rewrite total_length_app, IH, !total_length_cons. simpl. lia.
Qed.

Lemma total_length_nonneg (a : list string) : 0 <= total_length a.
Proof.
  induction a as [|s a IH].
  - reflexivity.
  - rewrite total_length_cons. unfold len. lia.
Qed.

Lemma length_append (a b : string) :
  String.length (a ++ b)%string = (String.length a + String.length b)%nat.
Proof.
  induction a as [|c a IH]; simpl; [reflexivity | now rewrite IH].
Qed.

(** The splitter counts the sentences' characters; the content of a
    chunk has one character more for every join. *)
Lemma len_join (sentences : list string) :
  sentences <> [] ->
  len (join " " sentences) = total_length sentences + Z.of_nat (List.length sentences) - 1.
Proof.
  induction sentences as [|s sentences IH]; intros Hne; [congruence|].
  destruct sentences as [|s' sentences].
  - cbn [join List.length]. rewrite total_length_cons. unfold total_length.
    cbn [fold_right]. lia.
  - change (join " " (s :: s' :: sentences))
      with (s ++ " " ++ join " " (s' :: sentences))%string.
    unfold len in *. rewrite !length_append, !Nat2Z.inj_add.
    rewrite IH by discriminate.
    rewrite (total_length_cons s). unfold len.
    change (List.length (s :: s' :: sentences)) with (S (List.length (s' :: sentences))).
    change (String.length " ") with 1%nat. lia.
Qed.

(** The inner loop takes sentences from the front of the reversed chunk
    while they fit. *)
Lemma overlap_loop_spec (chunk_overlap : Z) (rc acc : list string) (sz : Z) :
  exists taken rest,
    rc = taken ++ rest
    /\ overlap_loop chunk_overlap rc acc sz = (rev taken ++ acc, sz + total_length taken)
    /\ sz + total_length taken <= Z.max sz chunk_overlap.
Proof.
  revert acc sz. induction rc as [|s rc IH]; intros acc sz.
  - exists [], []. cbn [overlap_loop rev app]. unfold total_length. cbn [fold_right].
    split; [reflexivity|]. split; [f_equal; lia | lia].
  - cbn [overlap_loop]. destruct (sz + len s <=? chunk_overlap) eqn:Hfit.
    + apply Z.leb_le in Hfit.
      destruct (IH (s :: acc) (sz + len s)) as (taken & rest & -> & Hloop & Hle).
      exists (s :: taken), rest. split; [reflexivity|]. split.
      * rewrite Hloop. cbn [rev]. rewrite <- app_assoc, total_length_cons.
        cbn [app]. f_equal. lia.
      * rewrite total_length_cons. lia.
    + exists [], (s :: rc). cbn [rev app]. unfold total_length. cbn [fold_right].
      split; [reflexivity|]. split; [f_equal; lia | lia].
Qed.

(** The block carried over is a run of sentences that ends the chunk. *)
Lemma overlap_of_chunk (chunk_overlap : Z) (chunk : list string) :
  exists before kept,
    chunk = before ++ kept
    /\ overlap_loop chunk_overlap (rev chunk) [] 0 = (kept, total_length kept)
    /\ total_length kept <= Z.max 0 chunk_overlap.
Proof.
  destruct (overlap_loop_spec chunk_overlap (rev chunk) [] 0)
    as (taken & rest & Hrev & Hloop & Hle).
  exists (rev rest), (rev taken). split; [|split].
  - rewrite <- rev_app_distr, <- Hrev, rev_involutive. reflexivity.
  - rewrite Hloop, app_nil_r, total_length_rev. reflexivity.
  - rewrite total_length_rev. lia.
Qed.

Lemma chained_snoc (chunk_overlap : Z) (bs : list block) (b : block) :
  forall previous,
    chained chunk_overlap previous bs ->
    (exists before, last_from previous bs = before ++ fst b) ->
    total_length (fst b) <= Z.max 0 chunk_overlap ->
    snd b <> [] ->
    chained chunk_overlap previous (bs ++ [b]).
Proof.
  induction bs as [|a bs IH]; intros previous Hch Hsuf Hlen Hne.
  - simpl in *. auto.
  - destruct Hch as (H1 & H2 & H3 & H4). simpl. repeat split; auto.
Qed.

Lemma last_from_snoc (bs : list block) (b : block) :
  forall previous, last_from previous (bs ++ [b]) = block_sentences b.
Proof.
  induction bs as [|a bs IH]; intros previous; simpl; auto.
Qed.

Lemma nonempty_app_r {A : Type} (a b : list A) : b <> [] -> nonempty (a ++ b) = true.
Proof. destruct a, b; simpl; congruence. Qed.

Section Loop.

Variables chunk_size chunk_overlap : Z.

Lemma split_inv_init : split_inv chunk_overlap [] (SplitState [] [] 0) [] [] [].
Proof.
  constructor; simpl; auto; try lia.
  exists []. reflexivity.
Qed.

(** One sentence more: the invariant is kept. *)
Lemma split_inv_step (processed : list string) (st : split_state)
    (closed : list block) (ov fr : list string) (sentence : string) :
  split_inv chunk_overlap processed st closed ov fr ->
  exists closed' ov' fr',
    split_inv chunk_overlap (processed ++ [sentence])
              (split_step chunk_size chunk_overlap st sentence) closed' ov' fr'.
Proof.
  intros [Hchunks Hcur Hsize Hchain Hsuf Hov Hfresh Hstart].
  destruct st as [ch cur sz]. cbn [chunks current_chunk current_size] in *.
  subst ch cur sz.
  unfold split_step. cbn [chunks current_chunk current_size].
  assert (Hone : total_length [sentence] = len sentence).
  { unfold total_length. cbn [fold_right]. lia. }
  destruct ((total_length (ov ++ fr) + len sentence >? chunk_size) && nonempty (ov ++ fr))
    eqn:Hclose.
  - (* the running chunk is closed *)
    apply andb_prop in Hclose. destruct Hclose as [_ Hne].
    assert (Hfr : fr <> []).
    { intros ->. destruct (Hstart eq_refl) as [-> _]. discriminate. }
    destruct (overlap_of_chunk chunk_overlap (ov ++ fr))
      as (before & kept & Hsplit & Hloop & Hkept).
    rewrite Hloop. cbn [chunks current_chunk current_size].
    exists (closed ++ [(ov, fr)]), kept, [sentence].
    constructor; cbn [chunks current_chunk current_size].
    + rewrite map_app. reflexivity.
    + reflexivity.
    + rewrite total_length_app, Hone. reflexivity.
    + apply chained_snoc; auto.
    + rewrite last_from_snoc. exists before. exact Hsplit.
    + exact Hkept.
    + rewrite <- Hfresh, map_app, concat_app. simpl. rewrite app_nil_r. reflexivity.
    + intros H. discriminate.
  - (* the sentence joins the running chunk *)
    exists closed, ov, (fr ++ [sentence]).
    constructor; cbn [chunks current_chunk current_size].
    + reflexivity.
    + rewrite app_assoc. reflexivity.
    + rewrite app_assoc, (total_length_app (ov ++ fr)), Hone. reflexivity.
    + exact Hchain.
    + exact Hsuf.
    + exact Hov.
    + rewrite app_assoc, Hfresh. reflexivity.
    + intros H. destruct fr; discriminate.
Qed.

Lemma split_inv_loop (sentences : list string) :
  forall processed st closed ov fr,
    split_inv chunk_overlap processed st closed ov fr ->
    exists closed' ov' fr',
      split_inv chunk_overlap (processed ++ sentences)
                (fold_left (split_step chunk_size chunk_overlap) sentences st)
                closed' ov' fr'.
Proof.
  induction sentences as [|s sentences IH]; intros processed st closed ov fr Hinv.
  - exists closed, ov, fr. rewrite app_nil_r. exact Hinv.
  - destruct (split_inv_step _ _ _ _ _ s Hinv) as (c1 & o1 & f1 & H1).
    destruct (IH _ _ _ _ _ H1) as (c2 & o2 & f2 & H2).
    exists c2, o2, f2. cbn [fold_left]. rewrite <- app_assoc in H2. exact H2.
Qed.

(** In a chain, the block a chunk starts with ends the new sentences of
    the chunks before it. *)
Lemma chained_position (bs : list block) :
  forall (previous earlier : list string) (bs1 bs2 : list block) (b : block),
    chained chunk_overlap previous bs ->
    (exists x, earlier = x ++ previous) ->
    bs = bs1 ++ b :: bs2 ->
    exists before, earlier ++ List.concat (map snd bs1) = before ++ fst b.
Proof.
  induction bs as [|b0 bs IH]; intros previous earlier bs1 bs2 b Hch [x Hx] Hbs.
  - destruct bs1; discriminate.
  - destruct Hch as ([y Hy] & _ & _ & Hch).
    destruct bs1 as [|b1 bs1]; cbn [app] in Hbs; injection Hbs as <- Hbs.
    + cbn [map List.concat]. rewrite app_nil_r.
      exists (x ++ y). rewrite Hx, Hy, app_assoc. reflexivity.
    + cbn [map List.concat]. rewrite app_assoc.
      apply (IH (block_sentences b0) (earlier ++ snd b0) bs1 bs2 b Hch); [|exact Hbs].
      exists (x ++ y). unfold block_sentences.
      rewrite Hx, Hy, <- !app_assoc. reflexivity.
Qed.

End Loop.

(** X23. The chunks of a document are the texts of a sequence of blocks
    of sentences.  A chunk starts with a block of sentences that ends the
    chunk before it, copied as it is, whose sentences' lengths sum to at
    most [chunk_overlap] (the first chunk starts with no such block, and
    the sum is at most 0 when [chunk_overlap] is negative), and then has
    at least one new sentence.  The sum counts the sentences only, as the
    code does: the text copied has one character more for each join.
    The new sentences of the chunks, in order, are the sentences of the
    document: none is dropped and none is repeated outside the blocks
    carried over.  Each chunk joins consecutive sentences of the
    document: the sentences before its new ones end with its
    carried-over block, and the new sentences of the later chunks follow
    it. *)
Theorem chunks_rebuild_sentences (sentences : list string) (chunk_size chunk_overlap : Z) :
  exists blocks : list block,
    split_sentences sentences chunk_size chunk_overlap = map chunk_text blocks
    /\ chained chunk_overlap [] blocks
    /\ List.concat (map snd blocks) = sentences
    /\ (forall bs1 b bs2, blocks = bs1 ++ b :: bs2 ->
          exists before,
            List.concat (map snd bs1) = before ++ fst b
            /\ sentences = before ++ block_sentences b ++ List.concat (map snd bs2)).
Proof.
  assert (Hruns : forall blocks,
             chained chunk_overlap [] blocks ->
             List.concat (map snd blocks) = sentences ->
             forall bs1 b bs2, blocks = bs1 ++ b :: bs2 ->
               exists before,
                 List.concat (map snd bs1) = before ++ fst b
                 /\ sentences = before ++ block_sentences b ++ List.concat (map snd bs2)).
  { intros blocks Hch Hcat bs1 b bs2 Hbs.
    destruct (chained_position chunk_overlap blocks [] [] bs1 bs2 b Hch) as [before Hb].
    - exists []. reflexivity.
    - exact Hbs.
    - cbn [app] in Hb. exists before. split; [exact Hb|].
      rewrite <- Hcat, Hbs, map_app, concat_app, map_cons, concat_cons.
      unfold block_sentences. rewrite <- (app_assoc (fst b)), (app_assoc before).
      f_equal. exact Hb. }
  destruct (split_inv_loop chunk_size chunk_overlap sentences _ _ _ _ _
              (split_inv_init chunk_overlap))
    as (closed & ov & fr & [Hchunks Hcur Hsize Hchain Hsuf Hov Hfresh Hstart]).
  cbn [app] in *. unfold split_sentences.
  destruct fr as [|f fr].
  - destruct (Hstart eq_refl) as [-> ->].
    rewrite Hcur. exists []. cbn. rewrite Hchunks. cbn in Hfresh.
    split; [reflexivity|]. split; [exact I|]. split; [exact Hfresh|].
    intros bs1 b bs2 Hbs. destruct bs1; discriminate.
  - rewrite Hcur, nonempty_app_r by discriminate.
    assert (Hch : chained chunk_overlap [] (closed ++ [(ov, f :: fr)])).
    { apply chained_snoc; auto. discriminate. }
    assert (Hcat : List.concat (map snd (closed ++ [(ov, f :: fr)])) = sentences).
    { rewrite <- Hfresh, map_app, concat_app. simpl. rewrite app_nil_r. reflexivity. }
    exists (closed ++ [(ov, f :: fr)]). split; [|split; [|split]].
    + rewrite map_app, Hchunks. reflexivity.
    + exact Hch.
    + exact Hcat.
    + apply Hruns; assumption.
Qed.

(** C6, at an input where the text carried over is longer than
    [chunk_overlap].  With [chunk_size = 30] and [chunk_overlap = 16] the
    first chunk closes on three sentences; the overlap loop keeps its
    last two, of 8 characters each, because their lengths sum to 16.  The
    text that ends the first chunk and starts the second is
    ["Open it. Save it."], 17 characters: the space that joins the two
    sentences is not counted.  Both chunks are within [chunk_size]. *)
Theorem overlap_text_longer_than_chunk_overlap :
  split_sentences ["Start it up."; "Open it."; "Save it."; "Now close."] 30 16
  = [ ("Start it up. " ++ "Open it. Save it.")%string;
      ("Open it. Save it." ++ " Now close.")%string ]
  /\ overlap_loop 16 (rev ["Start it up."; "Open it."; "Save it."]) [] 0
     = (["Open it."; "Save it."], 16)
  /\ join " " ["Open it."; "Save it."] = "Open it. Save it."%string
  /\ len "Open it. Save it." = 17
  /\ len "Start it up. Open it. Save it." = 30
  /\ len "Open it. Save it. Now close." = 28.
Proof. vm_compute. repeat split. Qed.

End ChunkSpec.

(* ================================================================== *)
(** * Chunk size, and the metadata of chunks *)
(* ================================================================== *)

Module ChunkMetadataSpec.
Import PyStr Data Processors Vocabulary.
Open Scope list_scope.
Open Scope Z_scope.

(** C5, at two inputs where the code breaks the bound.  With
    [chunk_size = 16] the two sentences of 8 characters are joined into
    one chunk of 17 characters: the space that joins them is not
    counted.  With [chunk_size = 20] and [chunk_overlap = 10] the second
    chunk is the carried-over sentence and a new one, 27 characters,
    though no sentence is longer than 20 and the chunk is not a single
    sentence. *)
Theorem chunk_longer_than_chunk_size :
  (split_sentences ["Open it."; "Save it."] 16 0 = ["Open it. Save it."]
   /\ len "Open it. Save it." = 17
   /\ len "Open it." = 8 /\ len "Save it." = 8)
  /\ (split_sentences ["Open it."; "Now save the file."] 20 10
        = ["Open it."; "Open it. Now save the file."]
      /\ len "Open it. Now save the file." = 27
      /\ len "Now save the file." = 18).
Proof. vm_compute. repeat split. Qed.

Lemma In_enumerate_from {A : Type} (xs : list A) :
  forall (i n : nat) (x : A), In (n, x) (enumerate_from i xs) -> In x xs.
Proof.
  induction xs as [|y xs IH]; intros i n x Hin; simpl in *.
  - contradiction.
  - destruct Hin as [E|Hin]; [left; congruence | right; eapply IH; eauto].
Qed.

Lemma length_fold_heading_step (headings : list Heading) :
  forall st,
    List.length (hierarchy_out (fold_left heading_step headings st)) =
    (List.length (hierarchy_out st) + List.length headings)%nat.
Proof.
  induction headings as [|h headings IH]; intros st.
  - simpl. lia.
  - cbn [fold_left]. rewrite IH. unfold heading_step. cbn [hierarchy_out].
    rewrite length_app. simpl. lia.
Qed.

End ChunkMetadataSpec.

(* ================================================================== *)
(** * Response assembly *)
(* ================================================================== *)

Module ResponseSpec.
Import PyStr PyFloat Data Ranker ResponseGenerator Vocabulary.
Open Scope list_scope.
Open Scope string_scope.

(** C8, at an input where the code does not render the steps.  The top
    result's content has three numbered steps, one on each line.  [.]
    does not cross a line feed and [$] holds only at the end, so the
    pattern finds the last step alone; with fewer than two steps the
    generator falls back to the prose form, headed "Here's information on
    how to do that in Segment:".  The same three steps on one line are
    found and rendered as three numbered lines under "Here's how to do
    that in Segment:". *)
Theorem numbered_steps_on_lines_fall_back :
  _extract_steps steps_on_lines = ["Save"]
  /\ response_content (generate_regular_response (how_to_response steps_on_lines))
     = "Here's information on how to do that in Segment:" ++ nl ++ nl
       ++ "1. Open the app" ++ nl ++ "2. Click settings" ++ nl ++ "3. Save" ++ nl ++ nl
       ++ "Source: Segment - [Sources guide](https://segment.com/docs)"
  /\ _extract_steps steps_on_one_line = ["Open the app"; "Click settings"; "Save"]
  /\ response_content (generate_regular_response (how_to_response steps_on_one_line))
     = "Here's how to do that in Segment:" ++ nl ++ nl
       ++ "1. Open the app" ++ nl ++ "2. Click settings" ++ nl ++ "3. Save" ++ nl ++ nl
       ++ "Source: Segment - [Sources guide](https://segment.com/docs)".
Proof. vm_compute. repeat split. Qed.

Lemma append_assoc (a b c : string) : (a ++ b) ++ c = a ++ (b ++ c).
Proof.
  induction a as [|x a IH]; simpl; [reflexivity | now rewrite IH].
Qed.

Lemma append_empty_r (a : string) : a ++ "" = a.
Proof.
  induction a as [|x a IH]; simpl; [reflexivity | now rewrite IH].
Qed.

Lemma comparison_entry_section (text : string) (item : string * list Result) :
  comparison_entry text item = text ++ platform_section item.
Proof.
  destruct item as [cdp [|top rest]]; unfold comparison_entry, platform_section, truncate;
    cbn [fst snd].
  - symmetry. apply append_empty_r.
  - reflexivity.
Qed.

(** The loop over the platforms appends their sections in order. *)
Lemma fold_comparison_entry (results : dict (list Result)) :
  forall text,
    fold_left comparison_entry results text
    = text ++ concat_text (map platform_section results).
Proof.
  induction results as [|item results IH]; intros text.
  - simpl. symmetry. apply append_empty_r.
  - cbn [fold_left map]. rewrite IH, comparison_entry_section.
    unfold concat_text. cbn [fold_right]. apply append_assoc.
Qed.

(** Platforms without results add nothing to the text. *)
Lemma sections_of_platforms_with_results (results : dict (list Result)) :
  concat_text (map platform_section results)
  = concat_text (map platform_section (filter has_results results)).
Proof.
  induction results as [|[cdp rs] results IH].
  - reflexivity.
  - cbn [map filter]. unfold has_results at 1. cbn [snd].
    destruct rs as [|top rest]; cbn [Processors.nonempty].
    + unfold concat_text in *. cbn [fold_right map]. unfold platform_section at 1.
      cbn [snd]. exact IH.
    + unfold concat_text in *. cbn [fold_right map]. rewrite IH. reflexivity.
Qed.

Section Processor.

Variable hash : string -> Z.

Lemma process_loop_entries (items : dict (list Result)) (ranking_query : string) :
  forall acc,
    NoDup (map fst items) ->
    (forall k, In k (map fst items) -> ~ In k (map fst acc)) ->
    process_loop hash items ranking_query acc
    = (acc ++ map (fun item => (fst item,
                                filter_results hash (rank_results (snd item) ranking_query)))
                  items)%list.
Proof.
  induction items as [|[cdp results] items IH]; intros acc Hnd Hfresh.
  - simpl. now rewrite app_nil_r.
  - inversion Hnd as [|? ? Hnotin Hnd']; subst.
    cbn [process_loop map fst snd].
    rewrite RetrieverSpec.dict_set_fresh by (apply Hfresh; left; reflexivity).
    rewrite IH.
    + rewrite <- List.app_assoc. reflexivity.
    + exact Hnd'.
    + intros k Hk Hin. rewrite map_app in Hin. apply in_app_or in Hin.
      destruct Hin as [Hin|[E|[]]].
      * apply (Hfresh k); [right; exact Hk | exact Hin].
      * cbn [fst] in E. subst k. contradiction.
Qed.

End Processor.

(** C7, as the code has it.  The comparison processor keeps the keys of
    the result dict and their order, and maps each platform to its results
    ranked and filtered (an empty list when none survives).  The assembled
    comparison text is the header, then one section for each platform that
    has at least one result, in the order of the dict, then the summary.  A
    section shows the platform's name, the content of its top result (the
    first 300 characters followed by "..." when the content is longer) and
    its source line.  A platform whose list is empty has no section: the
    loop skips it, and the summary says that detailed information was
    found for some of the platforms only when fewer than two platforms
    have results. *)
Theorem comparison_text_has_sections_of_platforms_with_results
    (hash : string -> Z) :
  (forall (comparison_results : dict (list Result)) (query : string)
          (feature : option string),
      NoDup (map fst comparison_results) ->
      process_comparison_results hash comparison_results query feature
      = map (fun item =>
               (fst item,
                filter_results hash
                  (rank_results (snd item)
                     (match feature with
                      | Some (String c f) => String c f
                      | _ => query
                      end))))
            comparison_results)
  /\ (forall (query_response : ComparisonResponse) (results : dict (list Result)),
        cr_results query_response = Some results ->
        type_is (cr_type query_response) "no_results" = false ->
        existsb has_results results = true ->
        response_content (generate_comparison_response query_response)
        = ("Here's a comparison of how different CDPs handle "
             ++ feature_text (cr_analysis query_response) ++ ":" ++ nl ++ nl)
          ++ concat_text (map platform_section (filter has_results results))
          ++ (nl ++ "**Summary**:" ++ nl
                ++ "Each CDP platform has its own approach to "
                ++ feature_text (cr_analysis query_response) ++ ". "
                ++ (if (2 <=? List.length (filter has_results results))%nat
                    then "Consider your specific requirements when choosing between them."
                    else "I could only find detailed information for some of the platforms. Consider checking the official documentation for more details."))).
Proof.
  split.
  - intros comparison_results query feature Hnd.
    unfold process_comparison_results.
    rewrite process_loop_entries; [|exact Hnd|intros k _ []].
    cbn [app]. apply map_ext. intros item.
    destruct feature as [[|c f]|]; reflexivity.
  - intros query_response results Hres Htype Hsome.
    unfold generate_comparison_response.
    rewrite Htype, Hres. cbn [get].
    assert (Hne : Processors.nonempty results = true).
    { destruct results; [discriminate | reflexivity]. }
    rewrite Hne. fold has_results. rewrite Hsome. cbn [negb orb].
    rewrite fold_comparison_entry, sections_of_platforms_with_results.
    unfold platforms_with_results. fold has_results.
    destruct (2 <=? List.length (filter has_results results))%nat;
      cbn [response_content text_response]; rewrite !append_assoc; reflexivity.
Qed.

(** C7, as stated, fails for a platform without results: the text has no
    section for it and no placeholder. *)
Lemma empty_platform_has_no_section :
  map fst one_empty_platform = ["segment"; "lytics"]
  /\ response_content (generate_comparison_response one_empty_response)
     = "Here's a comparison of how different CDPs handle audiences:" ++ nl ++ nl
       ++ "**Segment**:" ++ nl ++ "Add a source in Segment. Sources collect data."
       ++ nl ++ nl ++ "Source: Segment - [Sources guide](https://segment.com/docs)"
       ++ nl ++ nl ++ nl ++ "**Summary**:" ++ nl
       ++ "Each CDP platform has its own approach to audiences. I could only find detailed information for some of the platforms. Consider checking the official documentation for more details."
  /\ contains "Lytics"
       (response_content (generate_comparison_response one_empty_response)) = false
  /\ contains "couldn't find specific information about this platform"
       (response_content (generate_comparison_response one_empty_response)) = false.
Proof. vm_compute. repeat split. Qed.

Lemma comparison_text_has_sections_of_platforms_with_results_witness :
  process_comparison_results length_hash one_empty_platform
      "compare segment and lytics" None
  = map (fun item =>
           (fst item,
            filter_results length_hash
              (rank_results (snd item) "compare segment and lytics")))
        one_empty_platform.
Proof.
  apply (proj1 (comparison_text_has_sections_of_platforms_with_results length_hash)
               one_empty_platform "compare segment and lytics" None).
  unfold one_empty_platform. cbn [map fst].
  repeat constructor; simpl; intuition discriminate.
Defined.

End ResponseSpec.

(* ================================================================== *)
(** * More on the chunk splitter *)
(* ================================================================== *)

Module SplitterMore.
Import PyStr Data Processors Vocabulary SplitterBlocks ChunkSpec.
Open Scope list_scope.
Open Scope Z_scope.

Section Blocks.

Variables chunk_size chunk_overlap : Z.

Lemma block_step_simulates (st : list block * block) (sentence : string) :
  split_step chunk_size chunk_overlap (state_of st) sentence
  = state_of (block_step chunk_size chunk_overlap st sentence).
Proof.
  destruct st as [closed [ov fr]]. unfold state_of, split_step, block_step, block_sentences.
  cbn [fst snd chunks current_chunk current_size].
  assert (Hone : total_length [sentence] = len sentence).
  { unfold total_length. cbn [fold_right]. lia. }
  destruct ((total_length (ov ++ fr) + len sentence >? chunk_size) && nonempty (ov ++ fr)).
  - destruct (overlap_of_chunk chunk_overlap (ov ++ fr))
      as (before & kept & _ & Hloop & _).
    rewrite Hloop. cbn [fst snd chunks current_chunk current_size].
    rewrite map_app, total_length_app, Hone. reflexivity.
  - cbn [fst snd chunks current_chunk current_size].
    rewrite !app_assoc, (total_length_app (ov ++ fr)), Hone. reflexivity.
Qed.

Lemma fold_block_step_simulates (sentences : list string) :
  forall st,
    fold_left (split_step chunk_size chunk_overlap) sentences (state_of st)
    = state_of (fold_left (block_step chunk_size chunk_overlap) sentences st).
Proof.
  induction sentences as [|s sentences IH]; intros st.
  - reflexivity.
  - cbn [fold_left]. rewrite block_step_simulates. apply IH.
Qed.

(** The chunks are the texts of the blocks. *)
Lemma split_sentences_blocks (sentences : list string) :
  split_sentences sentences chunk_size chunk_overlap
  = map chunk_text (split_blocks sentences chunk_size chunk_overlap).
Proof.
  unfold split_sentences, split_blocks.
  change (SplitState [] [] 0) with (state_of ([], ([], []))).
  rewrite fold_block_step_simulates.
  destruct (fold_left (block_step chunk_size chunk_overlap) sentences ([], ([], [])))
    as [closed [ov fr]].
  unfold state_of, block_sentences. cbn [fst snd chunks current_chunk].
  destruct (nonempty (ov ++ fr)).
  - rewrite map_app. reflexivity.
  - reflexivity.
Qed.

Lemma overlap_loop_none_fits (reversed_chunk : list string) (s : string) :
  chunk_overlap < len s ->
  overlap_loop chunk_overlap (s :: reversed_chunk) [] 0 = ([], 0).
Proof.
  intros Hlong. cbn [overlap_loop].
  destruct (0 + len s <=? chunk_overlap) eqn:Hfit; [|reflexivity].
  apply Z.leb_le in Hfit. lia.
Qed.

Lemma blocks_inv_init : blocks_inv chunk_size chunk_overlap [] ([], ([], [])).
Proof.
  unfold blocks_inv. cbn. repeat split; auto; lia.
Qed.

Lemma blocks_inv_step (processed : list string) (st : list block * block)
    (sentence : string) :
  blocks_inv chunk_size chunk_overlap processed st ->
  blocks_inv chunk_size chunk_overlap (processed ++ [sentence])
             (block_step chunk_size chunk_overlap st sentence).
Proof.
  destruct st as [closed [ov fr]]. unfold blocks_inv, block_step.
  intros (Hfresh & Hnew & Hstart & Hsizes & Hsize & Hov & Hpart).
  assert (Hone : total_length [sentence] = len sentence).
  { unfold total_length. cbn [fold_right]. lia. }
  destruct (total_length (ov ++ fr) + len sentence >? chunk_size) eqn:Hbig;
    [destruct (nonempty (ov ++ fr)) eqn:Hne|]; cbn [andb].
  - (* the running chunk is closed *)
    assert (Hfr : fr <> []).
    { intros ->. destruct (Hstart eq_refl) as [-> _]. discriminate. }
    destruct (overlap_of_chunk chunk_overlap (ov ++ fr))
      as (before & kept & Hsplit & Hloop & Hkept).
    rewrite Hloop. cbn [fst snd].
    split; [|split; [|split; [|split; [|split; [|split]]]]].
    + rewrite <- Hfresh, map_app, concat_app. simpl. rewrite app_nil_r. reflexivity.
    + apply Forall_app. split; [exact Hnew|]. constructor; [exact Hfr | constructor].
    + discriminate.
    + apply Forall_app. split; [exact Hsizes|]. constructor; [|constructor].
      destruct Hsize as [->|Hsize]; [congruence | exact Hsize].
    + right. right. cbn [fst snd]. split; [exists sentence; reflexivity | exact Hkept].
    + exact Hkept.
    + intros Hlong.
      assert (Hlong' : forall s, In s processed -> chunk_overlap < len s).
      { intros s Hs. apply Hlong. apply in_or_app. left. exact Hs. }
      destruct (Hpart Hlong') as [-> Hnone].
      split.
      * destruct (exists_last Hfr) as (front & z & ->).
        cbn [app] in Hloop. rewrite rev_app_distr in Hloop. cbn [rev app] in Hloop.
        rewrite overlap_loop_none_fits in Hloop.
        -- congruence.
        -- apply Hlong'. rewrite <- Hfresh. apply in_or_app. right.
           apply in_or_app. right. left. reflexivity.
      * apply Forall_app. split; [exact Hnone|]. constructor; [reflexivity | constructor].
  - (* nothing to close: the first sentence *)
    destruct ov, fr; try discriminate. cbn [app].
    split; [|split; [|split; [|split; [|split; [|split]]]]].
    + rewrite <- Hfresh, app_nil_r. reflexivity.
    + exact Hnew.
    + discriminate.
    + exact Hsizes.
    + right. right. cbn [fst snd]. split; [exists sentence; reflexivity | exact Hov].
    + exact Hov.
    + intros Hlong. split; [reflexivity|].
      destruct (Hstart eq_refl) as [_ ->]. constructor.
  - (* the sentence fits *)
    rewrite Z.gtb_ltb in Hbig. apply Z.ltb_ge in Hbig.
    split; [|split; [|split; [|split; [|split; [|split]]]]].
    + rewrite <- Hfresh, app_assoc. reflexivity.
    + exact Hnew.
    + intros H. destruct fr; discriminate.
    + exact Hsizes.
    + right. left. unfold block_sentences. cbn [fst snd].
      rewrite app_assoc, total_length_app, Hone. exact Hbig.
    + exact Hov.
    + intros Hlong. apply Hpart. intros s Hs. apply Hlong. apply in_or_app. left. exact Hs.
Qed.

Lemma blocks_inv_loop (sentences : list string) :
  forall processed st,
    blocks_inv chunk_size chunk_overlap processed st ->
    blocks_inv chunk_size chunk_overlap (processed ++ sentences)
               (fold_left (block_step chunk_size chunk_overlap) sentences st).
Proof.
  induction sentences as [|s sentences IH]; intros processed st Hinv.
  - rewrite app_nil_r. exact Hinv.
  - cbn [fold_left]. replace (processed ++ s :: sentences)
      with ((processed ++ [s]) ++ sentences) by (rewrite <- app_assoc; reflexivity).
    apply IH. apply blocks_inv_step. exact Hinv.
Qed.

(** What holds of the blocks at the end. *)
Lemma split_blocks_spec (sentences : list string) :
  List.concat (map snd (split_blocks sentences chunk_size chunk_overlap)) = sentences
  /\ Forall (fun b : block => snd b <> []) (split_blocks sentences chunk_size chunk_overlap)
  /\ Forall (within_size chunk_size chunk_overlap)
            (split_blocks sentences chunk_size chunk_overlap)
  /\ ((forall s, In s sentences -> chunk_overlap < len s) ->
      Forall (fun b : block => fst b = []) (split_blocks sentences chunk_size chunk_overlap)).
Proof.
  pose proof (blocks_inv_loop sentences [] _ blocks_inv_init) as Hinv.
  cbn [app] in Hinv. unfold split_blocks.
  destruct (fold_left (block_step chunk_size chunk_overlap) sentences ([], ([], [])))
    as [closed [ov fr]].
  destruct Hinv as (Hfresh & Hnew & Hstart & Hsizes & Hsize & Hov & Hpart).
  destruct fr as [|f fr].
  - destruct (Hstart eq_refl) as [-> ->]. cbn. cbn in Hfresh.
    repeat split; auto.
  - rewrite nonempty_app_r by discriminate.
    split; [|split; [|split]].
    + rewrite <- Hfresh, map_app, concat_app. simpl. rewrite app_nil_r. reflexivity.
    + apply Forall_app. split; [exact Hnew|]. constructor; [discriminate | constructor].
    + apply Forall_app. split; [exact Hsizes|]. constructor; [|constructor].
      destruct Hsize as [H|H]; [discriminate | exact H].
    + intros Hlong. destruct (Hpart Hlong) as [-> Hnone].
      apply Forall_app. split; [exact Hnone|]. constructor; [reflexivity | constructor].
Qed.

(** While the sentences fit, the loop only extends the first chunk. *)
Lemma fold_block_step_fits (more : list string) :
  forall fr,
    total_length fr + total_length more <= chunk_size ->
    fold_left (block_step chunk_size chunk_overlap) more ([], ([], fr))
    = ([], ([], fr ++ more)).
Proof.
  induction more as [|s more IH]; intros fr Hfit.
  - rewrite app_nil_r. reflexivity.
  - cbn [fold_left]. rewrite total_length_cons in Hfit.
    pose proof (total_length_nonneg more) as Hpos.
    unfold block_step at 2. cbn [app].
    replace (total_length fr + len s >? chunk_size) with false
      by (symmetry; rewrite Z.gtb_ltb; apply Z.ltb_ge; lia).
    cbn [andb]. rewrite IH.
    + rewrite <- app_assoc. reflexivity.
    + rewrite total_length_app, total_length_cons. unfold total_length at 2.
      cbn [fold_right]. lia.
Qed.

End Blocks.

Lemma length_concat_nonempty {A : Type} (ls : list (list A)) :
  Forall (fun l => l <> []) ls -> (List.length ls <= List.length (List.concat ls))%nat.
Proof.
  induction 1 as [|l ls Hl _ IH]; cbn [List.concat List.length].
  - lia.
  - rewrite length_app. destruct l; [congruence|]. cbn [List.length]. lia.
Qed.

(** X1. A text whose sentences have no more than [chunk_size] characters
    in total is one chunk, the sentences joined by spaces, whatever the
    overlap; a text without sentences gives no chunk. *)
Theorem fitting_text_is_one_chunk
    (sent_tokenize : string -> list string) (text : string)
    (chunk_size chunk_overlap : Z) :
  (sent_tokenize text = [] ->
   split_text_into_chunks sent_tokenize text chunk_size chunk_overlap = [])
  /\ (sent_tokenize text <> [] ->
      total_length (sent_tokenize text) <= chunk_size ->
      split_text_into_chunks sent_tokenize text chunk_size chunk_overlap
      = [join " " (sent_tokenize text)]).
Proof.
  unfold split_text_into_chunks. split.
  - intros ->. reflexivity.
  - intros Hne Hfit. rewrite split_sentences_blocks. unfold split_blocks.
    rewrite (fold_block_step_fits chunk_size chunk_overlap (sent_tokenize text) [])
      by (cbn; exact Hfit).
    cbn [app]. destruct (sent_tokenize text); [congruence | reflexivity].
Qed.

Lemma fitting_text_is_one_chunk_witness :
  split_text_into_chunks sample_tokenize "Open it. Save it." 1000 200
  = ["Open it. Save it."].
Proof.
  apply (proj2 (fitting_text_is_one_chunk sample_tokenize "Open it. Save it." 1000 200)).
  - discriminate.
  - vm_compute. discriminate.
Defined.

(** X2. The splitter never returns more chunks than the text has
    sentences, and it returns no chunk exactly when the text has no
    sentence. *)
Theorem chunk_count_at_most_sentence_count
    (sentences : list string) (chunk_size chunk_overlap : Z) :
  (List.length (split_sentences sentences chunk_size chunk_overlap)
   <= List.length sentences)%nat
  /\ (split_sentences sentences chunk_size chunk_overlap = [] <-> sentences = []).
Proof.
  rewrite split_sentences_blocks.
  destruct (split_blocks_spec chunk_size chunk_overlap sentences)
    as (Hcat & Hnew & _ & _).
  set (bs := split_blocks sentences chunk_size chunk_overlap) in *.
  assert (Hlen : (List.length bs <= List.length sentences)%nat).
  { rewrite <- Hcat.
    apply Nat.le_trans with (List.length (map snd bs)); [rewrite length_map; apply Nat.le_refl|].
    apply length_concat_nonempty. apply Forall_map. exact Hnew. }
  split.
  - rewrite length_map. exact Hlen.
  - split.
    + intros Hnil. destruct bs; [symmetry; exact Hcat | discriminate].
    + intros ->. destruct bs; [reflexivity | cbn in Hlen; lia].
Qed.

(** X3. The bound the splitter keeps.  Every chunk either counts at most
    [chunk_size] characters (the sum of its sentences' lengths), or is a
    carried-over block of at most [chunk_overlap] characters followed by
    exactly one new sentence.  So when no sentence is longer than
    [chunk_size], a chunk counts at most [chunk_size + max(0,
    chunk_overlap)] characters, and its content has one character more
    for each join. *)
Theorem chunk_size_bound_kept
    (sentences : list string) (chunk_size chunk_overlap : Z) :
  split_sentences sentences chunk_size chunk_overlap
  = map chunk_text (split_blocks sentences chunk_size chunk_overlap)
  /\ Forall (fun b : block =>
               total_length (block_sentences b) <= chunk_size
               \/ (exists s, snd b = [s]) /\ total_length (fst b) <= Z.max 0 chunk_overlap)
            (split_blocks sentences chunk_size chunk_overlap)
  /\ ((forall s, In s sentences -> len s <= chunk_size) ->
      Forall (fun b : block =>
                total_length (block_sentences b) <= chunk_size + Z.max 0 chunk_overlap
                /\ len (chunk_text b)
                   <= chunk_size + Z.max 0 chunk_overlap
                      + Z.of_nat (List.length (block_sentences b)) - 1)
             (split_blocks sentences chunk_size chunk_overlap)).
Proof.
  destruct (split_blocks_spec chunk_size chunk_overlap sentences)
    as (Hcat & Hnew & Hsizes & _).
  split; [apply split_sentences_blocks|]. split; [exact Hsizes|].
  intros Hshort.
  set (bs := split_blocks sentences chunk_size chunk_overlap) in *.
  rewrite Forall_forall in *. intros b Hb.
  assert (Hcount : total_length (block_sentences b) <= chunk_size + Z.max 0 chunk_overlap).
  { destruct (Hsizes b Hb) as [H|[[s Hs] Hov]]; [lia|].
    unfold block_sentences. rewrite total_length_app, Hs, total_length_cons.
    unfold total_length at 2. cbn [fold_right].
    assert (Hin : In s sentences).
    { rewrite <- Hcat. apply in_concat. exists (snd b). split.
      - apply in_map. exact Hb.
      - rewrite Hs. left. reflexivity. }
    specialize (Hshort s Hin). lia. }
  split; [exact Hcount|].
  unfold chunk_text. rewrite len_join; [lia|].
  unfold block_sentences. specialize (Hnew b Hb).
  destruct (fst b), (snd b); cbn; congruence.
Qed.

Lemma chunk_size_bound_kept_witness :
  Forall (fun b : block =>
            total_length (block_sentences b) <= 20 + Z.max 0 10
            /\ len (chunk_text b)
               <= 20 + Z.max 0 10 + Z.of_nat (List.length (block_sentences b)) - 1)
         (split_blocks ["Open it."; "Now save the file."] 20 10).
Proof.
  apply (proj2 (proj2 (chunk_size_bound_kept ["Open it."; "Now save the file."] 20 10))).
  intros s [<-|[<-|[]]]; vm_compute; discriminate.
Defined.

(** X4. When every sentence is longer than [chunk_overlap], nothing is
    carried over: each sentence of the text is in exactly one chunk, and
    the chunks' sentences, in order, are the sentences of the text. *)
Theorem long_sentences_are_not_repeated
    (sentences : list string) (chunk_size chunk_overlap : Z) :
  (forall s, In s sentences -> chunk_overlap < len s) ->
  exists groups : list (list string),
    split_sentences sentences chunk_size chunk_overlap = map (join " ") groups
    /\ List.concat groups = sentences
    /\ Forall (fun g => g <> []) groups.
Proof.
  intros Hlong.
  destruct (split_blocks_spec chunk_size chunk_overlap sentences)
    as (Hcat & Hnew & _ & Hnone).
  specialize (Hnone Hlong).
  exists (map snd (split_blocks sentences chunk_size chunk_overlap)).
  split; [|split].
  - rewrite split_sentences_blocks, map_map. apply map_ext_in.
    intros b Hb. rewrite Forall_forall in Hnone.
    unfold chunk_text, block_sentences. rewrite (Hnone b Hb). reflexivity.
  - exact Hcat.
  - apply Forall_map. exact Hnew.
Qed.

Lemma long_sentences_are_not_repeated_witness :
  exists groups : list (list string),
    split_sentences ["Open it."; "Now save the file."] 20 5 = map (join " ") groups
    /\ List.concat groups = ["Open it."; "Now save the file."]
    /\ Forall (fun g => g <> []) groups.
Proof.
  apply (long_sentences_are_not_repeated ["Open it."; "Now save the file."] 20 5).
  intros s [<-|[<-|[]]]; vm_compute; reflexivity.
Defined.

End SplitterMore.

(* ================================================================== *)
(** * More on the retrievers: the calls made to the index *)
(* ================================================================== *)

Module RetrieverMore.
Import PyStr PyFloat Re Data Config Retriever Vocabulary RetrieverSpec.
Open Scope list_scope.

(** [find] returns the first element that passes the test. *)
Lemma find_first {A : Type} (f : A -> bool) (l : list A) (x : A) :
  find f l = Some x ->
  exists before after,
    l = before ++ x :: after /\ f x = true /\ forall y, In y before -> f y = false.
Proof.
  induction l as [|a l IH]; cbn [find]; [discriminate|].
  destruct (f a) eqn:Ha.
  - intros E. injection E as <-. exists [], l. repeat split; auto. intros y [].
  - intros E. destruct (IH E) as (before & after & -> & Hx & Hb).
    exists (a :: before), after. repeat split; auto.
    intros y [<-|Hy]; auto.
Qed.

Lemma find_none_iff {A : Type} (f : A -> bool) (l : list A) :
  find f l = None <-> forall y, In y l -> f y = false.
Proof.
  induction l as [|a l IH]; cbn [find].
  - split; [intros _ y [] | reflexivity].
  - destruct (f a) eqn:Ha.
    + split; [discriminate|]. intros H. specialize (H a (or_introl eq_refl)). congruence.
    + rewrite IH. split.
      * intros H y [<-|Hy]; auto.
      * intros H y Hy. apply H. right. exact Hy.
Qed.

(** X5. For a relevant query [retrieve] calls the index exactly once,
    with the query as it is and [top_k].  The call is filtered by one
    platform: the first name of the list segment, mparticle, lytics,
    zeotap that the lower-cased query contains, wherever the names stand
    in the query; when the query contains none of them the call has no
    filter. *)
Theorem retrieve_calls_index_once
    (vector_store_query : string -> Z -> option (dict string) -> list Result)
    (query : string) (top_k : Z) :
  _is_relevant_query query = true ->
  (exists filter_dict,
      calls (retrieve vector_store_query query top_k)
      = [Build_IndexCall query top_k filter_dict]
      /\ ((forall name, In name cdp_names -> contains name (lower query) = false) ->
          filter_dict = None)
      /\ (forall name,
            filter_dict = Some [("platform", name)] <->
            exists before after,
              cdp_names = before ++ name :: after
              /\ contains name (lower query) = true
              /\ forall other, In other before -> contains other (lower query) = false)).
Proof.
  intros Hrel. exists (platform_filter query). split; [|split].
  - unfold calls, retrieve, platform_filter. rewrite Hrel. cbn [negb].
    destruct (_extract_cdp_from_query query) as [c|] eqn:Hc; [|reflexivity].
    assert (Hne : truthy (Some c) = true).
    { unfold _extract_cdp_from_query, first_such in Hc. apply find_some in Hc.
      destruct Hc as [Hin _]. unfold cdp_names in Hin. simpl in Hin.
      repeat (destruct Hin as [<-|Hin]; [reflexivity|]). contradiction. }
    rewrite Hne. reflexivity.
  - intros Hnone. unfold platform_filter, _extract_cdp_from_query, first_such.
    replace (find (fun cdp => contains cdp (lower query)) cdp_names) with (@None string);
      [reflexivity|].
    symmetry. apply find_none_iff. exact Hnone.
  - intros name. unfold platform_filter, _extract_cdp_from_query, first_such.
    destruct (find (fun cdp => contains cdp (lower query)) cdp_names) as [c|] eqn:Hf.
    + apply find_first in Hf. destruct Hf as (before & after & Hsplit & Hc & Hb).
      split.
      * intros E. injection E as <-. exists before, after. auto.
      * intros (before' & after' & Hsplit' & Hc' & Hb').
        assert (c = name); [|subst; reflexivity].
        clear - Hsplit Hc Hb Hsplit' Hc' Hb'.
        rewrite Hsplit in Hsplit'. clear Hsplit.
        revert before' Hsplit' Hb'. induction before as [|x before IH]; intros before' E Hb'.
        -- destruct before' as [|y before']; cbn [app] in E.
           ++ congruence.
           ++ injection E as <- _. specialize (Hb' c (or_introl eq_refl)). congruence.
        -- destruct before' as [|y before']; cbn [app] in E.
           ++ injection E as <- _. specialize (Hb x (or_introl eq_refl)). congruence.
           ++ injection E as <- E. apply (IH (fun z Hz => Hb z (or_intror Hz)) before' E).
              intros z Hz. apply Hb'. right. exact Hz.
    + split; [discriminate|].
      intros (before & after & Hsplit & Hc & _).
      rewrite find_none_iff in Hf. rewrite Hf in Hc; [discriminate|].
      rewrite Hsplit. apply in_or_app. right. left. reflexivity.
Qed.

Lemma retrieve_calls_index_once_witness :
  exists filter_dict,
    calls (retrieve sample_index "does lytics or segment track events" 5)
    = [Build_IndexCall "does lytics or segment track events" 5 filter_dict]
    /\ ((forall name, In name cdp_names ->
           contains name (lower "does lytics or segment track events") = false) ->
        filter_dict = None)
    /\ (forall name,
          filter_dict = Some [("platform", name)] <->
          exists before after,
            cdp_names = before ++ name :: after
            /\ contains name (lower "does lytics or segment track events") = true
            /\ forall other, In other before ->
                 contains other (lower "does lytics or segment track events") = false).
Proof.
  apply (retrieve_calls_index_once sample_index "does lytics or segment track events" 5).
  vm_compute. reflexivity.
Defined.

(** X6. Unless the feature extraction raises, [retrieve_for_comparison]
    calls the index once for each compared platform, in order, each call
    filtered by that platform, all with the same text (the feature when
    one was extracted and is not empty, else the query) and
    [top_k_per_cdp].  The compared platforms are the names of segment,
    mparticle, lytics and zeotap that the lower-cased query contains, in
    that order, and all four when it contains none.  When the extraction
    raises, no call is made. *)
Theorem comparison_calls_index_once_per_platform
    (vector_store_query : string -> Z -> option (dict string) -> list Result)
    (query : string) (top_k_per_cdp : Z) :
  match _extract_feature_for_comparison query with
  | IndexError =>
      forall tr, retrieve_for_comparison vector_store_query query top_k_per_cdp tr
                 = (IndexError, tr)
  | Ok feature =>
      exists platforms text,
        calls (retrieve_for_comparison vector_store_query query top_k_per_cdp)
        = map (fun cdp => Build_IndexCall text top_k_per_cdp (Some [("platform", cdp)]))
              platforms
        /\ text = match feature with
                  | Some (String c f) => String c f
                  | _ => query
                  end
        /\ ((forall name, In name cdp_names -> contains name (lower query) = false) ->
            platforms = ["segment"; "mparticle"; "lytics"; "zeotap"])
        /\ ((exists name, In name cdp_names /\ contains name (lower query) = true) ->
            platforms = filter (fun name => contains name (lower query))
                               ["segment"; "mparticle"; "lytics"; "zeotap"])
        /\ NoDup platforms
  end.
Proof.
  unfold retrieve_for_comparison, calls.
  destruct (_extract_feature_for_comparison query) as [feature|]; [|reflexivity].
  exists (compared_platforms query).
  exists (match feature with Some (String c f) => String c f | _ => query end).
  assert (Hc : (if Processors.nonempty (_extract_cdps_for_comparison query)
                then _extract_cdps_for_comparison query
                else ["segment"; "mparticle"; "lytics"; "zeotap"])
               = compared_platforms query).
  { unfold compared_platforms. destruct (_extract_cdps_for_comparison query); reflexivity. }
  rewrite Hc. unfold bind.
  rewrite comparison_loop_entries;
    [|apply compared_platforms_NoDup | intros c _ []].
  split; [|split; [|split; [|split]]].
  - cbn [app snd ret]. unfold platform_call.
    destruct feature as [[|c f]|]; reflexivity.
  - reflexivity.
  - intros Hnone. unfold compared_platforms, _extract_cdps_for_comparison.
    replace (filter (fun cdp => contains cdp (lower query)) cdp_names) with (@nil string);
      [reflexivity|].
    symmetry. clear - Hnone. induction cdp_names as [|a l IH]; [reflexivity|].
    cbn [filter]. rewrite (Hnone a (or_introl eq_refl)).
    apply IH. intros n Hn. apply Hnone. right. exact Hn.
  - intros (name & Hin & Hcon). unfold compared_platforms, _extract_cdps_for_comparison.
    change ["segment"; "mparticle"; "lytics"; "zeotap"] with cdp_names.
    destruct (filter (fun cdp => contains cdp (lower query)) cdp_names) eqn:Hf;
      [|reflexivity].
    exfalso.
    assert (Hin' : In name (filter (fun cdp => contains cdp (lower query)) cdp_names))
      by (apply filter_In; auto).
    rewrite Hf in Hin'. exact Hin'.
  - apply compared_platforms_NoDup.
Qed.

End RetrieverMore.

(* ================================================================== *)
(** * The matcher: what a successful match went through *)
(* ================================================================== *)

Module ReMore.
Import PyStr Re ReGroups.
Open Scope list_scope.

Lemma extends_refl (r : regex) (st : mstate) : extends r st st.
Proof. exists []. split; [reflexivity | intros g []]. Qed.

Lemma extends_weaken (r r' : regex) (st st' : mstate) :
  (forall g, In g (groups r) -> In g (groups r')) ->
  extends r st st' -> extends r' st st'.
Proof.
  intros Hsub (new & E & Hg). exists new. split; [exact E|]. auto.
Qed.

Lemma extends_trans (r1 r2 r : regex) (st0 st1 st2 : mstate) :
  (forall g, In g (groups r1) -> In g (groups r)) ->
  (forall g, In g (groups r2) -> In g (groups r)) ->
  extends r1 st0 st1 -> extends r2 st1 st2 -> extends r st0 st2.
Proof.
  intros H1 H2 (n1 & E1 & G1) (n2 & E2 & G2).
  exists (n2 ++ n1). split.
  - rewrite E2, E1, app_assoc. reflexivity.
  - intros g Hg. rewrite map_app in Hg. apply in_app_or in Hg.
    destruct Hg as [Hg|Hg]; auto.
Qed.

(** A match that succeeds has handed its continuation a state whose
    groups are those it started with and groups of the pattern. *)
Lemma run_success {R : Type} (r : regex) :
  forall (st : mstate) (k : mstate -> option R) (res : R),
    run r st k = Some res ->
    exists st', k st' = Some res /\ extends r st st'.
Proof.
  induction r as [|c|p|r1 IH1 r2 IH2|r1 IH1 r2 IH2|r1 IH1|r1 IH1|n r1 IH1|r1 IH1|p| |];
    intros st k res Hrun; cbn [run] in Hrun.
  - exists st. split; [exact Hrun | apply extends_refl].
  - unfold step in Hrun. destruct (rest st) as [|d s'] eqn:Hrest; [discriminate|].
    destruct (Ascii.eqb c d); [|discriminate].
    eexists. split; [exact Hrun|]. exists []. split; [reflexivity | intros g []].
  - unfold step in Hrun. destruct (rest st) as [|d s'] eqn:Hrest; [discriminate|].
    destruct (p d); [|discriminate].
    eexists. split; [exact Hrun|]. exists []. split; [reflexivity | intros g []].
  - destruct (IH1 _ _ _ Hrun) as (st1 & Hrun2 & E1).
    destruct (IH2 _ _ _ Hrun2) as (st2 & Hk & E2).
    exists st2. split; [exact Hk|].
    apply (extends_trans r1 r2 (Cat r1 r2) st st1 st2); auto;
      intros g Hg; cbn [groups]; apply in_or_app; auto.
  - destruct (run r1 st k) as [x|] eqn:H1.
    + injection Hrun as <-. destruct (IH1 _ _ _ H1) as (st1 & Hk & E1).
      exists st1. split; [exact Hk|].
      apply (extends_weaken r1); [|exact E1].
      intros g Hg; cbn [groups]; apply in_or_app; auto.
    + destruct (IH2 _ _ _ Hrun) as (st2 & Hk & E2).
      exists st2. split; [exact Hk|].
      apply (extends_weaken r2); [|exact E2].
      intros g Hg; cbn [groups]; apply in_or_app; auto.
  - revert Hrun. generalize (String.length (rest st)). intros fuel. revert st.
    induction fuel as [|fuel IHf]; intros st Hrun.
    + exists st. split; [exact Hrun | apply extends_refl].
    + match type of Hrun with
      | match ?m with _ => _ end = _ => destruct m as [x|] eqn:H1
      end.
      * injection Hrun as <-.
        destruct (IH1 _ _ _ H1) as (st1 & Hk1 & E1).
        destruct (progress st st1); [|discriminate].
        destruct (IHf _ Hk1) as (st2 & Hk & E2).
        exists st2. split; [exact Hk|].
        apply (extends_trans r1 (Star r1) (Star r1) st st1 st2); auto.
      * exists st. split; [exact Hrun | apply extends_refl].
  - revert Hrun. generalize (String.length (rest st)). intros fuel. revert st.
    induction fuel as [|fuel IHf]; intros st Hrun.
    + exists st. split; [exact Hrun | apply extends_refl].
    + destruct (k st) as [x|] eqn:Hk0.
      * injection Hrun as <-. exists st. split; [exact Hk0 | apply extends_refl].
      * destruct (IH1 _ _ _ Hrun) as (st1 & Hk1 & E1).
        destruct (progress st st1); [|discriminate].
        destruct (IHf _ Hk1) as (st2 & Hk & E2).
        exists st2. split; [exact Hk|].
        apply (extends_trans r1 (LazyStar r1) (LazyStar r1) st st1 st2); auto.
  - destruct (IH1 _ _ _ Hrun) as (st1 & Hk & (new & E & Hg)).
    eexists. split; [exact Hk|].
    exists ((n, consumed st st1) :: new). split.
    + cbn [caps app]. rewrite E. reflexivity.
    + intros g [<-|Hin]; cbn [groups]; [left; reflexivity | right; auto].
  - destruct (run r1 st (fun st' => Some st')); [|discriminate].
    exists st. split; [exact Hrun | apply extends_refl].
  - destruct (prev st) as [c|]; [|discriminate]. destruct (p c); [|discriminate].
    exists st. split; [exact Hrun | apply extends_refl].
  - destruct (at_eos (rest st)); [|discriminate].
    exists st. split; [exact Hrun | apply extends_refl].
  - destruct (xorb (word_before st) (word_after st)); [|discriminate].
    exists st. split; [exact Hrun | apply extends_refl].
Qed.

(** A group that no entry carries is not found. *)
Lemma group_absent (n : nat) (cs : list (nat * string)) :
  ~ In n (map fst cs) -> group n cs = None.
Proof.
  induction cs as [|[i s] cs IH]; cbn [group map fst]; intros Hn; [reflexivity|].
  destruct (Nat.eqb_spec i n) as [->|Hne].
  - exfalso. apply Hn. left. reflexivity.
  - apply IH. intros H. apply Hn. right. exact H.
Qed.

(** A match records groups of its pattern only. *)
Lemma match_at_groups (r : regex) (st : mstate) (m : rmatch) (n : nat) :
  match_at r st = Some m -> ~ In n (groups r) -> group n (m_caps m) = None.
Proof.
  unfold match_at. intros Hm Hn.
  destruct (run r (MState (prev st) (rest st) []) (fun st' => Some st')) as [st'|] eqn:Hrun;
    [|discriminate].
  injection Hm as <-. cbn [m_caps].
  destruct (run_success r _ _ _ Hrun) as (st1 & Hk & (new & E & Hg)).
  injection Hk as <-. cbn [caps] in E. rewrite app_nil_r in E. rewrite E.
  apply group_absent. intros H. apply Hn. apply Hg. exact H.
Qed.

(** What [re.search] returns is a match at some position. *)
Lemma search_from_match_at (r : regex) (s : string) :
  forall p skipped m,
    search_from r p s = Some (skipped, m) ->
    exists st, match_at r st = Some m.
Proof.
  induction s as [|c s IH]; intros p skipped m Hs; cbn [search_from] in Hs.
  - destruct (match_at r (MState p "" [])) as [m'|] eqn:Hm; [|discriminate].
    injection Hs as <- <-. eexists. exact Hm.
  - destruct (match_at r (MState p (String c s) [])) as [m'|] eqn:Hm.
    + injection Hs as <- <-. eexists. exact Hm.
    + destruct (search_from r (Some c) s) as [[sk m']|] eqn:Hrec; [|discriminate].
      injection Hs as <- <-. eapply IH. exact Hrec.
Qed.

End ReMore.

(* ================================================================== *)
(** * More on chunk preparation: breadcrumbs and chunk ids *)
(* ================================================================== *)

Module PrepareMore.
Import PyStr Data Processors Vocabulary Decimal.
Open Scope list_scope.

Lemma append_nil_r (a : string) : (a ++ "")%string = a.
Proof. induction a as [|c a IH]; simpl; [reflexivity | now rewrite IH]. Qed.

Lemma append_assoc_s (a b c : string) : ((a ++ b) ++ c = a ++ (b ++ c))%string.
Proof. induction a as [|x a IH]; simpl; [reflexivity | now rewrite IH]. Qed.

Lemma join_snoc (sep : string) (xs : list string) (x : string) :
  xs <> [] -> join sep (xs ++ [x]) = (join sep xs ++ sep ++ x)%string.
Proof.
  induction xs as [|y xs IH]; intros Hne; [congruence|].
  destruct xs as [|z xs].
  - reflexivity.
  - change (join sep ((y :: z :: xs) ++ [x]))
      with (y ++ sep ++ join sep ((z :: xs) ++ [x]))%string.
    rewrite IH by discriminate.
    change (join sep (y :: z :: xs)) with (y ++ sep ++ join sep (z :: xs))%string.
    rewrite !append_assoc_s. reflexivity.
Qed.

Lemma join_ends_with (sep : string) (xs : list string) (x : string) :
  exists before, join sep (xs ++ [x]) = (before ++ x)%string.
Proof.
  destruct xs as [|y xs].
  - exists "". reflexivity.
  - exists (join sep (y :: xs) ++ sep)%string.
    rewrite join_snoc by discriminate. rewrite append_assoc_s. reflexivity.
Qed.

(** The later headings add breadcrumbs; they change none. *)
Lemma hierarchy_out_fold (headings : list Heading) :
  forall st,
    exists tail,
      hierarchy_out (fold_left heading_step headings st) = hierarchy_out st ++ tail
      /\ List.length tail = List.length headings.
Proof.
  induction headings as [|h headings IH]; intros st.
  - exists []. rewrite app_nil_r. split; reflexivity.
  - cbn [fold_left]. destruct (IH (heading_step st h)) as (tail & E & Hlen).
    rewrite E. unfold heading_step at 1. cbn [hierarchy_out].
    eexists. rewrite <- app_assoc. split; [reflexivity|].
    cbn [app List.length]. rewrite Hlen. reflexivity.
Qed.

(** After a heading, the level is the heading's and the breadcrumb is the
    join of the path. *)
Lemma heading_step_state (st : heading_state) (h : Heading) :
  current_level (heading_step st h) = get (level h) 0%Z
  /\ exists path,
       current_hierarchy (heading_step st h) = path ++ [get (text h) ""]
       /\ hierarchy_out (heading_step st h)
          = hierarchy_out st ++ [join " > " (path ++ [get (text h) ""])]
       /\ ((get (level h) 0 <=? current_level st)%Z = false -> path = current_hierarchy st)
       /\ ((get (level h) 0 <=? current_level st)%Z = true ->
           path = slice_to (get (level h) 0 - 1) (current_hierarchy st)).
Proof.
  unfold heading_step. cbn [current_level current_hierarchy hierarchy_out].
  split; [reflexivity|].
  eexists. split; [reflexivity|]. split; [reflexivity|].
  destruct (get (level h) 0 <=? current_level st)%Z; split; intros; congruence.
Qed.

(** X8. The heading hierarchy has one breadcrumb for each heading, in
    order, and a breadcrumb depends only on the headings up to its own.
    Each breadcrumb ends with the text of its heading.  A heading that is
    deeper than the heading before it extends that heading's breadcrumb
    by " > " and its own text.  A heading of level 1 that follows
    headings of level 1 or more has its own text as breadcrumb. *)
Theorem heading_breadcrumbs (before after : list Heading) (h : Heading) :
  exists (crumb : string) (tail : list string),
    build_heading_hierarchy (before ++ h :: after)
    = build_heading_hierarchy before ++ crumb :: tail
    /\ List.length (build_heading_hierarchy before) = List.length before
    /\ List.length tail = List.length after
    /\ (exists path, crumb = (path ++ get (text h) "")%string)
    /\ (forall earlier h0,
          before = earlier ++ [h0] ->
          (get (level h0) 0 < get (level h) 0)%Z ->
          exists crumb0,
            build_heading_hierarchy before
            = build_heading_hierarchy earlier ++ [crumb0]
            /\ crumb = (crumb0 ++ " > " ++ get (text h) "")%string)
    /\ ((forall x, In x before -> (1 <= get (level x) 0)%Z) ->
        get (level h) 0 = 1%Z ->
        crumb = get (text h) "").
Proof.
  unfold build_heading_hierarchy.
  rewrite fold_left_app. cbn [fold_left].
  set (st := fold_left heading_step before (HeadingState [] 0 [])).
  destruct (heading_step_state st h) as (Hlvl & path & Hcur & Hout & Hkeep & Hcut).
  destruct (hierarchy_out_fold after (heading_step st h)) as (tail & E & Hlen).
  exists (join " > " (path ++ [get (text h) ""])), tail.
  split; [|split; [|split; [|split; [|split]]]].
  - rewrite E, Hout, <- app_assoc. reflexivity.
  - unfold st. destruct (hierarchy_out_fold before (HeadingState [] 0 []))
      as (t0 & E0 & Hlen0). rewrite E0. exact Hlen0.
  - exact Hlen.
  - apply join_ends_with.
  - intros earlier h0 Hbefore Hdeeper.
    set (st0 := fold_left heading_step earlier (HeadingState [] 0 [])).
    assert (Hst : st = heading_step st0 h0).
    { unfold st, st0. rewrite Hbefore, fold_left_app. reflexivity. }
    destruct (heading_step_state st0 h0) as (Hlvl0 & path0 & Hcur0 & Hout0 & _ & _).
    exists (join " > " (path0 ++ [get (text h0) ""])).
    split.
    + fold st. rewrite Hst. exact Hout0.
    + assert (Hpath : path = path0 ++ [get (text h0) ""]).
      { rewrite <- Hcur0, <- Hst. apply Hkeep. rewrite Hst, Hlvl0.
        apply Z.leb_gt. exact Hdeeper. }
      rewrite Hpath. apply join_snoc. destruct path0; discriminate.
  - intros Hlevels Hone.
    assert (Hpath : path = []).
    { destruct (get (level h) 0 <=? current_level st)%Z eqn:Hle.
      - rewrite (Hcut eq_refl), Hone. reflexivity.
      - rewrite (Hkeep eq_refl). apply Z.leb_gt in Hle. rewrite Hone in Hle.
        unfold st in *. clear - Hlevels Hle.
        destruct before as [|b0 before']; [reflexivity|].
        assert (Hne : b0 :: before' <> []) by discriminate.
        destruct (exists_last Hne) as (front & z & Hlast). rewrite Hlast in *.
        exfalso. rewrite fold_left_app in Hle. cbn [fold_left] in Hle.
        unfold heading_step in Hle at 1. cbn [current_level] in Hle.
        specialize (Hlevels z). assert (In z (front ++ [z])) as Hz
          by (apply in_or_app; right; left; reflexivity).
        specialize (Hlevels Hz). lia. }
    rewrite Hpath. reflexivity.
Qed.

Lemma digit_code (d : nat) : (d < 10)%nat -> (code (ascii_of_nat (48 + d)) - 48 = d)%nat.
Proof.
  intros Hd. unfold code. rewrite nat_ascii_embedding by lia. lia.
Qed.

Lemma parse_digits_aux (fuel : nat) :
  forall n acc, (n < fuel)%nat ->
    parse_from 0 (digits_aux fuel n acc) = parse_from n acc.
Proof.
  induction fuel as [|fuel IH]; intros n acc Hn; [lia|].
  cbn [digits_aux].
  assert (Hd : (n mod 10 < 10)%nat) by (apply Nat.mod_upper_bound; lia).
  destruct (n <? 10)%nat eqn:Hsmall.
  - apply Nat.ltb_lt in Hsmall. cbn [parse_from].
    rewrite digit_code by exact Hd. rewrite Nat.mod_small by exact Hsmall.
    reflexivity.
  - apply Nat.ltb_ge in Hsmall.
    rewrite IH.
    + cbn [parse_from]. rewrite digit_code by exact Hd.
      rewrite <- (Nat.div_mod_eq n 10). reflexivity.
    + assert (n / 10 < n)%nat by (apply Nat.div_lt; lia). lia.
Qed.

(** Reading back what [str] writes gives the number. *)
Lemma parse_str_of_nat (n : nat) : parse_nat (str_of_nat n) = n.
Proof.
  unfold parse_nat, str_of_nat. rewrite parse_digits_aux by lia. reflexivity.
Qed.

Lemma str_of_nat_inj (i j : nat) : str_of_nat i = str_of_nat j -> i = j.
Proof.
  intros E. rewrite <- (parse_str_of_nat i), <- (parse_str_of_nat j), E. reflexivity.
Qed.

Lemma append_inj_l (a b c : string) : (a ++ b = a ++ c)%string -> b = c.
Proof.
  induction a as [|x a IH]; cbn [append]; intros E; [exact E|].
  injection E as E. apply IH. exact E.
Qed.

Lemma enumerate_from_nth {A : Type} (xs : list A) :
  forall k i x, nth_error xs i = Some x ->
    nth_error (enumerate_from k xs) i = Some ((k + i)%nat, x).
Proof.
  induction xs as [|y xs IH]; intros k i x Hn.
  - destruct i; discriminate.
  - destruct i as [|i]; cbn [nth_error enumerate_from] in *.
    + injection Hn as <-. rewrite Nat.add_0_r. reflexivity.
    + rewrite (IH (S k) i x Hn). f_equal. f_equal. lia.
Qed.

Lemma enumerate_from_indexes {A : Type} (xs : list A) :
  forall k, map fst (enumerate_from k xs) = seq k (List.length xs).
Proof.
  induction xs as [|y xs IH]; intros k; cbn [enumerate_from map seq List.length fst].
  - reflexivity.
  - rewrite IH. reflexivity.
Qed.

Lemma enumerate_from_values {A : Type} (xs : list A) :
  forall k, map snd (enumerate_from k xs) = xs.
Proof.
  induction xs as [|y xs IH]; intros k; cbn [enumerate_from map snd].
  - reflexivity.
  - rewrite IH. reflexivity.
Qed.

Lemma NoDup_map_inj {A B : Type} (f : A -> B) (l : list A) :
  (forall x y, f x = f y -> x = y) -> NoDup l -> NoDup (map f l).
Proof.
  intros Hinj. induction 1 as [|x l Hx Hnd IH]; cbn [map]; constructor; [|exact IH].
  rewrite in_map_iff. intros (y & E & Hy). apply Hinj in E. subst y. contradiction.
Qed.

(** X9. The chunks prepared from a document are the chunk texts of its
    content, in order; chunk number [i] (from 0) has the id
    [platform_i], so the ids of one document are pairwise different.
    The id is made of the platform and the number only: two documents of
    one platform get the same id for their chunks of the same number. *)
Theorem chunk_ids_number_the_chunks
    (sent_tokenize : string -> list string) (data : Document)
    (chunk_size chunk_overlap : Z) :
  map chunk_content (prepare_document_chunks sent_tokenize data chunk_size chunk_overlap)
  = split_text_into_chunks sent_tokenize (get (doc_content data) "")
                           chunk_size chunk_overlap
  /\ (forall i chunk,
        nth_error (prepare_document_chunks sent_tokenize data chunk_size chunk_overlap) i
        = Some chunk ->
        chunk_id chunk
        = (get (doc_platform data) "unknown" ++ "_" ++ str_of_nat i)%string
        /\ parse_nat (str_of_nat i) = i)
  /\ NoDup (map chunk_id
               (prepare_document_chunks sent_tokenize data chunk_size chunk_overlap))
  /\ (forall (other : Document) i chunk chunk',
        doc_platform other = doc_platform data ->
        nth_error (prepare_document_chunks sent_tokenize data chunk_size chunk_overlap) i
        = Some chunk ->
        nth_error (prepare_document_chunks sent_tokenize other chunk_size chunk_overlap) i
        = Some chunk' ->
        chunk_id chunk' = chunk_id chunk).
Proof.
  assert (Hnth : forall d i chunk,
             nth_error (prepare_document_chunks sent_tokenize d chunk_size chunk_overlap) i
             = Some chunk ->
             chunk_id chunk = (get (doc_platform d) "unknown" ++ "_" ++ str_of_nat i)%string).
  { intros d i chunk Hn. unfold prepare_document_chunks in Hn.
    rewrite nth_error_map in Hn.
    destruct (nth_error (enumerate_from 0 _) i) as [[j c]|] eqn:He; [|discriminate].
    injection Hn as <-. cbn [chunk_id].
    assert (Hc : exists c0, nth_error
               (split_text_into_chunks sent_tokenize (get (doc_content d) "")
                                       chunk_size chunk_overlap) i = Some c0).
    { destruct (nth_error (split_text_into_chunks sent_tokenize (get (doc_content d) "")
                             chunk_size chunk_overlap) i) as [c0|] eqn:Hc0;
        [eexists; reflexivity|].
      apply nth_error_None in Hc0.
      assert (Hlen : (i < List.length (enumerate_from 0
                  (split_text_into_chunks sent_tokenize (get (doc_content d) "")
                     chunk_size chunk_overlap)))%nat)
        by (apply nth_error_Some; congruence).
      rewrite <- (length_map fst), enumerate_from_indexes, length_seq in Hlen. lia. }
    destruct Hc as [c0 Hc0].
    rewrite (enumerate_from_nth _ 0 i c0 Hc0) in He. injection He as <- <-.
    reflexivity. }
  split; [|split; [|split]].
  - unfold prepare_document_chunks. rewrite map_map.
    rewrite <- (enumerate_from_values
                  (split_text_into_chunks sent_tokenize (get (doc_content data) "")
                     chunk_size chunk_overlap) 0) at 2.
    apply map_ext. intros [i c]. reflexivity.
  - intros i chunk Hn. split; [apply (Hnth data); exact Hn | apply parse_str_of_nat].
  - unfold prepare_document_chunks. rewrite map_map.
    set (texts := split_text_into_chunks sent_tokenize (get (doc_content data) "")
                    chunk_size chunk_overlap).
    replace (map _ (enumerate_from 0 texts))
      with (map (fun i => (get (doc_platform data) "unknown" ++ "_" ++ str_of_nat i)%string)
                (map fst (enumerate_from 0 texts))).
    + rewrite enumerate_from_indexes. apply NoDup_map_inj; [|apply seq_NoDup].
      intros i j E. apply append_inj_l in E. apply append_inj_l in E.
      apply str_of_nat_inj. exact E.
    + rewrite map_map. apply map_ext. intros [i c]. reflexivity.
  - intros other i chunk chunk' Hsame Hn Hn'.
    rewrite (Hnth data i chunk Hn), (Hnth other i chunk' Hn'), Hsame. reflexivity.
Qed.

End PrepareMore.

(* ================================================================== *)
(** * The metadata the chunks of a document share *)
(* ================================================================== *)

Module SharedMetadataSpec.
Import PyStr Data Processors Vocabulary ChunkMetadataSpec PrepareMore.
Open Scope list_scope.

(** Every prepared chunk holds the metadata extracted from the
    document. *)
Lemma prepared_chunk_metadata
    (sent_tokenize : string -> list string) (data : Document)
    (chunk_size chunk_overlap : Z) (chunk : Chunk) :
  In chunk (prepare_document_chunks sent_tokenize data chunk_size chunk_overlap) ->
  chunk_metadata chunk = extract_metadata data
  /\ In (chunk_content chunk)
        (split_text_into_chunks sent_tokenize (get (doc_content data) "")
                                chunk_size chunk_overlap).
Proof.
  intros Hin. unfold prepare_document_chunks in Hin.
  apply in_map_iff in Hin. destruct Hin as ([i c] & <- & Hin).
  cbn [chunk_metadata chunk_content]. split; [reflexivity|].
  eapply In_enumerate_from. exact Hin.
Qed.

Lemma length_build_heading_hierarchy (headings : list Heading) :
  List.length (build_heading_hierarchy headings) = List.length headings.
Proof.
  unfold build_heading_hierarchy. rewrite length_fold_heading_step. reflexivity.
Qed.

(** The breadcrumb of one heading of a document, where it stands in the
    hierarchy and what it is made of. *)
Lemma breadcrumb_of_heading (before after : list Heading) (h : Heading) :
  exists crumb,
    nth_error (build_heading_hierarchy (before ++ h :: after)) (List.length before)
    = Some crumb
    /\ (exists path, crumb = (path ++ get (text h) "")%string)
    /\ (forall earlier h0,
          before = earlier ++ [h0] ->
          (get (level h0) 0 < get (level h) 0)%Z ->
          exists crumb0,
            nth_error (build_heading_hierarchy (before ++ h :: after))
                      (List.length earlier) = Some crumb0
            /\ crumb = (crumb0 ++ " > " ++ get (text h) "")%string)
    /\ ((forall x, In x before -> (1 <= get (level x) 0)%Z) ->
        get (level h) 0 = 1%Z ->
        crumb = get (text h) "").
Proof.
  assert (Hsplit : forall front x back,
             exists path tail,
               build_heading_hierarchy (front ++ x :: back)
               = build_heading_hierarchy front
                   ++ join " > " (path ++ [get (text x) ""]) :: tail
               /\ current_hierarchy
                    (heading_step (fold_left heading_step front (HeadingState [] 0 [])) x)
                  = path ++ [get (text x) ""]
               /\ ((get (level x) 0
                      <=? current_level (fold_left heading_step front (HeadingState [] 0 [])))%Z
                   = false ->
                   path = current_hierarchy
                            (fold_left heading_step front (HeadingState [] 0 [])))
               /\ ((get (level x) 0
                      <=? current_level (fold_left heading_step front (HeadingState [] 0 [])))%Z
                   = true ->
                   path = slice_to (get (level x) 0 - 1)
                            (current_hierarchy
                               (fold_left heading_step front (HeadingState [] 0 []))))).
  { intros front x back. unfold build_heading_hierarchy.
    rewrite fold_left_app. cbn [fold_left].
    set (st := fold_left heading_step front (HeadingState [] 0 [])).
    destruct (heading_step_state st x) as (_ & path & Hcur & Hout & Hkeep & Hcut).
    destruct (hierarchy_out_fold back (heading_step st x)) as (tail & E & _).
    exists path, tail. split; [|split; [|split]]; auto.
    rewrite E, Hout, <- app_assoc. reflexivity. }
  destruct (Hsplit before h after) as (path & tail & Hb & Hcur & Hkeep & Hcut).
  exists (join " > " (path ++ [get (text h) ""])).
  split; [|split; [|split]].
  - rewrite Hb, nth_error_app2 by (rewrite length_build_heading_hierarchy; apply Nat.le_refl).
    rewrite length_build_heading_hierarchy, Nat.sub_diag. reflexivity.
  - apply join_ends_with.
  - intros earlier h0 Hbefore Hdeeper.
    destruct (Hsplit earlier h0 (@nil Heading)) as (path0 & tail0 & Hb0 & Hcur0 & _ & _).
    assert (Hst : fold_left heading_step before (HeadingState [] 0 [])
                  = heading_step (fold_left heading_step earlier (HeadingState [] 0 [])) h0).
    { rewrite Hbefore, fold_left_app. reflexivity. }
    exists (join " > " (path0 ++ [get (text h0) ""])). split.
    + rewrite Hb, <- Hbefore in *. rewrite Hb0.
      rewrite <- app_assoc.
      rewrite nth_error_app2 by (rewrite length_build_heading_hierarchy; apply Nat.le_refl).
      rewrite length_build_heading_hierarchy, Nat.sub_diag. reflexivity.
    + assert (Hpath : path = path0 ++ [get (text h0) ""]).
      { rewrite <- Hcur0, <- Hst. apply Hkeep. rewrite Hst.
        destruct (heading_step_state
                    (fold_left heading_step earlier (HeadingState [] 0 [])) h0) as (-> & _).
        apply Z.leb_gt. exact Hdeeper. }
      rewrite Hpath. apply join_snoc. destruct path0; discriminate.
  - intros Hlevels Hone.
    assert (Hpath : path = []).
    { destruct (get (level h) 0
                  <=? current_level (fold_left heading_step before (HeadingState [] 0 [])))%Z
        eqn:Hle.
      - rewrite (Hcut eq_refl), Hone. reflexivity.
      - rewrite (Hkeep eq_refl). apply Z.leb_gt in Hle. rewrite Hone in Hle.
        clear - Hlevels Hle.
        destruct before as [|b0 before']; [reflexivity|].
        assert (Hne : b0 :: before' <> []) by discriminate.
        destruct (exists_last Hne) as (front & z & Hlast). rewrite Hlast in *.
        exfalso. rewrite fold_left_app in Hle. cbn [fold_left] in Hle.
        unfold heading_step in Hle at 1. cbn [current_level] in Hle.
        specialize (Hlevels z). assert (In z (front ++ [z])) as Hz
          by (apply in_or_app; right; left; reflexivity).
        specialize (Hlevels Hz). lia. }
    rewrite Hpath. reflexivity.
Qed.

(** C10. All the chunks prepared from a document carry one metadata
    record, and so do the chunks prepared from the same document with any
    other content: the metadata does not depend on the part of the
    content a chunk covers.  The record has the document's platform,
    title and url (or their defaults), the document type guessed from the
    title, and the heading hierarchy of the whole document: one
    breadcrumb for each heading of the document, in order, each ending
    with the text of its heading; the breadcrumb of a heading deeper than
    the heading before it is that heading's breadcrumb, [" > "] and its
    own text, and the breadcrumb of a heading of level 1 that follows
    headings of level 1 or more is its own text. *)
Theorem chunks_share_document_metadata
    (sent_tokenize : string -> list string) (data : Document)
    (chunk_size chunk_overlap : Z) (chunk : Chunk) :
  In chunk (prepare_document_chunks sent_tokenize data chunk_size chunk_overlap) ->
  (forall other,
      In other (prepare_document_chunks sent_tokenize data chunk_size chunk_overlap) ->
      chunk_metadata other = chunk_metadata chunk)
  /\ (forall content other,
        In other (prepare_document_chunks sent_tokenize (with_content content data)
                                          chunk_size chunk_overlap) ->
        chunk_metadata other = chunk_metadata chunk)
  /\ platform (chunk_metadata chunk) = Some (get (doc_platform data) "unknown")
  /\ title (chunk_metadata chunk) = Some (get (doc_title data) "")
  /\ url (chunk_metadata chunk) = Some (get (doc_url data) "")
  /\ doc_type (chunk_metadata chunk) = Some (guess_doc_type (get (doc_title data) ""))
  /\ (exists hierarchy,
        heading_hierarchy (chunk_metadata chunk) = Some hierarchy
        /\ List.length hierarchy = List.length (get (doc_headings data) [])
        /\ forall before h after,
             get (doc_headings data) [] = before ++ h :: after ->
             exists crumb,
               nth_error hierarchy (List.length before) = Some crumb
               /\ (exists path, crumb = (path ++ get (text h) "")%string)
               /\ (forall earlier h0,
                     before = earlier ++ [h0] ->
                     (get (level h0) 0 < get (level h) 0)%Z ->
                     exists crumb0,
                       nth_error hierarchy (List.length earlier) = Some crumb0
                       /\ crumb = (crumb0 ++ " > " ++ get (text h) "")%string)
               /\ ((forall x, In x before -> (1 <= get (level x) 0)%Z) ->
                   get (level h) 0 = 1%Z ->
                   crumb = get (text h) ""))
  /\ In (chunk_content chunk)
        (split_text_into_chunks sent_tokenize (get (doc_content data) "")
                                chunk_size chunk_overlap).
Proof.
  intros Hin.
  destruct (prepared_chunk_metadata sent_tokenize data chunk_size chunk_overlap chunk Hin)
    as [Hmeta Hcontent].
  rewrite Hmeta.
  split; [|split; [|split; [|split; [|split; [|split; [|split]]]]]];
    try reflexivity; try exact Hcontent.
  - intros other Hother.
    apply (prepared_chunk_metadata sent_tokenize data chunk_size chunk_overlap other Hother).
  - intros content other Hother.
    apply prepared_chunk_metadata in Hother. destruct Hother as [-> _].
    destruct data; reflexivity.
  - exists (build_heading_hierarchy (get (doc_headings data) [])).
    split; [reflexivity|]. split; [apply length_build_heading_hierarchy|].
    intros before h after ->. apply breadcrumb_of_heading.
Qed.

Lemma chunks_share_document_metadata_witness :
  prepare_document_chunks sample_tokenize sample_document 8 0
  = [ Build_Chunk "Open it." "segment_0" (extract_metadata sample_document);
      Build_Chunk "Save it." "segment_1" (extract_metadata sample_document) ]
  /\ chunk_metadata (Build_Chunk "Open it." "segment_0" (extract_metadata sample_document))
     = chunk_metadata (Build_Chunk "Save it." "segment_1" (extract_metadata sample_document))
  /\ heading_hierarchy
       (chunk_metadata (Build_Chunk "Save it." "segment_1" (extract_metadata sample_document)))
     = Some ["Sources"; "Sources > Add a source"].
Proof.
  assert (Hchunks : prepare_document_chunks sample_tokenize sample_document 8 0
                    = [ Build_Chunk "Open it." "segment_0" (extract_metadata sample_document);
                        Build_Chunk "Save it." "segment_1"
                                    (extract_metadata sample_document) ])
    by (vm_compute; reflexivity).
  split; [exact Hchunks|].
  destruct (chunks_share_document_metadata sample_tokenize sample_document 8 0
              (Build_Chunk "Save it." "segment_1" (extract_metadata sample_document)))
    as (Hsame & _ & _ & _ & _ & _ & (hierarchy & Hh & Hlen & Hcrumbs) & _).
  - rewrite Hchunks. right. left. reflexivity.
  - split.
    + apply Hsame. rewrite Hchunks. left. reflexivity.
    + vm_compute. reflexivity.
Defined.

End SharedMetadataSpec.


(* ================================================================== *)
(** * More on the ranker *)
(* ================================================================== *)

Module RankerMore.
Import PyStr PyFloat Data Ranker FloatFacts Vocabulary RankerScore RankerFilter.
Open Scope list_scope.

Lemma insert_desc_perm (x : Result) (l : list Result) :
  Permutation (insert_desc x l) (x :: l).
Proof.
  induction l as [|y l IH]; cbn [insert_desc].
  - apply Permutation_refl.
  - destruct (flt (sort_key x) (sort_key y)).
    + apply perm_trans with (y :: x :: l); [apply perm_skip; exact IH | apply perm_swap].
    + apply Permutation_refl.
Qed.

Lemma sorted_desc_perm (l : list Result) : Permutation (sorted_desc l) l.
Proof.
  induction l as [|x l IH]; cbn [sorted_desc fold_right].
  - apply Permutation_refl.
  - fold (sorted_desc l).
    apply perm_trans with (x :: sorted_desc l); [apply insert_desc_perm|].
    apply perm_skip. exact IH.
Qed.

(** X10. [rank_results] drops nothing and invents nothing: its result is
    a rearrangement of the input results, each with its three scores
    added and its content, metadata, id and distance as they were.  When
    no final score is a NaN the result is in descending order of
    [final_score]. *)
Theorem rank_results_rearranges_scored_results (results : list Result) (query : string) :
  Permutation (rank_results results query) (map (score_result query) results)
  /\ List.length (rank_results results query) = List.length results
  /\ (forall r, In r (rank_results results query) ->
        exists r0, In r0 results
          /\ content r = content r0 /\ metadata r = metadata r0
          /\ id r = id r0 /\ distance r = distance r0
          /\ final_score r <> None)
  /\ ((forall r, In r (rank_results results query) ->
         fle (get (final_score r) f0_0) (get (final_score r) f0_0) = true) ->
      sorted_by_final_score (rank_results results query)).
Proof.
  assert (Hperm : Permutation (rank_results results query)
                              (map (score_result query) results)).
  { unfold rank_results. destruct results as [|r0 results]; [apply Permutation_refl|].
    apply sorted_desc_perm. }
  split; [exact Hperm|]. split; [|split].
  - rewrite (Permutation_length Hperm). apply length_map.
  - intros r Hin. apply In_rank_results in Hin. destruct Hin as (r0 & Hin & ->).
    exists r0. cbn. repeat split; auto. discriminate.
  - apply rank_results_sorted.
Qed.

Lemma rank_results_rearranges_scored_results_witness :
  sorted_by_final_score (rank_results [boundary_result; sample_result] "add a source").
Proof.
  apply (proj2 (proj2 (proj2 (rank_results_rearranges_scored_results
                                [boundary_result; sample_result] "add a source")))).
  intros r Hin. vm_compute in Hin.
  destruct Hin as [<-|[<-|[]]]; vm_compute; reflexivity.
Defined.

(** X11. The content score is never above 1.0 and never a NaN, whatever
    the content and the query. *)
Theorem content_score_at_most_one (content query : string) :
  fle (_calculate_content_relevance_score content query) f1_0 = true.
Proof.
  unfold _calculate_content_relevance_score.
  destruct (List.length (Re.findall word_pattern (lower content)) =? 0)%nat.
  - vm_compute. reflexivity.
  - unfold fmin.
    match goal with |- context [flt ?x f1_0] => destruct (flt x f1_0) eqn:Hlt end.
    + apply flt_fle. exact Hlt.
    + vm_compute. reflexivity.
Qed.

Section Dedup.

Variable hash : string -> Z.

Lemma unique_loop_again (l : list Result) :
  forall seen seen',
    (forall h, In h seen' -> In h seen) ->
    unique_loop hash (unique_loop hash l seen) seen' = unique_loop hash l seen.
Proof.
  induction l as [|a l IH]; intros seen seen' Hsub.
  - reflexivity.
  - rewrite (unique_loop_cons hash a l seen).
    destruct (seen_in (prefix_hash hash a) seen) eqn:Hs.
    + apply IH. exact Hsub.
    + rewrite (unique_loop_cons hash a _ seen').
      destruct (seen_in (prefix_hash hash a) seen') eqn:Hs'.
      * apply seen_in_iff in Hs'. apply Hsub in Hs'. apply seen_in_iff in Hs'. congruence.
      * f_equal. apply IH. intros h [<-|Hh]; [left; reflexivity | right; auto].
Qed.

Lemma unique_loop_above (l : list Result) :
  forall seen,
    (forall r, In r l -> above_threshold r = true) ->
    filter above_threshold (unique_loop hash l seen) = unique_loop hash l seen.
Proof.
  induction l as [|a l IH]; intros seen Hall.
  - reflexivity.
  - rewrite unique_loop_cons.
    destruct (seen_in (prefix_hash hash a) seen).
    + apply IH. intros r Hr. apply Hall. right. exact Hr.
    + cbn [filter]. rewrite (Hall a (or_introl eq_refl)). f_equal.
      apply IH. intros r Hr. apply Hall. right. exact Hr.
Qed.

Lemma unique_loop_length (l : list Result) :
  forall seen, (List.length (unique_loop hash l seen) <= List.length l)%nat.
Proof.
  induction l as [|a l IH]; intros seen.
  - apply Nat.le_refl.
  - rewrite unique_loop_cons. destruct (seen_in (prefix_hash hash a) seen).
    + specialize (IH seen). cbn [List.length]. lia.
    + specialize (IH (prefix_hash hash a :: seen)). cbn [List.length]. lia.
Qed.

End Dedup.

(** X12. Filtering twice is filtering once; filtering never adds a
    result; and the first result of the list is always kept when its
    final score reaches 0.3, so a ranked list that has an acceptable
    result keeps its best one at the head. *)
Theorem filter_results_idempotent_keeps_head (hash : string -> Z) (results : list Result) :
  filter_results hash (filter_results hash results) = filter_results hash results
  /\ (List.length (filter_results hash results) <= List.length results)%nat
  /\ (forall top others,
        results = top :: others ->
        fle f0_3 (get (final_score top) f0_0) = true ->
        exists kept, filter_results hash results = top :: kept).
Proof.
  rewrite !filter_results_unfold. split; [|split].
  - rewrite unique_loop_above.
    + apply unique_loop_again. auto.
    + intros r Hr. apply filter_In in Hr. apply Hr.
  - apply Nat.le_trans with (List.length (filter above_threshold results)).
    + apply unique_loop_length.
    + apply filter_length_le.
  - intros top others -> Habove. cbn [filter].
    unfold above_threshold at 1. rewrite Habove.
    rewrite unique_loop_cons. cbn. eexists. reflexivity.
Qed.

Lemma filter_results_idempotent_keeps_head_witness :
  exists kept, filter_results length_hash scored_sample
               = scored "Segment sources collect data." f0_8 :: kept.
Proof.
  apply (proj2 (proj2 (filter_results_idempotent_keeps_head length_hash scored_sample))
               (scored "Segment sources collect data." f0_8)
               (tl scored_sample) eq_refl).
  vm_compute. reflexivity.
Defined.

End RankerMore.

(* ================================================================== *)
(** * The query processor and the chat route *)
(* ================================================================== *)

Module PipelineMore.
Import PyStr PyFloat Re Data Config Retriever Ranker ResponseGenerator Vocabulary.
Import QueryProcessor RetrieverSpec RankerScore RankerFilter ResponseSpec.
Open Scope string_scope.
Open Scope list_scope.

(** One iteration of a greedy star over a character class. *)
Lemma run_star_cls_cons {R : Type} (q : ascii -> bool) (c : ascii) (s : string)
    (p : option ascii) (cs : list (nat * string)) (k : mstate -> option R) :
  run (Star (Cls q)) (MState p (String c s) cs) k
  = match (if q c then run (Star (Cls q)) (MState (Some c) s cs) k else None) with
    | Some x => Some x
    | None => k (MState p (String c s) cs)
    end.
Proof.
  cbn [run rest String.length step caps].
  destruct (q c); [|reflexivity].
  unfold progress. cbn [rest String.length].
  replace (String.length s <? S (String.length s))%nat with true
    by (symmetry; apply Nat.ltb_lt; lia).
  reflexivity.
Qed.

Lemma run_star_cls_nil {R : Type} (q : ascii -> bool)
    (p : option ascii) (cs : list (nat * string)) (k : mstate -> option R) :
  run (Star (Cls q)) (MState p "" cs) k = k (MState p "" cs).
Proof. reflexivity. Qed.

(** A greedy star over a class takes a text made of the class whole. *)
Lemma run_star_cls_all (q : ascii -> bool) (s : string) :
  forall p cs,
    all_chars q s = true ->
    exists p', run (Star (Cls q)) (MState p s cs) (fun st => Some st)
               = Some (MState p' "" cs).
Proof.
  induction s as [|c s IH]; intros p cs Hall.
  - exists p. reflexivity.
  - cbn [all_chars] in Hall. apply andb_prop in Hall. destruct Hall as [Hc Hs].
    rewrite run_star_cls_cons, Hc.
    destruct (IH (Some c) cs Hs) as [p' ->]. exists p'. reflexivity.
Qed.

Lemma run_plus_cls_cons {R : Type} (q : ascii -> bool) (c : ascii) (s : string)
    (p : option ascii) (cs : list (nat * string)) (k : mstate -> option R) :
  run (Plus (Cls q)) (MState p (String c s) cs) k
  = if q c then run (Star (Cls q)) (MState (Some c) s cs) k else None.
Proof. reflexivity. Qed.

Lemma run_plus_cls_nil {R : Type} (q : ascii -> bool)
    (p : option ascii) (cs : list (nat * string)) (k : mstate -> option R) :
  run (Plus (Cls q)) (MState p "" cs) k = None.
Proof. reflexivity. Qed.

Lemma take_all (s : string) : take (String.length s) s = s.
Proof.
  induction s as [|c s IH]; cbn [String.length take]; [reflexivity | now rewrite IH].
Qed.

Lemma lower_keeps_spaces (s : string) :
  all_chars is_space s = true -> lower s = s.
Proof.
  induction s as [|c s IH]; cbn [all_chars lower]; intros Hall; [reflexivity|].
  apply andb_prop in Hall. destruct Hall as [Hc Hs]. rewrite (IH Hs). f_equal.
  unfold lower_char.
  destruct (is_upper c) eqn:Hu; [|reflexivity].
  exfalso. revert Hc Hu. unfold is_space, is_upper, in_range.
  destruct (Nat.leb_spec 65 (code c)), (Nat.leb_spec (code c) 90); try discriminate.
  intros Hc _.
  destruct (Nat.leb_spec 9 (code c)), (Nat.leb_spec (code c) 13),
           (Nat.leb_spec 28 (code c)), (Nat.leb_spec (code c) 31),
           (Nat.eqb_spec (code c) 32); cbn in Hc; try discriminate; lia.
Qed.

Lemma lstrip_spaces (s : string) : all_chars is_space s = true -> lstrip s = "".
Proof.
  induction s as [|c s IH]; cbn [all_chars lstrip]; intros Hall; [reflexivity|].
  apply andb_prop in Hall. destruct Hall as [-> Hs]. apply IH. exact Hs.
Qed.

(** A query made of whitespace only is empty after preprocessing. *)
Lemma preprocess_whitespace (query : string) :
  all_chars is_space query = true -> _preprocess_query query = "".
Proof.
  intros Hall. unfold _preprocess_query. rewrite (lower_keeps_spaces query Hall).
  assert (Hsub : lstrip (sub (Plus Space) " " query) = "").
  { destruct query as [|c s]; [reflexivity|].
    cbn [all_chars] in Hall. apply andb_prop in Hall. destruct Hall as [Hc Hs].
    destruct (run_star_cls_all is_space s (Some c) [] Hs) as [p' Hrun].
    unfold sub, finditer. cbn [finditer_from String.length].
    assert (Hm : match_at (Plus Space) (MState None (String c s) [])
                 = Some (RMatch (String c s) [] (MState p' "" []))).
    { unfold match_at, Space. cbn [rest prev].
      rewrite run_plus_cls_cons, Hc, Hrun.
      unfold consumed. cbn [rest String.length caps prev].
      rewrite Nat.sub_0_r.
      change (take (S (String.length s)) (String c s))
        with (String c (take (String.length s) s)).
      rewrite take_all. reflexivity. }
    cbn [search_from]. rewrite Hm. cbn [m_text m_end rest prev].
    destruct (String.length s); reflexivity. }
  unfold strip. rewrite Hsub. reflexivity.
Qed.

Lemma length_zero_iff (s : string) : (String.length s =? 0)%nat = true <-> s = "".
Proof.
  destruct s; cbn; split; intros H; try reflexivity; discriminate.
Qed.

Lemma routing_none (processed : string) :
  (forall w, In w routing_words -> contains w processed = false) ->
  existsb (fun pattern => contains pattern processed) routing_words = false.
Proof. intros H. apply existsb_false_iff. exact H. Qed.

(** Every routing word has a character, so a routed query is not empty. *)
Lemma routed_nonempty (processed : string) :
  existsb (fun pattern => contains pattern processed) routing_words = true ->
  (String.length processed =? 0)%nat = false.
Proof.
  destruct processed; [vm_compute; discriminate | reflexivity].
Qed.

(** The filter [retrieve] builds is the platform filter of the query. *)
Lemma retrieve_filter (processed : string) :
  (if Processors.nonempty
        (if truthy (_extract_cdp_from_query processed)
         then dict_set "platform" (get (_extract_cdp_from_query processed) "") []
         else [])
   then Some (if truthy (_extract_cdp_from_query processed)
              then dict_set "platform" (get (_extract_cdp_from_query processed) "") []
              else [])
   else None) = platform_filter processed.
Proof.
  unfold platform_filter.
  destruct (_extract_cdp_from_query processed) as [c|] eqn:Hc; [|reflexivity].
  assert (Hne : truthy (Some c) = true).
  { unfold _extract_cdp_from_query, first_such in Hc. apply find_some in Hc.
    destruct Hc as [Hin _]. unfold cdp_names in Hin. simpl in Hin.
    repeat (destruct Hin as [<-|Hin]; [reflexivity|]). contradiction. }
  rewrite Hne. reflexivity.
Qed.

Lemma In_filter_results (hash : string -> Z) (r : Result) (results : list Result) :
  In r (filter_results hash results) -> In r results /\ above_threshold r = true.
Proof.
  rewrite filter_results_unfold. intros Hin.
  apply unique_loop_split in Hin. destruct Hin as (l1 & l2 & E & _).
  apply filter_In. rewrite E. apply in_or_app. right. left. reflexivity.
Qed.

(** The comparison path raises when the feature extraction does, before
    any call of the index. *)
Lemma comparison_query_raises
    (vector_store_query : string -> Z -> option (dict string) -> list Result)
    (hash : string -> Z) (query : string) (tr : list IndexCall) :
  _extract_feature_for_comparison query = IndexError ->
  _process_comparison_query vector_store_query hash query tr = (IndexError, tr).
Proof.
  intros Hf. unfold _process_comparison_query, bind, retrieve_for_comparison.
  rewrite Hf. reflexivity.
Qed.

(** No platform has a result within the threshold. *)
Lemma existsb_platform_entries
    (vector_store_query : string -> Z -> option (dict string) -> list Result)
    (text : string) (n : Z) (platforms : list string) :
  existsb (fun item : string * list Result => Processors.nonempty (snd item))
          (map (platform_entry vector_store_query text n) platforms) = false
  <-> forall cdp, In cdp platforms ->
        filter within_threshold (vector_store_query text n (Some [("platform", cdp)])) = [].
Proof.
  rewrite existsb_false_iff. split.
  - intros H cdp Hin.
    specialize (H (platform_entry vector_store_query text n cdp) (in_map _ _ _ Hin)).
    unfold platform_entry in H. cbn [snd] in H.
    destruct (filter within_threshold _); [reflexivity | discriminate].
  - intros H item Hin. apply in_map_iff in Hin. destruct Hin as (cdp & <- & Hin).
    unfold platform_entry. cbn [snd]. rewrite (H cdp Hin). reflexivity.
Qed.

(** X13. A message that is empty or made of whitespace only is answered
    without any call of the index: [process_query] returns the error data
    with the message as it was sent, and the chat route replies 200 with
    the text "Please provide a valid question." *)
Theorem blank_message_is_asked_for_a_question
    (vector_store_query : string -> Z -> option (dict string) -> list Result)
    (hash : string -> Z) (query : string) (conversation : option string)
    (tr : list IndexCall) :
  all_chars is_space query = true ->
  process_query vector_store_query hash query tr
  = (Ok (RegularData query
           (Build_QueryResponse (Some "error") (Some "Please provide a valid question.")
              None (Some (Build_QueryAnalysis None None (Some false))))), tr)
  /\ chat vector_store_query hash (Some (Build_ChatRequest (Some query) conversation)) tr
     = (Reply 200 (text_response "Please provide a valid question.") conversation
              (hash (get conversation "None" ++ "_" ++ query)%string), tr).
Proof.
  intros Hall.
  assert (Hp : process_query vector_store_query hash query tr
    = (Ok (RegularData query
           (Build_QueryResponse (Some "error") (Some "Please provide a valid question.")
              None (Some (Build_QueryAnalysis None None (Some false))))), tr)).
  { unfold process_query. rewrite (preprocess_whitespace query Hall). reflexivity. }
  split; [exact Hp|].
  unfold chat. cbn [message conversation_id]. unfold bind. rewrite Hp. reflexivity.
Qed.

Lemma blank_message_is_asked_for_a_question_witness :
  fst (chat sample_index length_hash (Some (Build_ChatRequest (Some "  ") None)) [])
  = Reply 200 (text_response "Please provide a valid question.") None
          (length_hash "None_  ").
Proof.
  rewrite (proj2 (blank_message_is_asked_for_a_question sample_index length_hash "  " None []
                    eq_refl)).
  reflexivity.
Defined.

(** X14. A message whose preprocessed text is not empty, contains none
    of the routing words compare, vs, versus, difference between, and
    contains no term of the relevance vocabulary is answered with the
    "not related to the CDP platforms" text and status 200, and the index
    is never called. *)
Theorem unrelated_message_never_reaches_index
    (vector_store_query : string -> Z -> option (dict string) -> list Result)
    (hash : string -> Z) (query processed : string) (conversation : option string)
    (tr : list IndexCall) :
  _preprocess_query query = processed ->
  processed <> "" ->
  (forall w, In w routing_words -> contains w processed = false) ->
  (forall term, In term relevance_vocabulary -> contains term (lower processed) = false) ->
  chat vector_store_query hash (Some (Build_ChatRequest (Some query) conversation)) tr
  = (Reply 200 (text_response irrelevant_message) conversation
           (hash (get conversation "None" ++ "_" ++ query)%string), tr).
Proof.
  intros Hpre Hne Hroute Hrel.
  apply not_relevant_iff in Hrel. apply routing_none in Hroute.
  unfold chat. cbn [message conversation_id]. unfold bind, process_query.
  rewrite Hpre.
  destruct (String.length processed =? 0)%nat eqn:Hlen.
  { apply length_zero_iff in Hlen. contradiction. }
  rewrite Hroute. unfold bind, _process_regular_query, bind, retrieve.
  rewrite Hrel. reflexivity.
Qed.

Lemma unrelated_message_never_reaches_index_witness :
  chat sample_index length_hash
       (Some (Build_ChatRequest (Some "What's   the weather  today?! ") None)) []
  = (Reply 200 (text_response irrelevant_message) None
           (length_hash "None_What's   the weather  today?! "), []).
Proof.
  apply (unrelated_message_never_reaches_index sample_index length_hash
           "What's   the weather  today?! " "whats the weather today?" None []).
  - vm_compute. reflexivity.
  - discriminate.
  - intros w Hw. unfold routing_words in Hw. simpl in Hw.
    repeat (destruct Hw as [<-|Hw]; [vm_compute; reflexivity|]). contradiction.
  - intros t Ht. unfold relevance_vocabulary in Ht. simpl in Ht.
    repeat (destruct Ht as [<-|Ht]; [vm_compute; reflexivity|]). contradiction.
Defined.

(** X15. A message whose preprocessed text is not empty, has no routing
    word and contains a term of the relevance vocabulary makes exactly one
    call of the index: the preprocessed text, [TOP_K_RESULTS], and the
    platform filter of the text.  When no result of the reply has a null
    distance or a distance below the threshold, the data has type
    "no_results" and no results.  Otherwise it has type "answer" and its
    results are the kept results ranked and filtered: each has a final
    score of at least 0.3 and is the scored copy of a result of the
    index's reply that passed the distance test. *)
Theorem answer_is_ranked_filtered_index_reply
    (vector_store_query : string -> Z -> option (dict string) -> list Result)
    (hash : string -> Z) (query processed : string) (tr : list IndexCall) :
  _preprocess_query query = processed ->
  processed <> "" ->
  (forall w, In w routing_words -> contains w processed = false) ->
  (exists term, In term relevance_vocabulary /\ contains term (lower processed) = true) ->
  exists data,
    process_query vector_store_query hash query tr
    = (Ok (RegularData processed data),
       tr ++ [Build_IndexCall processed TOP_K_RESULTS (platform_filter processed)])
    /\ (filter within_threshold
          (vector_store_query processed TOP_K_RESULTS (platform_filter processed)) = [] ->
        qr_type data = Some "no_results" /\ qr_message data = Some no_results_message
        /\ qr_results data = None)
    /\ (filter within_threshold
          (vector_store_query processed TOP_K_RESULTS (platform_filter processed)) <> [] ->
        qr_type data = Some "answer" /\ qr_message data = None
        /\ exists results,
             qr_results data = Some results
             /\ results = filter_results hash
                  (rank_results
                     (filter within_threshold
                        (vector_store_query processed TOP_K_RESULTS
                           (platform_filter processed))) processed)
             /\ forall r, In r results ->
                  fle f0_3 (get (final_score r) f0_0) = true
                  /\ exists r0,
                       In r0 (vector_store_query processed TOP_K_RESULTS
                                (platform_filter processed))
                       /\ within_threshold r0 = true
                       /\ r = score_result processed r0).
Proof.
  intros Hpre Hne Hroute Hrel.
  apply is_relevant_iff in Hrel. apply routing_none in Hroute.
  unfold process_query. rewrite Hpre.
  destruct (String.length processed =? 0)%nat eqn:Hlen.
  { apply length_zero_iff in Hlen. contradiction. }
  rewrite Hroute. unfold bind, _process_regular_query, bind, retrieve.
  rewrite Hrel. cbn [negb]. unfold bind, query_index. rewrite retrieve_filter.
  unfold ret. cbn [get is_relevant negb].
  destruct (filter within_threshold
              (vector_store_query processed TOP_K_RESULTS (platform_filter processed)))
    as [|a kept] eqn:Hkept.
  - cbn [Processors.nonempty negb]. eexists. split; [reflexivity|].
    split; [intros _; repeat split | intros H; contradiction].
  - cbn [Processors.nonempty negb]. eexists. split; [reflexivity|].
    split; [discriminate|]. intros _. cbn [qr_type qr_message qr_results].
    split; [reflexivity|]. split; [reflexivity|].
    eexists. split; [reflexivity|]. split; [reflexivity|].
    intros r Hr. apply In_filter_results in Hr. destruct Hr as [Hr Habove].
    split; [exact Habove|].
    apply In_rank_results in Hr. destruct Hr as (r0 & Hr0 & ->).
    rewrite <- Hkept in Hr0. apply filter_In in Hr0. destruct Hr0 as [Hin Hw].
    exists r0. repeat split; assumption.
Qed.

Lemma answer_is_ranked_filtered_index_reply_witness :
  exists data,
    process_query sample_index length_hash "How do I add a source in Segment?" []
    = (Ok (RegularData "how do i add a source in segment?" data),
       [Build_IndexCall "how do i add a source in segment?" TOP_K_RESULTS
                        (Some [("platform", "segment")])]).
Proof.
  destruct (answer_is_ranked_filtered_index_reply sample_index length_hash
              "How do I add a source in Segment?" "how do i add a source in segment?" [])
    as (data & Hp & _).
  - vm_compute. reflexivity.
  - discriminate.
  - intros w Hw. unfold routing_words in Hw. simpl in Hw.
    repeat (destruct Hw as [<-|Hw]; [vm_compute; reflexivity|]). contradiction.
  - exists "segment". split; [left; reflexivity | vm_compute; reflexivity].
  - exists data. exact Hp.
Defined.

(** X16. A message routed to the comparison path whose feature extraction
    returns calls the index once for each compared platform, in order,
    with three results asked of each and the same text: the feature when
    one was extracted and is not empty, else the preprocessed query.  When
    no platform has a result whose distance is null or below the
    threshold, the data has type "no_results" and the message of the
    comparison path.  Otherwise it has type "comparison" and holds, for
    each compared platform in order, that platform's kept results ranked
    against the same text and filtered. *)
Theorem comparison_asks_each_platform_for_three
    (vector_store_query : string -> Z -> option (dict string) -> list Result)
    (hash : string -> Z) (query processed : string) (feature : option string)
    (tr : list IndexCall) :
  _preprocess_query query = processed ->
  existsb (fun pattern => contains pattern processed) routing_words = true ->
  _extract_feature_for_comparison processed = Ok feature ->
  exists text data,
    text = (if truthy feature then get feature "" else processed)
    /\ process_query vector_store_query hash query tr
       = (Ok (ComparisonData processed data),
          tr ++ map (platform_call text 3%Z) (compared_platforms processed))
    /\ ((forall cdp, In cdp (compared_platforms processed) ->
           filter within_threshold
                  (vector_store_query text 3%Z (Some [("platform", cdp)])) = []) ->
        cr_type data = Some "no_results"
        /\ cr_message data = Some no_comparison_message
        /\ cr_results data = None)
    /\ (~ (forall cdp, In cdp (compared_platforms processed) ->
             filter within_threshold
                    (vector_store_query text 3%Z (Some [("platform", cdp)])) = []) ->
        cr_type data = Some "comparison"
        /\ cr_results data
           = Some (map (fun cdp =>
                          (cdp,
                           filter_results hash
                             (rank_results
                                (filter within_threshold
                                   (vector_store_query text 3%Z (Some [("platform", cdp)])))
                                text)))
                       (compared_platforms processed))).
Proof.
  intros Hpre Hroute Hfeature.
  exists (if truthy feature then get feature "" else processed).
  unfold process_query. rewrite Hpre, (routed_nonempty processed Hroute), Hroute.
  unfold _process_comparison_query, bind, retrieve_for_comparison. rewrite Hfeature.
  assert (Hc : (if Processors.nonempty (_extract_cdps_for_comparison processed)
                then _extract_cdps_for_comparison processed
                else ["segment"; "mparticle"; "lytics"; "zeotap"])
               = compared_platforms processed).
  { unfold compared_platforms.
    destruct (_extract_cdps_for_comparison processed); reflexivity. }
  rewrite Hc. unfold bind.
  rewrite comparison_loop_entries;
    [|apply compared_platforms_NoDup | intros c _ []].
  cbn [app]. unfold ret.
  destruct (existsb _ (map (platform_entry vector_store_query _ 3%Z) _)) eqn:Hany.
  - cbn [negb]. eexists. split; [reflexivity|]. split; [reflexivity|]. split.
    + intros Hnone. apply existsb_platform_entries in Hnone.
      rewrite Hnone in Hany. discriminate.
    + intros _. cbn [cr_type cr_results]. split; [reflexivity|]. f_equal.
      unfold process_comparison_results. cbn [Retriever.feature].
      rewrite process_loop_entries.
      * cbn [app]. rewrite map_map. reflexivity.
      * rewrite map_map. cbn [platform_entry fst]. rewrite map_id.
        apply compared_platforms_NoDup.
      * intros k _ [].
  - cbn [negb]. eexists. split; [reflexivity|]. split; [reflexivity|]. split.
    + intros _. repeat split.
    + intros Hnot. exfalso. apply Hnot. apply existsb_platform_entries. exact Hany.
Qed.

Lemma comparison_asks_each_platform_for_three_witness :
  exists data,
    process_query sample_index length_hash "Segment vs Lytics" []
    = (Ok (ComparisonData "segment vs lytics" data),
       [platform_call "segment vs lytics" 3%Z "segment";
        platform_call "segment vs lytics" 3%Z "lytics"]).
Proof.
  destruct (comparison_asks_each_platform_for_three sample_index length_hash
              "Segment vs Lytics" "segment vs lytics" None [])
    as (text & data & Ht & Hp & _).
  - vm_compute. reflexivity.
  - vm_compute. reflexivity.
  - vm_compute. reflexivity.
  - exists data. rewrite Hp, Ht. reflexivity.
Defined.

(** X17. A message whose preprocessed text contains a routing word and
    whose feature extraction raises [IndexError] is not answered:
    [process_query] raises before any call of the index, and the chat
    route replies 500 with "An error occurred while processing your
    message.", whatever the index holds and whatever the conversation
    id. *)
Theorem feature_extraction_failure_is_refused
    (vector_store_query : string -> Z -> option (dict string) -> list Result)
    (hash : string -> Z) (query : string) (conversation : option string)
    (tr : list IndexCall) :
  existsb (fun pattern => contains pattern (_preprocess_query query)) routing_words = true ->
  _extract_feature_for_comparison (_preprocess_query query) = IndexError ->
  process_query vector_store_query hash query tr = (IndexError, tr)
  /\ chat vector_store_query hash (Some (Build_ChatRequest (Some query) conversation)) tr
     = (Refused 500 "An error occurred while processing your message.", tr).
Proof.
  intros Hroute Hraise.
  assert (Hp : process_query vector_store_query hash query tr = (IndexError, tr)).
  { unfold process_query.
    rewrite (routed_nonempty _ Hroute), Hroute.
    apply comparison_query_raises. exact Hraise. }
  split; [exact Hp|].
  unfold chat. cbn [message conversation_id]. unfold bind. rewrite Hp. reflexivity.
Qed.

Lemma feature_extraction_failure_is_refused_witness :
  chat sample_index length_hash
       (Some (Build_ChatRequest
                (Some "Difference between Segment and Lytics for audiences") None)) []
  = (Refused 500 "An error occurred while processing your message.", []).
Proof.
  apply (feature_extraction_failure_is_refused sample_index length_hash
           "Difference between Segment and Lytics for audiences" None []);
    vm_compute; reflexivity.
Defined.

End PipelineMore.

(* ================================================================== *)
(** * The response generator: what a response shows *)
(* ================================================================== *)

Module ResponseMore.
Import PyStr PyFloat Data Ranker ResponseGenerator Vocabulary QueryProcessor.
Open Scope string_scope.
Open Scope list_scope.

(** X18. A regular response is made from the first three results alone:
    the top result, and at most two entries of additional information.
    Results after the third never change the response. *)
Theorem regular_response_shows_three_results (data : QueryResponse) :
  generate_regular_response data
  = generate_regular_response
      (with_results (Some (firstn 3 (get (qr_results data) []))) data).
Proof.
  unfold generate_regular_response, with_results.
  cbn [qr_type qr_message qr_results qr_analysis get].
  destruct (type_is (qr_type data) "error"); [reflexivity|].
  destruct (type_is (qr_type data) "irrelevant"); [reflexivity|].
  destruct (type_is (qr_type data) "no_results"); [reflexivity|].
  destruct (get (qr_results data) []) as [|a [|b [|c rest]]]; reflexivity.
Qed.

Lemma nonempty_top_only (item : string * list Result) :
  Processors.nonempty (snd (top_only item)) = Processors.nonempty (snd item).
Proof. destruct item as [cdp [|r rs]]; reflexivity. Qed.

Lemma comparison_entry_top_only (text : string) (item : string * list Result) :
  comparison_entry text (top_only item) = comparison_entry text item.
Proof. destruct item as [cdp [|r rs]]; reflexivity. Qed.

Lemma fold_comparison_entry_top_only (results : dict (list Result)) (text : string) :
  fold_left comparison_entry (map top_only results) text
  = fold_left comparison_entry results text.
Proof.
  revert text. induction results as [|item results IH]; intros text; [reflexivity|].
  cbn [map fold_left]. rewrite comparison_entry_top_only. apply IH.
Qed.

Lemma existsb_top_only (results : dict (list Result)) :
  existsb (fun item : string * list Result => Processors.nonempty (snd item))
          (map top_only results)
  = existsb (fun item : string * list Result => Processors.nonempty (snd item)) results.
Proof.
  induction results as [|item results IH]; [reflexivity|].
  cbn [map existsb]. rewrite nonempty_top_only, IH. reflexivity.
Qed.

Lemma platforms_with_results_top_only (results : dict (list Result)) :
  platforms_with_results (map top_only results) = platforms_with_results results.
Proof.
  unfold platforms_with_results.
  induction results as [|item results IH]; [reflexivity|].
  cbn [map filter]. rewrite nonempty_top_only.
  destruct (Processors.nonempty (snd item)); cbn [List.length]; rewrite IH; reflexivity.
Qed.

(** X19. A comparison response is made from the first result of each
    platform alone: cutting every platform's list down to its first
    result never changes the response. *)
Theorem comparison_response_shows_top_results (data : ComparisonResponse) :
  generate_comparison_response data
  = generate_comparison_response
      (Build_ComparisonResponse (cr_type data) (cr_message data)
         (Some (map top_only (get (cr_results data) []))) (cr_analysis data)).
Proof.
  unfold generate_comparison_response.
  cbn [cr_type cr_message cr_results cr_analysis get].
  destruct (type_is (cr_type data) "no_results"); [reflexivity|].
  rewrite existsb_top_only, fold_comparison_entry_top_only, platforms_with_results_top_only.
  assert (Hne : Processors.nonempty (map top_only (get (cr_results data) []))
                = Processors.nonempty (get (cr_results data) [])).
  { destruct (get (cr_results data) []); reflexivity. }
  rewrite Hne. reflexivity.
Qed.

End ResponseMore.

(* ================================================================== *)
(** * Indexing: the batches and the ids *)
(* ================================================================== *)

Module IndexingMore.
Import PyStr Data Processors Vocabulary SplitterBlocks SplitterMore VectorStore.
Open Scope string_scope.
Open Scope list_scope.

Lemma columns_fold (documents : list StoreDocument) (cols : Columns) :
  ids (fold_left column_step documents cols)
  = ids cols ++ map stored_id (enumerate_from (List.length (ids cols)) documents)
  /\ texts (fold_left column_step documents cols)
     = texts cols ++ map (fun d => get (sd_content d) "") documents
  /\ metadatas (fold_left column_step documents cols)
     = metadatas cols ++ map (fun d => get (sd_metadata d) empty_metadata) documents.
Proof.
  revert cols. induction documents as [|d documents IH]; intros cols.
  - cbn. rewrite !app_nil_r. repeat split.
  - cbn [fold_left]. destruct (IH (column_step cols d)) as (Hi & Ht & Hm).
    rewrite Hi, Ht, Hm. cbn [column_step ids texts metadatas enumerate_from map].
    rewrite length_app, <- !app_assoc. cbn [List.length app].
    rewrite Nat.add_1_r. repeat split.
Qed.

Lemma length_enumerate_from {A : Type} (i : nat) (xs : list A) :
  List.length (enumerate_from i xs) = List.length xs.
Proof.
  revert i. induction xs as [|x xs IH]; intros i; cbn; [reflexivity|].
  rewrite IH. reflexivity.
Qed.

(** The slices of a list at the numbers of a range, put together again. *)
Lemma concat_slices {A : Type} (step : nat) (l : list A) :
  (0 < step)%nat ->
  forall fuel start,
    (List.length l - start <= fuel)%nat ->
    List.concat (map (fun i => slice i (i + step) l)
                     (range_from fuel start (List.length l) step))
    = skipn start l.
Proof.
  intros Hstep. induction fuel as [|fuel IH]; intros start Hfuel.
  - cbn. symmetry. apply skipn_all2. lia.
  - cbn [range_from].
    destruct (start <? List.length l)%nat eqn:Hlt.
    + apply Nat.ltb_lt in Hlt. cbn [map List.concat].
      rewrite IH by lia. unfold slice.
      replace (start + step - start)%nat with step by lia.
      rewrite <- (firstn_skipn step (skipn start l)) at 2.
      rewrite skipn_skipn. f_equal. f_equal. lia.
    + apply Nat.ltb_ge in Hlt. cbn. symmetry. apply skipn_all2. exact Hlt.
Qed.

Lemma length_slice {A : Type} (i step : nat) (l : list A) :
  List.length (slice i (i + step) l) = Nat.min step (List.length l - i).
Proof.
  unfold slice. rewrite length_firstn, length_skipn.
  replace (i + step - i)%nat with step by lia. reflexivity.
Qed.

(** The numbers of a range are below its end, and every number but the
    last is a whole step below it. *)
Lemma range_from_bounds (step stop : nat) :
  forall fuel start i,
    In i (range_from fuel start stop step) -> (start <= i < stop)%nat.
Proof.
  induction fuel as [|fuel IH]; intros start i Hin; [contradiction|].
  cbn [range_from] in Hin.
  destruct (start <? stop)%nat eqn:Hlt; [|contradiction].
  apply Nat.ltb_lt in Hlt. destruct Hin as [<-|Hin]; [lia|].
  apply IH in Hin. lia.
Qed.

Lemma range_from_inner (step stop : nat) :
  forall fuel start before last,
    range_from fuel start stop step = before ++ [last] ->
    forall i, In i before -> (i + step < stop)%nat.
Proof.
  induction fuel as [|fuel IH]; intros start before last E i Hin.
  - destruct before; discriminate.
  - cbn [range_from] in E.
    destruct (start <? stop)%nat eqn:Hlt; [|destruct before; discriminate].
    destruct before as [|b before]; [contradiction|].
    cbn [app] in E. injection E as <- E.
    destruct Hin as [<-|Hin].
    + destruct fuel as [|fuel]; [destruct before; discriminate|].
      cbn [range_from] in E.
      destruct (start + step <? stop)%nat eqn:Hlt2; [|destruct before; discriminate].
      apply Nat.ltb_lt in Hlt2. exact Hlt2.
    + apply (IH _ _ _ E i Hin).
Qed.

Lemma length_range_from (step stop : nat) :
  (0 < step)%nat ->
  forall fuel start,
    (stop - start <= fuel)%nat ->
    List.length (range_from fuel start stop step) = ((stop - start + (step - 1)) / step)%nat.
Proof.
  intros Hstep. induction fuel as [|fuel IH]; intros start Hfuel.
  - cbn. replace (stop - start)%nat with 0%nat by lia. cbn [Nat.add].
    symmetry. apply Nat.div_small. lia.
  - cbn [range_from].
    destruct (start <? stop)%nat eqn:Hlt.
    + apply Nat.ltb_lt in Hlt. cbn [List.length]. rewrite IH by lia.
      destruct (Nat.le_gt_cases (start + step) stop) as [Hfull|Hshort].
      * replace (stop - start + (step - 1))%nat
          with ((stop - (start + step) + (step - 1)) + 1 * step)%nat by lia.
        rewrite Nat.div_add by lia. lia.
      * replace (stop - (start + step))%nat with 0%nat by lia. cbn [Nat.add].
        rewrite Nat.div_small by lia.
        apply (Nat.div_unique _ _ 1 (stop - start - 1)); lia.
    + apply Nat.ltb_ge in Hlt. cbn [List.length].
      replace (stop - start)%nat with 0%nat by lia. cbn [Nat.add].
      symmetry. apply Nat.div_small. lia.
Qed.

Lemma range_eq_snoc (f : nat -> AddCall) (numbers : list nat)
    (before : list AddCall) (last : AddCall) :
  map f numbers = before ++ [last] ->
  exists inner i, numbers = inner ++ [i] /\ before = map f inner.
Proof.
  intros E. apply map_eq_app in E. destruct E as (inner & tl & -> & <- & Htl).
  destruct tl as [|i [|j tl]]; try discriminate.
  exists inner, i. split; reflexivity.
Qed.

(** The columns of the calls, put end to end, are the columns of the
    documents. *)
Lemma add_documents_columns (documents : list StoreDocument) :
  List.concat (map batch_ids (add_documents documents))
  = map stored_id (enumerate_from 0 documents)
  /\ List.concat (map batch_texts (add_documents documents))
     = map (fun d => get (sd_content d) "") documents
  /\ List.concat (map batch_metadatas (add_documents documents))
     = map (fun d => get (sd_metadata d) empty_metadata) documents.
Proof.
  unfold add_documents.
  destruct (columns_fold documents (Build_Columns [] [] [])) as (Hi & Ht & Hm).
  cbn [ids texts metadatas app List.length] in Hi, Ht, Hm.
  set (cols := fold_left column_step documents (Build_Columns [] [] [])) in *.
  assert (Li : List.length (ids cols) = List.length documents).
  { rewrite Hi, length_map. apply length_enumerate_from. }
  assert (Lt : List.length (texts cols) = List.length (ids cols)).
  { rewrite Li, Ht. apply length_map. }
  assert (Lm : List.length (metadatas cols) = List.length (ids cols)).
  { rewrite Li, Hm. apply length_map. }
  unfold range, batch_size.
  split; [|split].
  - rewrite map_map. cbn [batch_ids].
    rewrite (concat_slices 100 (ids cols)) by lia. exact Hi.
  - rewrite map_map. cbn [batch_texts]. rewrite <- Lt.
    rewrite (concat_slices 100 (texts cols)) by lia. exact Ht.
  - rewrite map_map. cbn [batch_metadatas]. rewrite <- Lm.
    rewrite (concat_slices 100 (metadatas cols)) by lia. exact Hm.
Qed.

(** X20. [add_documents] hands the collection every document exactly
    once and in order: the ids, the texts and the metadata of the calls,
    put end to end, are those of the documents, a document without
    [chunk_id] going under [doc_<position>].  Every call carries between
    1 and 100 documents, as many texts and metadata as ids; every call
    but the last carries exactly 100; and [n] documents take
    [ceil(n / 100)] calls, so no call is made for no document. *)
Theorem add_documents_batches (documents : list StoreDocument) :
  List.concat (map batch_ids (add_documents documents))
  = map stored_id (enumerate_from 0 documents)
  /\ List.concat (map batch_texts (add_documents documents))
     = map (fun d => get (sd_content d) "") documents
  /\ List.concat (map batch_metadatas (add_documents documents))
     = map (fun d => get (sd_metadata d) empty_metadata) documents
  /\ Forall (fun call =>
               (1 <= List.length (batch_ids call) <= 100)%nat
               /\ List.length (batch_texts call) = List.length (batch_ids call)
               /\ List.length (batch_metadatas call) = List.length (batch_ids call))
            (add_documents documents)
  /\ (forall before last,
        add_documents documents = before ++ [last] ->
        Forall (fun call => List.length (batch_ids call) = 100%nat) before)
  /\ List.length (add_documents documents) = ((List.length documents + 99) / 100)%nat.
Proof.
  destruct (add_documents_columns documents) as (Ci & Ct & Cm).
  split; [exact Ci|]. split; [exact Ct|]. split; [exact Cm|].
  clear Ci Ct Cm. unfold add_documents.
  destruct (columns_fold documents (Build_Columns [] [] [])) as (Hi & Ht & Hm).
  cbn [ids texts metadatas app List.length] in Hi, Ht, Hm.
  set (cols := fold_left column_step documents (Build_Columns [] [] [])) in *.
  assert (Li : List.length (ids cols) = List.length documents).
  { rewrite Hi, length_map. apply length_enumerate_from. }
  assert (Lt : List.length (texts cols) = List.length (ids cols)).
  { rewrite Li, Ht. apply length_map. }
  assert (Lm : List.length (metadatas cols) = List.length (ids cols)).
  { rewrite Li, Hm. apply length_map. }
  unfold range, batch_size.
  split; [|split].
  - apply Forall_forall. intros call Hin. apply in_map_iff in Hin.
    destruct Hin as (i & <- & Hin). apply range_from_bounds in Hin.
    cbn [batch_ids batch_texts batch_metadatas]. rewrite !length_slice, Lt, Lm. lia.
  - intros before last E. apply range_eq_snoc in E.
    destruct E as (inner & i & E & ->).
    apply Forall_forall. intros call Hin. apply in_map_iff in Hin.
    destruct Hin as (j & <- & Hin).
    pose proof (range_from_inner _ _ _ _ _ _ E j Hin) as Hfull.
    cbn [batch_ids]. rewrite length_slice. lia.
  - rewrite length_map, length_range_from by lia. rewrite Li, Nat.sub_0_r. reflexivity.
Qed.

Lemma stored_id_of_chunk (chunks : list Chunk) (i : nat) :
  map stored_id (enumerate_from i (map of_chunk chunks)) = map chunk_id chunks.
Proof.
  revert i. induction chunks as [|c chunks IH]; intros i; [reflexivity|].
  cbn [map enumerate_from]. rewrite IH. reflexivity.
Qed.

(** The ids of the chunks of several documents. *)
Lemma map_flat_map {A B C : Type} (f : B -> C) (g : A -> list B) (l : list A) :
  map f (flat_map g l) = flat_map (fun a => map f (g a)) l.
Proof.
  induction l as [|a l IH]; [reflexivity|].
  cbn [flat_map]. rewrite map_app, IH. reflexivity.
Qed.

Section Indexed.

Variable sent_tokenize : string -> list string.

(** A document that has a sentence has a first chunk, numbered 0. *)
Lemma first_chunk_id (data : Document) (chunk_size chunk_overlap : Z) :
  sent_tokenize (get (doc_content data) "") <> [] ->
  exists more,
    map chunk_id (prepare_document_chunks sent_tokenize data chunk_size chunk_overlap)
    = (get (doc_platform data) "unknown" ++ "_0")%string :: more.
Proof.
  intros Hne. unfold prepare_document_chunks, split_text_into_chunks.
  rewrite split_sentences_blocks.
  destruct (split_blocks_spec chunk_size chunk_overlap
              (sent_tokenize (get (doc_content data) ""))) as (Hcat & _).
  destruct (split_blocks _ chunk_size chunk_overlap) as [|b bs].
  - cbn in Hcat. symmetry in Hcat. contradiction.
  - cbn [map enumerate_from chunk_id extract_metadata platform get].
    eexists. reflexivity.
Qed.

(** X21. The ids [process_and_index_documents] hands the collection are
    the chunk ids of the documents, in order.  Chunk ids are numbered
    within a document, so two documents of one platform that each have a
    sentence both send the id [<platform>_0]: the ids sent are then not
    pairwise different. *)
Theorem documents_of_one_platform_repeat_ids
    (loaded before between after : list Document) (first second : Document)
    (chunk_size chunk_overlap : Z) :
  loaded = before ++ first :: between ++ second :: after ->
  get (doc_platform first) "unknown" = get (doc_platform second) "unknown" ->
  sent_tokenize (get (doc_content first) "") <> [] ->
  sent_tokenize (get (doc_content second) "") <> [] ->
  List.concat (map batch_ids
                 (process_and_index_documents sent_tokenize loaded chunk_size chunk_overlap))
  = flat_map (fun data =>
                map chunk_id
                    (prepare_document_chunks sent_tokenize data chunk_size chunk_overlap))
             loaded
  /\ ~ NoDup (List.concat
                (map batch_ids
                   (process_and_index_documents sent_tokenize loaded
                      chunk_size chunk_overlap))).
Proof.
  intros Hloaded Hplatform Hfirst Hsecond.
  assert (Hids : List.concat (map batch_ids
                   (process_and_index_documents sent_tokenize loaded chunk_size chunk_overlap))
                 = flat_map (fun data =>
                     map chunk_id
                       (prepare_document_chunks sent_tokenize data chunk_size chunk_overlap))
                     loaded).
  { unfold process_and_index_documents.
    rewrite (proj1 (add_documents_columns _)), stored_id_of_chunk.
    apply map_flat_map. }
  split; [exact Hids|].
  rewrite Hids, Hloaded. clear Hids Hloaded.
  rewrite flat_map_app. cbn [flat_map]. rewrite flat_map_app. cbn [flat_map].
  destruct (first_chunk_id first chunk_size chunk_overlap Hfirst) as (more1 & ->).
  destruct (first_chunk_id second chunk_size chunk_overlap Hsecond) as (more2 & ->).
  rewrite Hplatform. cbn [app]. intros Hnd.
  apply NoDup_remove_2 in Hnd. apply Hnd.
  apply in_or_app. right. apply in_or_app. right. apply in_or_app. right.
  left. reflexivity.
Qed.

End Indexed.

Lemma documents_of_one_platform_repeat_ids_witness :
  List.concat
    (map batch_ids
       (process_and_index_documents sample_tokenize
          [sample_document; sample_document] 1000 200))
  = ["segment_0"; "segment_0"]
  /\ ~ NoDup (List.concat
                (map batch_ids
                   (process_and_index_documents sample_tokenize
                      [sample_document; sample_document] 1000 200))).
Proof.
  destruct (documents_of_one_platform_repeat_ids sample_tokenize
              [sample_document; sample_document] [] [] [] sample_document sample_document
              1000 200) as [Hids Hdup].
  - reflexivity.
  - reflexivity.
  - vm_compute. discriminate.
  - vm_compute. discriminate.
  - split; [|exact Hdup]. rewrite Hids. vm_compute. reflexivity.
Defined.

End IndexingMore.

(* ================================================================== *)
(** * The preprocessing of a query: what it leaves *)
(* ================================================================== *)

Module PreprocessMore.
Import PyStr Re QueryProcessor Sanitize.
Open Scope string_scope.
Open Scope list_scope.

Lemma sub_sub_from (r : regex) (repl s : string) :
  sub r repl s = sub_from (S (String.length s)) r repl None s.
Proof. reflexivity. Qed.

(** Where the pattern does not match, the character is kept and the scan
    moves on. *)
Lemma sub_from_skip (fuel : nat) (r : regex) (repl : string) (p : option ascii)
    (c : ascii) (s : string) :
  match_at r (MState p (String c s) []) = None ->
  sub_from (S fuel) r repl p (String c s) = String c (sub_from (S fuel) r repl (Some c) s).
Proof.
  intros Hnone. unfold sub_from. cbn [finditer_from search_from]. rewrite Hnone.
  destruct (search_from r (Some c) s) as [[sk m]|]; [|reflexivity].
  destruct (m_text m), (rest (m_end m));
    try destruct (finditer_from fuel r _ _) as [[|[sk' m'] ms] tl]; reflexivity.
Qed.

(** Where the pattern matches a text that is not empty, the replacement
    is written and the scan goes on after the match. *)
Lemma sub_from_match (fuel : nat) (r : regex) (repl : string) (p : option ascii)
    (s : string) (m : rmatch) :
  match_at r (MState p s []) = Some m ->
  m_text m <> "" ->
  sub_from (S fuel) r repl p s
  = (repl ++ sub_from fuel r repl (prev (m_end m)) (rest (m_end m)))%string.
Proof.
  intros Hm Hne. unfold sub_from. cbn [finditer_from].
  assert (Hs : search_from r p s = Some ("", m)).
  { destruct s; cbn [search_from]; rewrite Hm; reflexivity. }
  rewrite Hs. destruct (m_text m) as [|c t]; [contradiction|].
  destruct (finditer_from fuel r _ _) as [ms tl]. reflexivity.
Qed.

Lemma sub_from_end (fuel : nat) (r : regex) (repl : string) (p : option ascii) :
  match_at r (MState p "" []) = None -> sub_from fuel r repl p "" = "".
Proof.
  intros Hnone. unfold sub_from. destruct fuel; [reflexivity|].
  cbn [finditer_from search_from]. rewrite Hnone. reflexivity.
Qed.

Lemma match_at_cls (q : ascii -> bool) (p : option ascii) (c : ascii) (s : string) :
  match_at (Cls q) (MState p (String c s) [])
  = if q c then Some (RMatch (String c "") [] (MState (Some c) s [])) else None.
Proof.
  unfold match_at. cbn [run step rest prev caps].
  destruct (q c); [|reflexivity].
  unfold consumed. cbn [rest String.length prev caps].
  replace (S (String.length s) - String.length s)%nat with 1%nat by lia.
  reflexivity.
Qed.

(** [re.sub] of a class by nothing removes the characters of the class. *)
Lemma sub_from_cls (q : ascii -> bool) (s : string) :
  forall fuel p,
    (String.length s < fuel)%nat ->
    sub_from fuel (Cls q) "" p s = remove_chars q s.
Proof.
  induction s as [|c s IH]; intros fuel p Hfuel.
  - apply sub_from_end. reflexivity.
  - destruct fuel as [|fuel]; [lia|]. cbn [String.length] in Hfuel.
    cbn [remove_chars]. destruct (q c) eqn:Hc.
    + rewrite (sub_from_match fuel (Cls q) "" p (String c s)
                 (RMatch (String c "") [] (MState (Some c) s []))).
      * cbn [m_end prev rest append]. apply IH. lia.
      * rewrite match_at_cls, Hc. reflexivity.
      * discriminate.
    + rewrite sub_from_skip by (rewrite match_at_cls, Hc; reflexivity).
      f_equal. apply IH. lia.
Qed.

Lemma length_drop_while (q : ascii -> bool) (s : string) :
  (String.length (drop_while q s) <= String.length s)%nat.
Proof.
  induction s as [|c s IH]; cbn [drop_while]; [apply Nat.le_refl|].
  destruct (q c); cbn [String.length]; lia.
Qed.

(** A greedy star over a class takes the leading characters of the class
    and stops. *)
Lemma run_star_cls_greedy (q : ascii -> bool) (s : string) :
  forall p cs,
    exists p', run (Star (Cls q)) (MState p s cs) (fun st => Some st)
               = Some (MState p' (drop_while q s) cs).
Proof.
  induction s as [|c s IH]; intros p cs.
  - exists p. reflexivity.
  - rewrite PipelineMore.run_star_cls_cons. cbn [drop_while].
    destruct (q c).
    + destruct (IH (Some c) cs) as [p' ->]. exists p'. reflexivity.
    + exists p. reflexivity.
Qed.

Lemma match_at_plus_cls (q : ascii -> bool) (p : option ascii) (c : ascii) (s : string) :
  (q c = false -> match_at (Plus (Cls q)) (MState p (String c s) []) = None)
  /\ (q c = true ->
      exists t p',
        match_at (Plus (Cls q)) (MState p (String c s) [])
        = Some (RMatch (String c t) [] (MState p' (drop_while q s) []))).
Proof.
  unfold match_at. cbn [rest prev]. rewrite PipelineMore.run_plus_cls_cons. split.
  - intros ->. reflexivity.
  - intros ->. destruct (run_star_cls_greedy q s (Some c) []) as [p' ->].
    unfold consumed. cbn [rest prev caps String.length].
    pose proof (length_drop_while q s) as Hlen.
    destruct (S (String.length s) - String.length (drop_while q s))%nat as [|n] eqn:Hn;
      [lia|].
    cbn [take]. do 2 eexists. reflexivity.
Qed.

Lemma collapse_runs_drop (q : ascii -> bool) (repl s : string) :
  collapse_runs q repl true s = collapse_runs q repl false (drop_while q s).
Proof.
  induction s as [|c s IH]; [reflexivity|].
  cbn [collapse_runs drop_while]. destruct (q c) eqn:Hc; [exact IH|].
  cbn [collapse_runs]. rewrite Hc. reflexivity.
Qed.

(** [re.sub] of the runs of a class writes the replacement once for each
    run. *)
Lemma sub_from_plus_cls (q : ascii -> bool) (repl : string) (n : nat) :
  forall s fuel p,
    (String.length s <= n)%nat ->
    (String.length s < fuel)%nat ->
    sub_from fuel (Plus (Cls q)) repl p s = collapse_runs q repl false s.
Proof.
  induction n as [|n IH]; intros s fuel p Hn Hfuel.
  - destruct s; [|cbn in Hn; lia]. apply sub_from_end. reflexivity.
  - destruct s as [|c s]; [apply sub_from_end; reflexivity|].
    destruct fuel as [|fuel]; [lia|]. cbn [String.length] in Hn, Hfuel.
    destruct (match_at_plus_cls q p c s) as [Hno Hyes].
    cbn [collapse_runs]. destruct (q c) eqn:Hc.
    + destruct (Hyes eq_refl) as (t & p' & Hm).
      rewrite (sub_from_match fuel _ repl p (String c s) _ Hm) by discriminate.
      cbn [m_end prev rest]. pose proof (length_drop_while q s) as Hlen.
      rewrite IH by lia. rewrite collapse_runs_drop. reflexivity.
    + rewrite sub_from_skip by (apply Hno; reflexivity).
      f_equal. apply IH; lia.
Qed.

(** The preprocessing without its patterns: lower case, every run of
    whitespace made one space, the ends stripped, and the special
    characters removed. *)
Lemma preprocess_unfolded (query : string) :
  _preprocess_query query
  = remove_chars is_special (strip (collapse_runs is_space " " false (lower query))).
Proof.
  unfold _preprocess_query.
  rewrite !sub_sub_from. unfold Space.
  rewrite (sub_from_plus_cls is_space " " (String.length (lower query))) by lia.
  apply sub_from_cls. lia.
Qed.

Lemma all_chars_app (q : ascii -> bool) (s t : string) :
  all_chars q (s ++ t) = all_chars q s && all_chars q t.
Proof.
  induction s as [|c s IH]; cbn [append all_chars]; [reflexivity|].
  rewrite IH, andb_assoc. reflexivity.
Qed.

Lemma all_chars_lstrip (q : ascii -> bool) (s : string) :
  all_chars q s = true -> all_chars q (lstrip s) = true.
Proof.
  induction s as [|c s IH]; cbn [lstrip]; intros Hall; [reflexivity|].
  destruct (is_space c); [|exact Hall].
  cbn [all_chars] in Hall. apply andb_prop in Hall. apply IH, Hall.
Qed.

Lemma all_chars_rev_string (q : ascii -> bool) (s acc : string) :
  all_chars q s = true -> all_chars q acc = true ->
  all_chars q (rev_string acc s) = true.
Proof.
  revert acc. induction s as [|c s IH]; intros acc Hs Hacc; [exact Hacc|].
  cbn [all_chars] in Hs. apply andb_prop in Hs. destruct Hs as [Hc Hs].
  cbn [rev_string]. apply IH; [exact Hs|]. cbn [all_chars]. rewrite Hc. exact Hacc.
Qed.

Lemma all_chars_strip (q : ascii -> bool) (s : string) :
  all_chars q s = true -> all_chars q (strip s) = true.
Proof.
  intros Hall. unfold strip, rstrip.
  apply all_chars_rev_string; [|reflexivity].
  apply all_chars_lstrip. apply all_chars_rev_string; [|reflexivity].
  apply all_chars_lstrip. exact Hall.
Qed.

Lemma lower_char_not_upper (c : ascii) : is_upper (lower_char c) = false.
Proof.
  unfold lower_char. destruct (is_upper c) eqn:Hu; [|exact Hu].
  unfold is_upper, in_range, code in *.
  apply andb_prop in Hu. destruct Hu as [Hlo Hhi].
  apply Nat.leb_le in Hlo. apply Nat.leb_le in Hhi.
  rewrite nat_ascii_embedding by lia.
  apply andb_false_intro2. apply Nat.leb_gt. lia.
Qed.

Lemma all_chars_lower (s : string) :
  all_chars (fun c => negb (is_upper c)) (lower s) = true.
Proof.
  induction s as [|c s IH]; [reflexivity|].
  cbn [lower all_chars]. rewrite lower_char_not_upper, IH. reflexivity.
Qed.

(** After the whitespace is collapsed, the only whitespace is the
    space. *)
Lemma all_chars_collapse (s : string) (in_run : bool) :
  all_chars (fun c => negb (is_upper c)) s = true ->
  all_chars (fun c => negb (is_upper c) && (negb (is_space c) || Ascii.eqb c " "))
            (collapse_runs is_space " " in_run s) = true.
Proof.
  revert in_run. induction s as [|c s IH]; intros in_run Hall; [reflexivity|].
  cbn [all_chars] in Hall. apply andb_prop in Hall. destruct Hall as [Hc Hs].
  cbn [collapse_runs]. destruct (is_space c) eqn:Hsp.
  - destruct in_run; [apply IH; exact Hs|].
    rewrite all_chars_app. rewrite IH by exact Hs. reflexivity.
  - cbn [all_chars]. rewrite Hc, Hsp, IH by exact Hs. reflexivity.
Qed.

Lemma plain_char (c : ascii) :
  negb (is_upper c) && (negb (is_space c) || Ascii.eqb c " ") = true ->
  is_special c = false ->
  is_plain c = true.
Proof.
  intros HQ Hsp. apply andb_prop in HQ. destruct HQ as [Hup Hws].
  apply negb_true_iff in Hup. unfold is_special in Hsp. apply negb_false_iff in Hsp.
  unfold is_plain. destruct (Ascii.eqb c " ") eqn:Hspace; [rewrite !orb_true_r; reflexivity|].
  rewrite orb_false_r in Hws. apply negb_true_iff in Hws.
  rewrite Hws, orb_false_r in Hsp.
  unfold is_word in Hsp. rewrite Hup in Hsp. cbn [orb] in Hsp.
  destruct (is_lower c); [reflexivity|]. destruct (is_digit c); [reflexivity|].
  cbn [orb] in Hsp |- *.
  destruct (Ascii.eqb c "?"); [rewrite !orb_true_r; reflexivity|].
  destruct (Ascii.eqb c "."); [rewrite !orb_true_r; reflexivity|].
  rewrite !orb_false_r in Hsp. apply Nat.eqb_eq in Hsp.
  assert (E : c = "_"%char).
  { rewrite <- (ascii_nat_embedding c). unfold code in Hsp. rewrite Hsp. reflexivity. }
  subst c. reflexivity.
Qed.

Lemma all_chars_remove_special (s : string) :
  all_chars (fun c => negb (is_upper c) && (negb (is_space c) || Ascii.eqb c " ")) s = true ->
  all_chars is_plain (remove_chars is_special s) = true.
Proof.
  induction s as [|c s IH]; intros Hall; [reflexivity|].
  cbn [all_chars] in Hall. apply andb_prop in Hall. destruct Hall as [Hc Hs].
  cbn [remove_chars]. destruct (is_special c) eqn:Hsp; [apply IH; exact Hs|].
  cbn [all_chars]. rewrite (plain_char c Hc Hsp), IH by exact Hs. reflexivity.
Qed.

(** X22. For a message of code points below 128, the preprocessing is:
    lower case, every run of whitespace made one space, the ends
    stripped, then every character removed that is not a letter, a digit,
    the underscore, whitespace, [?] or [.].  So the text that
    [process_query] routes and retrieves with holds lower-case letters,
    digits, underscores, spaces, [?] and [.] only. *)
Theorem preprocessing_leaves_plain_text (query : string) :
  all_chars is_ascii query = true ->
  _preprocess_query query
  = remove_chars is_special (strip (collapse_runs is_space " " false (lower query)))
  /\ all_chars is_plain (_preprocess_query query) = true.
Proof.
  intros _. split; [apply preprocess_unfolded|].
  rewrite preprocess_unfolded.
  apply all_chars_remove_special, all_chars_strip, all_chars_collapse, all_chars_lower.
Qed.

Lemma preprocessing_leaves_plain_text_witness :
  _preprocess_query "What's   the weather  today?! " = "whats the weather today?"
  /\ all_chars is_plain (_preprocess_query "What's   the weather  today?! ") = true.
Proof.
  destruct (preprocessing_leaves_plain_text "What's   the weather  today?! " eq_refl)
    as [Heq Hplain].
  split; [rewrite Heq; vm_compute; reflexivity | exact Hplain].
Defined.

End PreprocessMore.

(* ================================================================== *)
(** * Where a match stands in its subject *)
(* ================================================================== *)

Module LineGroup.
Import PyStr Re ReGroups ReMore QueryProcessor Sanitize.
Open Scope string_scope.
Open Scope list_scope.

Lemma append_assoc_str (a b c : string) : ((a ++ b) ++ c = a ++ (b ++ c))%string.
Proof. induction a as [|x a IH]; cbn [append]; [reflexivity | now rewrite IH]. Qed.

Lemma length_append_str (a b : string) :
  String.length (a ++ b)%string = (String.length a + String.length b)%nat.
Proof. induction a as [|x a IH]; cbn [append String.length]; [reflexivity | now rewrite IH]. Qed.

Lemma take_app (t r : string) : take (String.length t) (t ++ r)%string = t.
Proof.
  induction t as [|c t IH]; cbn [append String.length take].
  - destruct r; reflexivity.
  - rewrite IH. reflexivity.
Qed.

(** The text between two positions of a subject. *)
Lemma consumed_app (st st' : mstate) (t : string) :
  rest st = (t ++ rest st')%string -> consumed st st' = t.
Proof.
  intros E. unfold consumed. rewrite E, length_append_str.
  replace (String.length t + String.length (rest st') - String.length (rest st'))%nat
    with (String.length t) by lia.
  apply take_app.
Qed.

(** A match that succeeds has handed its continuation a later position
    of the same subject. *)
Lemma run_position {R : Type} (r : regex) :
  forall (st : mstate) (k : mstate -> option R) (res : R),
    run r st k = Some res ->
    exists st' t, k st' = Some res /\ rest st = (t ++ rest st')%string.
Proof.
  induction r as [|c|p|r1 IH1 r2 IH2|r1 IH1 r2 IH2|r1 IH1|r1 IH1|n r1 IH1|r1 IH1|p| |];
    intros st k res Hrun; cbn [run] in Hrun.
  - exists st, "". split; [exact Hrun | reflexivity].
  - unfold step in Hrun. destruct (rest st) as [|d s'] eqn:Hrest; [discriminate|].
    destruct (Ascii.eqb c d); [|discriminate].
    eexists. exists (String d ""). split; [exact Hrun | reflexivity].
  - unfold step in Hrun. destruct (rest st) as [|d s'] eqn:Hrest; [discriminate|].
    destruct (p d); [|discriminate].
    eexists. exists (String d ""). split; [exact Hrun | reflexivity].
  - destruct (IH1 _ _ _ Hrun) as (st1 & t1 & Hrun2 & E1).
    destruct (IH2 _ _ _ Hrun2) as (st2 & t2 & Hk & E2).
    exists st2, (t1 ++ t2)%string. split; [exact Hk|].
    rewrite E1, E2, append_assoc_str. reflexivity.
  - destruct (run r1 st k) as [x|] eqn:H1.
    + injection Hrun as <-. exact (IH1 _ _ _ H1).
    + exact (IH2 _ _ _ Hrun).
  - revert Hrun. generalize (String.length (rest st)). intros fuel. revert st.
    induction fuel as [|fuel IHf]; intros st Hrun.
    + exists st, "". split; [exact Hrun | reflexivity].
    + match type of Hrun with
      | match ?m with _ => _ end = _ => destruct m as [x|] eqn:H1
      end.
      * injection Hrun as <-.
        destruct (IH1 _ _ _ H1) as (st1 & t1 & Hk1 & E1).
        destruct (progress st st1); [|discriminate].
        destruct (IHf _ Hk1) as (st2 & t2 & Hk & E2).
        exists st2, (t1 ++ t2)%string. split; [exact Hk|].
        rewrite E1, E2, append_assoc_str. reflexivity.
      * exists st, "". split; [exact Hrun | reflexivity].
  - revert Hrun. generalize (String.length (rest st)). intros fuel. revert st.
    induction fuel as [|fuel IHf]; intros st Hrun.
    + exists st, "". split; [exact Hrun | reflexivity].
    + destruct (k st) as [x|] eqn:Hk0.
      * injection Hrun as <-. exists st, "". split; [exact Hk0 | reflexivity].
      * destruct (IH1 _ _ _ Hrun) as (st1 & t1 & Hk1 & E1).
        destruct (progress st st1); [|discriminate].
        destruct (IHf _ Hk1) as (st2 & t2 & Hk & E2).
        exists st2, (t1 ++ t2)%string. split; [exact Hk|].
        rewrite E1, E2, append_assoc_str. reflexivity.
  - destruct (IH1 _ _ _ Hrun) as (st1 & t1 & Hk & E1).
    eexists. exists t1. split; [exact Hk | exact E1].
  - destruct (run r1 st (fun st' => Some st')); [|discriminate].
    exists st, "". split; [exact Hrun | reflexivity].
  - destruct (prev st) as [c|]; [|discriminate]. destruct (p c); [|discriminate].
    exists st, "". split; [exact Hrun | reflexivity].
  - destruct (at_eos (rest st)); [|discriminate].
    exists st, "". split; [exact Hrun | reflexivity].
  - destruct (xorb (word_before st) (word_after st)); [|discriminate].
    exists st, "". split; [exact Hrun | reflexivity].
Qed.

(** The matched text and the text after it make up the subject from the
    position of the match. *)
Lemma match_at_position (r : regex) (st : mstate) (m : rmatch) :
  match_at r st = Some m -> rest st = (m_text m ++ rest (m_end m))%string.
Proof.
  unfold match_at. intros Hm.
  destruct (run r (MState (prev st) (rest st) []) (fun st' => Some st')) as [st'|] eqn:Hrun;
    [|discriminate].
  injection Hm as <-. cbn [m_text m_end rest].
  destruct (run_position r _ _ _ Hrun) as (st1 & t & Hk & E).
  injection Hk as ->. cbn [rest] in E.
  rewrite (consumed_app st st' t E). exact E.
Qed.

Lemma search_from_position (r : regex) (s : string) :
  forall p skipped m,
    search_from r p s = Some (skipped, m) ->
    s = (skipped ++ m_text m ++ rest (m_end m))%string
    /\ exists st, match_at r st = Some m.
Proof.
  induction s as [|c s IH]; intros p skipped m Hs; cbn [search_from] in Hs.
  - destruct (match_at r (MState p "" [])) as [m'|] eqn:Hm; [|discriminate].
    injection Hs as <- <-. split; [|eexists; exact Hm].
    apply match_at_position in Hm. exact Hm.
  - destruct (match_at r (MState p (String c s) [])) as [m'|] eqn:Hm.
    + injection Hs as <- <-. split; [|eexists; exact Hm].
      apply match_at_position in Hm. exact Hm.
    + destruct (search_from r (Some c) s) as [[sk m']|] eqn:Hrec; [|discriminate].
      injection Hs as <- <-. destruct (IH _ _ _ Hrec) as [E Hst].
      split; [|exact Hst]. cbn [append]. f_equal. exact E.
Qed.

(** The leading characters of a class, and the text after them. *)
Lemma drop_while_split (q : ascii -> bool) (s : string) :
  exists t, s = (t ++ drop_while q s)%string /\ all_chars q t = true.
Proof.
  induction s as [|c s IH].
  - exists "". split; reflexivity.
  - cbn [drop_while]. destruct (q c) eqn:Hc.
    + destruct IH as (t & E & Hall). exists (String c t). split.
      * cbn [append]. f_equal. exact E.
      * cbn [all_chars]. rewrite Hc. exact Hall.
    + exists "". split; reflexivity.
Qed.

Lemma drop_while_stops (q : ascii -> bool) (s : string) :
  drop_while q s = "" \/ exists c tl, drop_while q s = String c tl /\ q c = false.
Proof.
  induction s as [|c s IH]; [left; reflexivity|].
  cbn [drop_while]. destruct (q c) eqn:Hc; [exact IH|].
  right. exists c, s. split; [reflexivity | exact Hc].
Qed.

(** A greedy star over a class, before a continuation that accepts: it
    takes the leading characters of the class and hands over. *)
Lemma run_star_cls_accepting (q : ascii -> bool) (s : string) :
  forall p cs,
    exists p',
      forall (R : Type) (k : mstate -> option R) (x : R),
        k (MState p' (drop_while q s) cs) = Some x ->
        run (Star (Cls q)) (MState p s cs) k = Some x.
Proof.
  induction s as [|c s IH]; intros p cs.
  - exists p. intros R k x Hk. exact Hk.
  - cbn [drop_while]. destruct (q c) eqn:Hc.
    + destruct (IH (Some c) cs) as [p' Hrun]. exists p'. intros R k x Hk.
      rewrite PipelineMore.run_star_cls_cons, Hc, (Hrun R k x Hk). reflexivity.
    + exists p. intros R k x Hk.
      rewrite PipelineMore.run_star_cls_cons, Hc. exact Hk.
Qed.

Lemma run_group {R : Type} (n : nat) (r : regex) (st : mstate) (k : mstate -> option R) :
  run (Group n r) st k
  = run r st (fun st' => k (MState (prev st') (rest st') ((n, consumed st st') :: caps st'))).
Proof. reflexivity. Qed.

(** A pattern that ends with a group around [.+], matched with nothing
    after it: the group holds the text from its start to the end of the
    line, and the text is not empty. *)
Lemma run_line_group (n : nat) (r : regex) :
  ends_with_line_group n r ->
  forall (st res : mstate),
    run r st (fun st' => Some st') = Some res ->
    exists t txt more,
      caps res = (n, txt) :: more
      /\ rest st = (t ++ txt ++ rest res)%string
      /\ txt <> ""
      /\ all_chars (fun c => negb (Ascii.eqb c nl_char)) txt = true
      /\ (rest res = "" \/ exists tl, rest res = String nl_char tl).
Proof.
  induction r as [|c|p|r1 IH1 r2 IH2|r1 IH1 r2 IH2|r1 IH1|r1 IH1|m r1 IH1|r1 IH1|p| |];
    cbn [ends_with_line_group]; try contradiction; intros Hend st res Hrun.
  - cbn [run] in Hrun.
    destruct (run_position r1 _ _ _ Hrun) as (st1 & t1 & Hrun2 & E1).
    destruct (IH2 Hend _ _ Hrun2) as (t & txt & more & Hcaps & E & Hne & Hall & Hstop).
    exists (t1 ++ t)%string, txt, more. repeat split; auto.
    rewrite E1, E, append_assoc_str. reflexivity.
  - destruct Hend as [-> ->].
    destruct st as [p s cs]. destruct s as [|c s]; [discriminate|].
    rewrite run_group in Hrun. unfold Dot in Hrun.
    rewrite PipelineMore.run_plus_cls_cons in Hrun.
    destruct (negb (Ascii.eqb c nl_char)) eqn:Hc; [|discriminate].
    destruct (run_star_cls_accepting (fun c0 => negb (Ascii.eqb c0 nl_char)) s (Some c) cs)
      as [p' Hgreedy].
    match type of Hrun with
    | run _ _ ?k = _ => rewrite (Hgreedy _ k _ eq_refl) in Hrun
    end.
    injection Hrun as <-.
    cbn [caps rest prev].
    destruct (drop_while_split (fun c0 => negb (Ascii.eqb c0 nl_char)) s) as (t & Es & Hall).
    assert (Econs : consumed (MState p (String c s) cs)
                      (MState p' (drop_while (fun c0 => negb (Ascii.eqb c0 nl_char)) s) cs)
                    = String c t).
    { apply consumed_app. cbn [rest append]. f_equal. exact Es. }
    rewrite Econs.
    exists "", (String c t), cs. split; [reflexivity|]. split; [|split; [|split]].
    + cbn [append]. f_equal. exact Es.
    + discriminate.
    + cbn [all_chars]. rewrite Hc. exact Hall.
    + destruct (drop_while_stops (fun c0 => negb (Ascii.eqb c0 nl_char)) s)
        as [->|(d & tl & -> & Hd)]; [left; reflexivity|].
      right. exists tl. f_equal.
      apply negb_false_iff in Hd. apply Ascii.eqb_eq in Hd. exact Hd.
Qed.

(** The same for a match object. *)
Lemma match_at_line_group (n : nat) (r : regex) (st : mstate) (m : rmatch) :
  ends_with_line_group n r ->
  match_at r st = Some m ->
  exists before text,
    group n (m_caps m) = Some text
    /\ m_text m = (before ++ text)%string
    /\ text <> ""
    /\ all_chars (fun c => negb (Ascii.eqb c nl_char)) text = true
    /\ (rest (m_end m) = "" \/ exists tl, rest (m_end m) = String nl_char tl).
Proof.
  intros Hend Hm. pose proof (match_at_position r st m Hm) as Hpos.
  unfold match_at in Hm.
  destruct (run r (MState (prev st) (rest st) []) (fun st' => Some st')) as [st'|] eqn:Hrun;
    [|discriminate].
  injection Hm as <-. cbn [m_caps m_text m_end rest] in *.
  destruct (run_line_group n r Hend _ _ Hrun) as (t & txt & more & Hcaps & E & Hne & Hall & Hstop).
  cbn [rest] in E.
  exists t, txt. split; [|split; [|split; [|split]]]; auto.
  - rewrite Hcaps. cbn [group]. rewrite Nat.eqb_refl. reflexivity.
  - apply consumed_app. rewrite E, append_assoc_str. reflexivity.
Qed.

End LineGroup.

(* ================================================================== *)
(** * The feature of a comparison *)
(* ================================================================== *)

Module FeatureMore.
Import PyStr PyFloat Re ReGroups Data Config Retriever Vocabulary ReMore LineGroup.
Import QueryProcessor.
Open Scope string_scope.
Open Scope list_scope.

Lemma feature_loop_skip (before more : list regex) (s : string) :
  (forall x, In x before -> matches x s = false) ->
  feature_loop (before ++ more) s = feature_loop more s.
Proof.
  induction before as [|x before IH]; intros Hnone; [reflexivity|].
  cbn [app feature_loop].
  specialize (Hnone x (or_introl eq_refl)) as Hx. unfold matches in Hx.
  destruct (search x s) as [[sk m]|]; [discriminate|].
  apply IH. intros y Hy. apply Hnone. right. exact Hy.
Qed.

Lemma feature_pattern_line_group (p : regex) :
  In p feature_patterns ->
  ends_with_line_group 2 p \/ ~ In 2 (groups p).
Proof.
  unfold feature_patterns. intros Hin. simpl in Hin.
  destruct Hin as [<-|[<-|[<-|[<-|[<-|[]]]]]].
  - left. cbn. split; reflexivity.
  - left. cbn. split; reflexivity.
  - right. vm_compute. intuition discriminate.
  - right. vm_compute. intuition discriminate.
  - right. vm_compute. intuition discriminate.
Qed.

(** X7. The outcome of the feature extraction is decided by the first
    feature pattern that matches the lower-cased query.  When it has a
    second group (the first two patterns), the feature is the text of
    that group of the leftmost match, stripped: the group is the end of
    the matched text, it is not empty, and it runs to the end of the
    line (the query ends there, or a line feed follows).  When the
    pattern has one group only (the last three patterns), reading group
    2 raises [IndexError].  When no pattern matches, there is no
    feature. *)
Theorem feature_extraction_outcomes (query : string) :
  map (fun p => existsb (Nat.eqb 2) (groups p)) feature_patterns
  = [true; true; false; false; false]
  /\ ((forall p, In p feature_patterns -> matches p (lower query) = false) ->
      _extract_feature_for_comparison query = Ok None)
  /\ (forall before p after,
        feature_patterns = before ++ p :: after ->
        (forall x, In x before -> matches x (lower query) = false) ->
        matches p (lower query) = true ->
        (In 2 (groups p) ->
         exists skipped m head text,
           search p (lower query) = Some (skipped, m)
           /\ lower query = (skipped ++ m_text m ++ rest (m_end m))%string
           /\ group 2 (m_caps m) = Some text
           /\ m_text m = (head ++ text)%string
           /\ text <> ""
           /\ all_chars (fun c => negb (Ascii.eqb c nl_char)) text = true
           /\ (rest (m_end m) = "" \/ exists tl, rest (m_end m) = String nl_char tl)
           /\ _extract_feature_for_comparison query = Ok (Some (strip text)))
        /\ (~ In 2 (groups p) -> _extract_feature_for_comparison query = IndexError)).
Proof.
  split; [vm_compute; reflexivity|]. split.
  - intros Hnone. unfold _extract_feature_for_comparison.
    rewrite <- (app_nil_r feature_patterns), feature_loop_skip by exact Hnone.
    reflexivity.
  - intros before p after Hsplit Hnone Hp.
    unfold _extract_feature_for_comparison. rewrite Hsplit, feature_loop_skip by exact Hnone.
    cbn [feature_loop]. unfold matches in Hp.
    destruct (search p (lower query)) as [[sk m]|] eqn:Hs; [|discriminate].
    destruct (search_from_position p _ _ _ _ Hs) as (Hpos & st & Hm).
    assert (Hin : In p feature_patterns).
    { rewrite Hsplit. apply in_or_app. right. left. reflexivity. }
    split.
    + intros H2. destruct (feature_pattern_line_group p Hin) as [Hend|Hno]; [|contradiction].
      destruct (match_at_line_group 2 p st m Hend Hm)
        as (head & text & Hg & Htext & Hne & Hall & Hstop).
      exists sk, m, head, text. rewrite Hg.
      repeat split; auto.
    + intros Hno. rewrite (match_at_groups p st m 2 Hm Hno). reflexivity.
Qed.
Lemma feature_extraction_outcomes_witness :
  _extract_feature_for_comparison "Difference between Segment and Lytics for audiences"
  = IndexError
  /\ exists text,
       _extract_feature_for_comparison "Compare Segment and Lytics for audience segmentation"
       = Ok (Some (strip text))
       /\ text = "audience segmentation".
Proof.
  split.
  - refine (proj2 (proj2 (proj2 (feature_extraction_outcomes
              "Difference between Segment and Lytics for audiences"))
              [nth 0 feature_patterns Eps; nth 1 feature_patterns Eps]
              (nth 2 feature_patterns Eps)
              [nth 3 feature_patterns Eps; nth 4 feature_patterns Eps]
              eq_refl _ _) _).
    + intros x [<-|[<-|[]]]; vm_compute; reflexivity.
    + vm_compute. reflexivity.
    + vm_compute. intuition discriminate.
  - destruct (proj1 (proj2 (proj2 (feature_extraction_outcomes
                "Compare Segment and Lytics for audience segmentation"))
                [nth 0 feature_patterns Eps]
                (nth 1 feature_patterns Eps)
                [nth 2 feature_patterns Eps; nth 3 feature_patterns Eps;
                 nth 4 feature_patterns Eps]
                eq_refl
                ltac:(intros x [<-|[]]; vm_compute; reflexivity)
                ltac:(vm_compute; reflexivity))
              ltac:(vm_compute; auto))
      as (skipped & m & head & text & Hs & _ & Hg & _ & _ & _ & _ & Hres).
    exists text. split; [exact Hres|].
    vm_compute in Hs. injection Hs as _ <-.
    vm_compute in Hg. injection Hg as <-. reflexivity.
Defined.

End FeatureMore.
